(** * DCGAN node builders ([tensorflow/examples/cc/gan/dcgan/nn_ops_rkz.cc])

    A shallow embedding of the graph-building layer library. Every C++
    constructor or [Build] method that adds nodes to the graph through a
    [Scope] becomes a computation in a small state-and-fault monad over an
    explicit [Graph].

    - Graph nodes are terms of the inductive type [Output], with one
      constructor per primitive op that the file calls.
    - The C++ type [float] is an interface, [FloatOps], with two models:
      IEEE-754 binary32, computed by the standard library's [SpecFloat], and
      the real numbers, where arithmetic is exact.
    - The C++ type [int] is [Z] with the 32-bit wrap-around written out.
    - The constants of the headers ([MOMENTUM], [NOISE_DIM], [UNITS],
      [NUM_CHANNELS], [IMAGE_SIZE]) are parameters.
    - The kernels of the primitives belong to the engine; their meaning is
      given on tensors of real numbers in [Semantics]. *)

From Stdlib Require Import ZArith List String Bool Lia.
From Stdlib Require Import Reals Lra.
From Stdlib Require Import Floats.SpecFloat.
Import ListNotations.

Set Implicit Arguments.

(** ** Machine integers *)

Module MachineInt.

Local Open Scope Z_scope.

(** Two's-complement value of [z] in [bits] bits. *)
Definition wrap (bits z : Z) : Z :=
  (z + 2 ^ (bits - 1)) mod 2 ^ bits - 2 ^ (bits - 1).

(** [a - b] on C++ [int]. *)
Definition int_sub (a b : Z) : Z := wrap 32 (a - b).

(** [a / b] on C++ [int]: the quotient is truncated toward zero. *)
Definition int_div (a b : Z) : Z := wrap 32 (Z.quot a b).

End MachineInt.
Export MachineInt.

(** ** The interface of [float] *)

Class FloatOps (F : Type) : Type := {
  fadd : F -> F -> F;
  fsub : F -> F -> F;
  fmul : F -> F -> F;
  fdiv : F -> F -> F;
  fopp : F -> F;
  fsqrt : F -> F;                (* std::sqrt *)
  fltb : F -> F -> bool;         (* operator< *)
  of_int : Z -> F;               (* conversion of an integer to float *)
  to_int : F -> Z;               (* conversion of a float to int *)
  toR : F -> R                   (* the real number a float stands for *)
}.

Section FloatDerived.
Context {F : Type} {FO : FloatOps F}.

(** [std::max(a, b)] is [(a < b) ? b : a]. *)
Definition fmax (a b : F) : F := if fltb a b then b else a.

(** The decimal literal [n/d] of type float: [0.3f] is [float_lit 3 10], the
    float nearest to three tenths. *)
Definition float_lit (n d : Z) : F := fdiv (of_int n) (of_int d).

End FloatDerived.

(** ** Graph terms *)

Inductive DataType := DT_FLOAT | DT_INT32 | DT_INT64.

(** The outputs of a [FusedBatchNorm] node that the file reads. *)
Inductive FusedOutput := fused_y | fused_batch_mean | fused_batch_variance.

Section Terms.
Variable F : Type.

(** [Output]: a node of the graph together with its operands. The nodes that
    own a storage slot or a random stream carry the identifier the graph gave
    them when they were added, so that two of them are never confused. *)
Inductive Output : Type :=
| OpVariable (id : nat) (shape : list Z) (dtype : DataType)
| OpConstF (shape : list Z) (vals : list F)
| OpConstI (dtype : DataType) (shape : list Z) (vals : list Z)
| OpAssign (ref value : Output)
| OpAssignSub (ref value : Output)
| OpReduceMean (input axis : Output) (keep_dims : bool)
| OpStopGradient (input : Output)
| OpSquaredDifference (x y : Output)
| OpSqueeze (input : Output) (axis : list Z)
| OpMultiply (x y : Output)
| OpAdd (x y : Output)
| OpSub (x y : Output)
| OpDiv (x y : Output)
| OpRsqrt (x : Output)
| OpFloor (x : Output)
| OpNegate (x : Output)
| OpExp (x : Output)
| OpLog1p (x : Output)
| OpZerosLike (x : Output)
| OpOnesLike (x : Output)
| OpCast (x : Output) (DstT : DataType)
| OpShape (input : Output)
| OpRandomUniform (id : nat) (shape : Output) (dtype : DataType)
| OpRandomNormal (id : nat) (shape : Output) (dtype : DataType)
| OpGreaterEqual (x y : Output)
| OpSelectV2 (condition t e : Output)
| OpConv2D (input filter : Output) (strides : list Z) (padding : string)
| OpConv2DBackpropInput (input_sizes filter out_backprop : Output)
    (strides : list Z) (padding : string)
| OpFusedBatchNorm (which : FusedOutput)
    (x scale offset mean variance : Output) (epsilon : F) (is_training : bool)
| OpMatMul (a b : Output)
| OpLeakyRelu (features : Output) (alpha : F)
| OpReshape (tensor shape : Output)
| OpBroadcastTo (input shape : Output)
| OpBiasAdd (value bias : Output).

(** [Input]: what a primitive accepts as an operand, either the output of a
    node or a literal, which the primitive turns into a [Const] node. *)
Inductive Input : Type :=
| FromOutput (o : Output)
| FromInts (dtype : DataType) (vals : list Z)
| FromFloat (v : F)
| FromTensor (shape : list Z) (vals : list F).

(** A node as the graph records it. *)
Record NodeDef : Type := { node_name : option string; node_op : Output }.

(** The graph behind a [Scope]: its nodes in the order they were added, and
    the three collections the scope keeps next to them. *)
Record Graph : Type := {
  next_id : nat;
  nodes : list NodeDef;
  trainable_variables : list (Output * list Z);
  assign_ops : list Output;
  update_ops : list Output
}.

Definition empty_graph : Graph :=
  {| next_id := 0; nodes := []; trainable_variables := [];
     assign_ops := []; update_ops := [] |}.

End Terms.

Arguments OpVariable {F}.
Arguments OpConstI {F}.
Arguments FromInts {F}.
Arguments empty_graph {F}.
Coercion FromOutput : Output >-> Input.

(** [Scope]: the part of a scope that is not the shared graph. *)
Record Scope : Type := { op_name : option string }.

Definition root_scope : Scope := {| op_name := None |}.

Definition WithOpName (scope : Scope) (name : string) : Scope :=
  {| op_name := Some name |}.

(** ** The builder monad *)

Inductive Fault := IndexOutOfRange.

Inductive Result (A : Type) : Type :=
| Ok (a : A)
| Err (f : Fault).
Arguments Err {A}.

Section Monad.
Variable F : Type.

(** A builder reads and extends the graph. It faults where the C++ code
    reads a vector out of range, which is undefined there. *)
Definition M (A : Type) : Type := Graph F -> Result (A * Graph F).

Definition ret {A} (a : A) : M A := fun g => Ok (a, g).

Definition bind {A B} (c : M A) (k : A -> M B) : M B :=
  fun g =>
    match c g with
    | Ok (a, g') => k a g'
    | Err f => Err f
    end.

Definition fail {A} (f : Fault) : M A := fun _ => Err f.

Definition lift_option {A} (o : option A) : M A :=
  match o with
  | Some a => ret a
  | None => fail IndexOutOfRange
  end.

End Monad.

Arguments ret {F A}.
Arguments bind {F A B}.
Arguments fail {F A}.
Arguments lift_option {F A}.

Declare Scope builder_scope.
Delimit Scope builder_scope with builder.
Notation "x <- c ;; k" := (bind c (fun x => k))
  (at level 61, c at next level, right associativity) : builder_scope.

Local Open Scope builder_scope.

(** ** The scope's own operations *)

Section ScopeOps.
Context {F : Type}.

(** Adds a node to the graph, under the name the scope carries if any. The
    node receives the next free identifier. *)
Definition emit_fresh (scope : Scope) (mk : nat -> Output F) : M F (Output F) :=
  fun g =>
    let o := mk (next_id g) in
    Ok (o, {| next_id := S (next_id g);
              nodes := nodes g ++ [{| node_name := op_name scope; node_op := o |}];
              trainable_variables := trainable_variables g;
              assign_ops := assign_ops g;
              update_ops := update_ops g |}).

Definition emit (scope : Scope) (o : Output F) : M F (Output F) :=
  emit_fresh scope (fun _ => o).

(** Modelled from the spec: [Scope::AddTrainableVariable] belongs to this
    repository's scope class, which is not among the sources; section 6 of
    the specification gives it as [registerTrainable(variable, shape)]. *)
Definition AddTrainableVariable (scope : Scope) (v : Output F) (shape : list Z)
  : M F unit :=
  fun g =>
    Ok (tt, {| next_id := next_id g;
               nodes := nodes g;
               trainable_variables := trainable_variables g ++ [(v, shape)];
               assign_ops := assign_ops g;
               update_ops := update_ops g |}).

(** Modelled from the spec: [Scope::AddAssignOp], not among the sources;
    it collects the initial assignments. *)
Definition AddAssignOp (scope : Scope) (op : Output F) : M F unit :=
  fun g =>
    Ok (tt, {| next_id := next_id g;
               nodes := nodes g;
               trainable_variables := trainable_variables g;
               assign_ops := assign_ops g ++ [op];
               update_ops := update_ops g |}).

(** Modelled from the spec: [Scope::AddUpdateOp], not among the sources;
    section 6 of the specification gives it as [registerUpdateOp(node)],
    which collects the side-effecting ops the training step must execute. *)
Definition AddUpdateOp (scope : Scope) (op : Output F) : M F unit :=
  fun g =>
    Ok (tt, {| next_id := next_id g;
               nodes := nodes g;
               trainable_variables := trainable_variables g;
               assign_ops := assign_ops g;
               update_ops := update_ops g ++ [op] |}).

(** ** Primitive ops of the engine *)

(** Number of elements of a tensor of the given shape. *)
Definition num_elements (shape : list Z) : nat :=
  Z.to_nat (fold_right Z.mul 1%Z shape).

(** Modelled from the spec: the wrappers of the primitives ([ops::Multiply]
    and the like) are generated code of the engine, not among the sources;
    section 6 of the specification gives their interface as
    [addOp(kind, inputs, attrs)]. Each wrapper adds one node, after it has
    turned every operand given as a literal into a [Const] node of its own.
    The wrappers below always succeed: what the engine would reject is not
    modelled. *)
Definition AsNodeOut (scope : Scope) (inp : Input F) : M F (Output F) :=
  match inp with
  | FromOutput o => ret o
  | FromInts dtype vals =>
      emit root_scope (OpConstI dtype [Z.of_nat (List.length vals)] vals)
  | FromFloat v => emit root_scope (OpConstF [] [v])
  | FromTensor shape vals => emit root_scope (OpConstF shape vals)
  end.

Definition unary (mk : Output F -> Output F) (scope : Scope) (x : Input F)
  : M F (Output F) :=
  x' <- AsNodeOut scope x ;;
  emit scope (mk x').

Definition binary (mk : Output F -> Output F -> Output F) (scope : Scope)
  (x y : Input F) : M F (Output F) :=
  x' <- AsNodeOut scope x ;;
  y' <- AsNodeOut scope y ;;
  emit scope (mk x' y').

(** [Const<float>(scope, {v1, ..., vn})]: a vector of [n] floats. *)
Definition ConstFloats (scope : Scope) (vals : list F) : M F (Output F) :=
  emit scope (OpConstF [Z.of_nat (List.length vals)] vals).

(** [Const<float>(scope, v)]: a scalar. *)
Definition ConstFloat (scope : Scope) (v : F) : M F (Output F) :=
  emit scope (OpConstF [] [v]).

(** [Const<float>(scope, v, shape)]: a tensor of [shape] filled with [v]. *)
Definition ConstFill (scope : Scope) (v : F) (shape : list Z) : M F (Output F) :=
  emit scope (OpConstF shape (repeat v (num_elements shape))).

(** [Const(scope, {i1, ..., in})] on integers of type [dtype]. *)
Definition ConstInts (scope : Scope) (dtype : DataType) (vals : list Z)
  : M F (Output F) :=
  emit scope (OpConstI dtype [Z.of_nat (List.length vals)] vals).

Definition VariableOp (scope : Scope) (shape : list Z) (dtype : DataType)
  : M F (Output F) :=
  emit_fresh scope (fun id => OpVariable id shape dtype).

Definition Assign := binary (@OpAssign F).
Definition AssignSub := binary (@OpAssignSub F).
Definition StopGradient := unary (@OpStopGradient F).
Definition SquaredDifference := binary (@OpSquaredDifference F).
Definition Multiply := binary (@OpMultiply F).
Definition Add := binary (@OpAdd F).
Definition Sub := binary (@OpSub F).
Definition Div := binary (@OpDiv F).
Definition Rsqrt := unary (@OpRsqrt F).
Definition Floor := unary (@OpFloor F).
Definition Negate := unary (@OpNegate F).
Definition Exp := unary (@OpExp F).
Definition Log1p := unary (@OpLog1p F).
Definition ZerosLike := unary (@OpZerosLike F).
Definition OnesLike := unary (@OpOnesLike F).
Definition Shape := unary (@OpShape F).
Definition GreaterEqual := binary (@OpGreaterEqual F).
Definition MatMul := binary (@OpMatMul F).
Definition Reshape := binary (@OpReshape F).
Definition BroadcastTo := binary (@OpBroadcastTo F).
Definition BiasAdd := binary (@OpBiasAdd F).

Definition Cast (scope : Scope) (x : Input F) (DstT : DataType) : M F (Output F) :=
  unary (fun x' => OpCast x' DstT) scope x.

Definition ReduceMean (scope : Scope) (input axis : Input F) (keep_dims : bool)
  : M F (Output F) :=
  binary (fun i a => OpReduceMean i a keep_dims) scope input axis.

Definition Squeeze (scope : Scope) (input : Input F) (axis : list Z)
  : M F (Output F) :=
  unary (fun i => OpSqueeze i axis) scope input.

Definition SelectV2 (scope : Scope) (condition t e : Input F) : M F (Output F) :=
  c' <- AsNodeOut scope condition ;;
  t' <- AsNodeOut scope t ;;
  e' <- AsNodeOut scope e ;;
  emit scope (OpSelectV2 c' t' e').

Definition RandomUniform (scope : Scope) (shape : Input F) (dtype : DataType)
  : M F (Output F) :=
  shape' <- AsNodeOut scope shape ;;
  emit_fresh scope (fun id => OpRandomUniform id shape' dtype).

Definition RandomNormal (scope : Scope) (shape : Input F) (dtype : DataType)
  : M F (Output F) :=
  shape' <- AsNodeOut scope shape ;;
  emit_fresh scope (fun id => OpRandomNormal id shape' dtype).

Definition LeakyRelu (scope : Scope) (features : Input F) (alpha : F)
  : M F (Output F) :=
  unary (fun x => OpLeakyRelu x alpha) scope features.

Definition Conv2D (scope : Scope) (input filter : Input F) (strides : list Z)
  (padding : string) : M F (Output F) :=
  binary (fun i f => OpConv2D i f strides padding) scope input filter.

Definition Conv2DBackpropInput (scope : Scope)
  (input_sizes filter out_backprop : Input F) (strides : list Z)
  (padding : string) : M F (Output F) :=
  s' <- AsNodeOut scope input_sizes ;;
  f' <- AsNodeOut scope filter ;;
  o' <- AsNodeOut scope out_backprop ;;
  emit scope (OpConv2DBackpropInput s' f' o' strides padding).

(** [FusedBatchNorm::Attrs]. Modelled from the spec: the attribute class is
    generated code that is not among the sources; a [FusedBatchNorm] built
    without [IsTraining(false)] is in training mode (section 4.4). *)
Record FusedBatchNormAttrs : Type := {
  epsilon_ : F;
  is_training_ : bool
}.

Definition Epsilon (x : F) : FusedBatchNormAttrs :=
  {| epsilon_ := x; is_training_ := true |}.

Definition IsTraining (attrs : FusedBatchNormAttrs) (x : bool)
  : FusedBatchNormAttrs :=
  {| epsilon_ := epsilon_ attrs; is_training_ := x |}.

(** The outputs of the one [FusedBatchNorm] node. *)
Record FusedBatchNormT : Type := {
  y : Output F;
  batch_mean : Output F;
  batch_variance : Output F
}.

Definition FusedBatchNorm (scope : Scope) (x scale offset mean variance : Input F)
  (attrs : FusedBatchNormAttrs) : M F FusedBatchNormT :=
  x' <- AsNodeOut scope x ;;
  scale' <- AsNodeOut scope scale ;;
  offset' <- AsNodeOut scope offset ;;
  mean' <- AsNodeOut scope mean ;;
  variance' <- AsNodeOut scope variance ;;
  let out which :=
    OpFusedBatchNorm which x' scale' offset' mean' variance'
      (epsilon_ attrs) (is_training_ attrs) in
  _ <- emit scope (out fused_y) ;;
  ret {| y := out fused_y;
         batch_mean := out fused_batch_mean;
         batch_variance := out fused_batch_variance |}.

End ScopeOps.

(** ** Constants of the headers

    [nn_ops_rkz.h] and [util.h] define these; they are not among the
    sources, so they are parameters of the development. *)

Class Constants (F : Type) : Type := {
  NOISE_DIM : Z;
  UNITS : Z;
  NUM_CHANNELS : Z;
  IMAGE_SIZE : Z;
  MOMENTUM : F
}.

(** ** Order of evaluation

    The last statement of [SigmoidCrossEntropyWithLogits] passes two calls
    as operands to [Add], [Sub(.., Multiply(..))] and [Log1p(Exp(..))]. C++
    evaluates the operand of a call before the call, and leaves open how the
    evaluations of two operands of one call are ordered or interleaved: the
    four calls run in one of the six orders that put [Multiply] before [Sub]
    and [Exp] before [Log1p]. Which one is the compiler's choice. *)

Inductive Interleaving :=
| MultiplySubExpLog1p
| MultiplyExpSubLog1p
| MultiplyExpLog1pSub
| ExpMultiplySubLog1p
| ExpMultiplyLog1pSub
| ExpLog1pMultiplySub.

(** ** Variables and assignments *)

Section Layers.
Context {F : Type} {FO : FloatOps F}.

(** [TFVariable::TFVariable] *)
Definition TFVariable (scope : Scope) (shape : list Z) (dtype : DataType)
  (trainable : bool) : M F (Output F) :=
  output <- VariableOp scope shape dtype ;;
  _ <- (if trainable then AddTrainableVariable scope output shape else ret tt) ;;
  ret output.

(** [TFAssign::TFAssign] *)
Definition TFAssign (scope : Scope) (ref value : Input F) : M F (Output F) :=
  output <- Assign scope ref value ;;
  _ <- AddAssignOp scope output ;;
  ret output.

(** ** Moments *)

Record MomentsT : Type := { mean : Output F; variance : Output F }.

(** [Moments::Moments] *)
Definition Moments (scope : Scope) (x : Input F) (axes : list Z)
  (keep_dims : bool) : M F MomentsT :=
  m <- ReduceMean scope x (FromInts DT_INT32 axes) true ;;
  sg <- StopGradient scope m ;;
  sd <- SquaredDifference scope x sg ;;
  v <- ReduceMean scope sd (FromInts DT_INT32 axes) true ;;
  if keep_dims then
    ret {| mean := m; variance := v |}
  else
    m' <- Squeeze scope m axes ;;
    v' <- Squeeze scope v axes ;;
    ret {| mean := m'; variance := v' |}.

(** ** Batch normalization *)

(** [BatchNormalization::BatchNormalization] *)
Definition BatchNormalization (scope : Scope)
  (x mean variance offset scale variance_epsilon : Input F) : M F (Output F) :=
  a <- Add scope variance variance_epsilon ;;
  r <- Rsqrt scope a ;;
  inv <- Multiply scope r scale ;;
  c1 <- Cast scope inv DT_FLOAT ;;
  tmp1 <- Multiply scope x c1 ;;
  tmp2 <- Multiply scope mean inv ;;
  s <- Sub scope offset tmp2 ;;
  c2 <- Cast scope s DT_FLOAT ;;
  Add scope tmp1 c2.

(** ** Dropout *)

(** [Dropout::Dropout]. The parameter [rate] has type [const int]. *)
Definition Dropout (scope : Scope) (x : Input F) (rate : Z) : M F (Output F) :=
  let keep_prob : F := of_int (int_sub 1 rate) in
  sh <- Shape scope x ;;
  random_value5 <- RandomUniform scope sh DT_FLOAT ;;
  k1 <- ConstFloats scope [keep_prob] ;;
  random_tensor <- Add scope random_value5 k1 ;;
  binary_tensor <- Floor scope random_tensor ;;
  k2 <- ConstFloats scope [keep_prob] ;;
  d <- Div scope x k2 ;;
  Multiply scope d binary_tensor.

(** ** Sigmoid cross entropy *)

(** [SigmoidCrossEntropyWithLogits::SigmoidCrossEntropyWithLogits]. The
    parameter [order] is the order in which the compiled constructor runs
    the four calls nested in the operands of the last [Add]; it is no
    parameter of the C++ constructor. *)
Definition SigmoidCrossEntropyWithLogits (order : Interleaving) (scope : Scope)
  (labels logits : Input F) : M F (Output F) :=
  zeros <- ZerosLike scope logits ;;
  cond <- GreaterEqual scope logits zeros ;;
  relu_logits <- SelectV2 scope cond logits zeros ;;
  n <- Negate scope logits ;;
  neg_abs_logits <- SelectV2 scope cond n logits ;;
  let multiply := Multiply scope logits labels in
  let sub m := Sub scope relu_logits m in
  let exponential := Exp scope neg_abs_logits in
  let log1p e := Log1p scope e in
  operands <-
    match order with
    | MultiplySubExpLog1p =>
        m <- multiply ;; s <- sub m ;; e <- exponential ;; l <- log1p e ;; ret (s, l)
    | MultiplyExpSubLog1p =>
        m <- multiply ;; e <- exponential ;; s <- sub m ;; l <- log1p e ;; ret (s, l)
    | MultiplyExpLog1pSub =>
        m <- multiply ;; e <- exponential ;; l <- log1p e ;; s <- sub m ;; ret (s, l)
    | ExpMultiplySubLog1p =>
        e <- exponential ;; m <- multiply ;; s <- sub m ;; l <- log1p e ;; ret (s, l)
    | ExpMultiplyLog1pSub =>
        e <- exponential ;; m <- multiply ;; l <- log1p e ;; s <- sub m ;; ret (s, l)
    | ExpLog1pMultiplySub =>
        e <- exponential ;; l <- log1p e ;; m <- multiply ;; s <- sub m ;; ret (s, l)
    end ;;
  Add scope (fst operands) (snd operands).

(** ** Glorot uniform initializer *)

(** [float scale = 1.0f / std::max(1.0f, (fan_in + fan_out) / 2.0f)] *)
Definition glorot_scale (fan_in fan_out : F) : F :=
  fdiv (of_int 1) (fmax (of_int 1) (fdiv (fadd fan_in fan_out) (of_int 2))).

(** [float limit = std::sqrt(3.0f * scale)] *)
Definition glorot_limit (fan_in fan_out : F) : F :=
  fsqrt (fmul (of_int 3) (glorot_scale fan_in fan_out)).

(** The two fans as the constructor computes them: [shape_vec[0]] and
    [shape_vec[1]] are read whatever the rank, and overwritten when the rank
    is 4. Reading [shape_vec] out of range is a fault. *)
Definition glorot_fans (shape_vec : list Z) : option (F * F) :=
  match nth_error shape_vec 0, nth_error shape_vec 1 with
  | Some s0, Some s1 =>
      let fan_in := of_int s0 in
      let fan_out := of_int s1 in
      if Nat.eqb (List.length shape_vec) 4 then
        match nth_error shape_vec 2, nth_error shape_vec 3 with
        | Some s2, Some s3 =>
            let receptive_field_size :=
              fmul (fmul (of_int 1) (of_int s0)) (of_int s1) in
            Some (fmul receptive_field_size (of_int s2),
                  fmul receptive_field_size (of_int s3))
        | _, _ => None
        end
      else Some (fan_in, fan_out)
  | _, _ => None
  end.

(** [GlorotUniform::GlorotUniform]. The operands of the last [Add] are
    [Multiply(.., Const(maxval - minval))] and [Const(minval)]; C++ leaves
    open whether [Const(minval)] is added before, between or after the two
    nodes of the product. The order taken here is the one of the text: the
    term returned, the identifiers, and what is registered do not depend on
    it, and no statement below is about the order of these three nodes. *)
Definition GlorotUniform (scope : Scope) (shape : list Z) : M F (Output F) :=
  k <- ConstInts scope DT_INT64 shape ;;
  random_value <- RandomUniform scope k DT_FLOAT ;;
  fans <- lift_option (glorot_fans shape) ;;
  let limit := glorot_limit (fst fans) (snd fans) in
  let maxval := limit in
  let minval := fopp limit in
  k1 <- ConstFloat scope (fsub maxval minval) ;;
  m <- Multiply scope random_value k1 ;;
  k2 <- ConstFloat scope minval ;;
  Add scope m k2.

(** ** Transposed convolution *)

(** [Conv2DTranspose::Conv2DTranspose] *)
Definition Conv2DTranspose (scope : Scope)
  (input_sizes filter out_backprop : Input F) (strides : list Z)
  (padding : string) : M F (Output F) :=
  Conv2DBackpropInput scope input_sizes filter out_backprop strides padding.

End Layers.

(** ** The reference normalization layer *)

Module TFBatchNormalization.
Section Def.
Context {F : Type} {FO : FloatOps F} {K : Constants F}.

Record t : Type := {
  moving_mean : Output F;
  moving_variance : Output F;
  gamma : Output F;
  beta : Output F
}.

(** [TFBatchNormalization::TFBatchNormalization] *)
Definition new (scope : Scope) (shape : list Z) : M F t :=
  moving_mean <- VariableOp scope shape DT_FLOAT ;;
  z1 <- ZerosLike scope moving_mean ;;
  _ <- TFAssign scope moving_mean z1 ;;
  moving_variance <- VariableOp scope shape DT_FLOAT ;;
  z2 <- ZerosLike scope moving_variance ;;
  _ <- TFAssign scope moving_variance z2 ;;
  gamma <- TFVariable (WithOpName scope "gamma") shape DT_FLOAT true ;;
  o <- OnesLike scope gamma ;;
  _ <- TFAssign scope gamma o ;;
  beta <- TFVariable (WithOpName scope "beta") shape DT_FLOAT true ;;
  z3 <- ZerosLike scope beta ;;
  _ <- TFAssign scope beta z3 ;;
  ret {| moving_mean := moving_mean; moving_variance := moving_variance;
         gamma := gamma; beta := beta |}.

(** [TFBatchNormalization::Build] *)
Definition Build (this : t) (scope : Scope) (x : Input F) (axes : list Z)
  (variance_epsilon : Input F) (training : bool) : M F (Output F) :=
  mv <- (if training then
           moments <- Moments scope x axes false ;;
           let mean := mean moments in
           let variance := variance moments in
           decay <- ConstFill scope (fsub (of_int 1) MOMENTUM) [] ;;
           s1 <- Sub scope (moving_mean this) mean ;;
           update_delta1 <- Multiply scope s1 decay ;;
           update_moving_mean <-
             AssignSub (WithOpName scope "update_moving_mean")
               (moving_mean this) update_delta1 ;;
           _ <- AddUpdateOp scope update_moving_mean ;;
           s2 <- Sub scope (moving_variance this) variance ;;
           update_delta2 <- Multiply scope s2 decay ;;
           update_moving_variance <-
             AssignSub (WithOpName scope "update_moving_variance")
               (moving_variance this) update_delta2 ;;
           _ <- AddUpdateOp scope update_moving_variance ;;
           ret (mean, variance)
         else
           ret (moving_mean this, moving_variance this)) ;;
  BatchNormalization scope x (fst mv) (snd mv) (beta this) (gamma this)
    variance_epsilon.

End Def.
End TFBatchNormalization.

(** ** The fused normalization layer *)

Module TFFusedBatchNorm.
Section Def.
Context {F : Type} {FO : FloatOps F} {K : Constants F}.

Record t : Type := {
  moving_mean : Output F;
  moving_variance : Output F;
  gamma : Output F;
  beta : Output F
}.

(** [TFFusedBatchNorm::TFFusedBatchNorm] *)
Definition new (scope : Scope) (shape : list Z) : M F t :=
  moving_mean <- VariableOp scope shape DT_FLOAT ;;
  z1 <- ZerosLike scope moving_mean ;;
  _ <- TFAssign scope moving_mean z1 ;;
  moving_variance <- VariableOp scope shape DT_FLOAT ;;
  z2 <- ZerosLike scope moving_variance ;;
  _ <- TFAssign scope moving_variance z2 ;;
  gamma <- TFVariable (WithOpName scope "fused_gamma") shape DT_FLOAT true ;;
  o <- OnesLike scope gamma ;;
  _ <- TFAssign scope gamma o ;;
  beta <- TFVariable (WithOpName scope "fused_beta") shape DT_FLOAT true ;;
  z3 <- ZerosLike scope beta ;;
  _ <- TFAssign scope beta z3 ;;
  ret {| moving_mean := moving_mean; moving_variance := moving_variance;
         gamma := gamma; beta := beta |}.

(** [TFFusedBatchNorm::Build] *)
Definition Build (this : t) (scope : Scope) (x : Input F) (variance_epsilon : F)
  (training : bool) : M F (Output F) :=
  if training then
    mean <- ConstFloats scope [] ;;
    variance <- ConstFloats scope [] ;;
    fused_batch_norm <-
      FusedBatchNorm scope x (gamma this) (beta this) mean variance
        (Epsilon variance_epsilon) ;;
    decay <- ConstFill scope (fsub (of_int 1) MOMENTUM) [] ;;
    s1 <- Sub scope (moving_mean this) (batch_mean fused_batch_norm) ;;
    update_delta1 <- Multiply scope s1 decay ;;
    update_moving_mean <-
      AssignSub (WithOpName scope "fused_update_moving_mean")
        (moving_mean this) update_delta1 ;;
    _ <- AddUpdateOp scope update_moving_mean ;;
    s2 <- Sub scope (moving_variance this) (batch_variance fused_batch_norm) ;;
    update_delta2 <- Multiply scope s2 decay ;;
    update_moving_variance <-
      AssignSub (WithOpName scope "fused_update_moving_variance")
        (moving_variance this) update_delta2 ;;
    _ <- AddUpdateOp scope update_moving_variance ;;
    ret (y fused_batch_norm)
  else
    let mean := moving_mean this in
    let variance := moving_variance this in
    fused_batch_norm <-
      FusedBatchNorm scope x (gamma this) (beta this) mean variance
        (IsTraining (Epsilon variance_epsilon) false) ;;
    ret (y fused_batch_norm).

End Def.
End TFFusedBatchNorm.

(** ** Generator *)

Module Generator.
Section Def.
Context {F : Type} {FO : FloatOps F} {K : Constants F}.

Record t : Type := {
  w1 : Output F;
  filter : Output F;
  filter2 : Output F;
  filter3 : Output F;
  batchnorm_op : TFBatchNormalization.t (F := F);
  batchnorm1_op : TFFusedBatchNorm.t (F := F);
  batchnorm2_op : TFFusedBatchNorm.t (F := F)
}.

(** [Generator::Generator] *)
Definition new (scope : Scope) : M F t :=
  w1 <- TFVariable (WithOpName scope "weight") [NOISE_DIM; UNITS] DT_FLOAT true ;;
  rate <- ConstFloats scope [float_lit 1 100] ;;
  random_value <-
    RandomNormal scope (FromInts DT_INT32 [NOISE_DIM; UNITS]) DT_FLOAT ;;
  m <- Multiply scope random_value rate ;;
  _ <- TFAssign scope w1 m ;;
  filter <- TFVariable (WithOpName scope "filter") [5; 5; 128; 256]%Z DT_FLOAT true ;;
  random_value1 <- GlorotUniform scope [5; 5; 128; 256]%Z ;;
  _ <- TFAssign scope filter random_value1 ;;
  filter2 <- TFVariable (WithOpName scope "filter2") [5; 5; 64; 128]%Z DT_FLOAT true ;;
  random_value2 <- GlorotUniform scope [5; 5; 64; 128]%Z ;;
  _ <- TFAssign scope filter2 random_value2 ;;
  filter3 <-
    TFVariable (WithOpName scope "filter3") [5; 5; NUM_CHANNELS; 64]%Z DT_FLOAT true ;;
  random_value3 <- GlorotUniform scope [5; 5; NUM_CHANNELS; 64]%Z ;;
  _ <- TFAssign scope filter3 random_value3 ;;
  batchnorm_op <- TFBatchNormalization.new scope [UNITS] ;;
  batchnorm1_op <- TFFusedBatchNorm.new scope [128]%Z ;;
  batchnorm2_op <- TFFusedBatchNorm.new scope [64]%Z ;;
  ret {| w1 := w1; filter := filter; filter2 := filter2; filter3 := filter3;
         batchnorm_op := batchnorm_op; batchnorm1_op := batchnorm1_op;
         batchnorm2_op := batchnorm2_op |}.

(** [Generator::Build] *)
Definition Build (this : t) (scope : Scope) (batch_size : Z) (training : bool)
  : M F (Output F) :=
  noise <-
    RandomNormal scope (FromInts DT_INT32 [batch_size; NOISE_DIM]) DT_FLOAT ;;
  dense <- MatMul scope noise (w1 this) ;;
  variance_epsilon <- ConstFloats scope [float_lit 1 1000] ;;
  batchnorm <-
    TFBatchNormalization.Build (batchnorm_op this) scope dense [0%Z]
      variance_epsilon training ;;
  leakyrelu <- LeakyRelu scope batchnorm (float_lit 3 10) ;;
  reshape1 <-
    Reshape scope leakyrelu (FromInts DT_INT32 [batch_size; 7; 7; 256]%Z) ;;
  input_sizes <- ConstInts scope DT_INT32 [batch_size; 7; 7; 128]%Z ;;
  deconv1 <-
    Conv2DTranspose scope input_sizes (filter this) reshape1 [1; 1; 1; 1]%Z
      "SAME" ;;
  batchnorm1 <-
    TFFusedBatchNorm.Build (batchnorm1_op this) scope deconv1 (float_lit 1 1000)
      training ;;
  leakyrelu1 <- LeakyRelu scope batchnorm1 (float_lit 3 10) ;;
  input_sizes2 <- ConstInts scope DT_INT32 [batch_size; 14; 14; 64]%Z ;;
  deconv2 <-
    Conv2DTranspose scope input_sizes2 (filter2 this) leakyrelu1 [1; 2; 2; 1]%Z
      "SAME" ;;
  offset2 <- BroadcastTo scope (FromFloat (of_int 0)) (FromInts DT_INT32 [64%Z]) ;;
  scale2 <- BroadcastTo scope (FromFloat (of_int 1)) (FromInts DT_INT32 [64%Z]) ;;
  batchnorm2 <-
    TFFusedBatchNorm.Build (batchnorm2_op this) scope deconv2 (float_lit 1 1000)
      training ;;
  leakyrelu2 <- LeakyRelu scope batchnorm2 (float_lit 3 10) ;;
  input_sizes3 <- ConstInts scope DT_INT32 [batch_size; 28; 28; NUM_CHANNELS]%Z ;;
  Conv2DTranspose (WithOpName scope "generator") input_sizes3 (filter3 this)
    leakyrelu2 [1; 2; 2; 1]%Z "SAME".

End Def.
End Generator.

(** ** The [double] of the flattened size

    IEEE-754 binary64, the format of the C++ [double], for the one
    computation the file makes in it. *)

Module Binary64.

Definition prec : Z := 53.
Definition emax : Z := 1024.

Definition float64 : Type := spec_float.

(** [int] to [double]: every [int] is a [double]. *)
Definition f64_of_int (z : Z) : float64 := binary_normalize prec emax z 0 false.

Definition f64_mul : float64 -> float64 -> float64 := SFmul prec emax.

(** [std::pow(x, 2)]: the square, rounded to the nearest [double]. Where
    the square of an [int] is not a [double] the library may return the
    other neighbour of it; such a square exceeds [2^53]. *)
Definition f64_pow2 (x : float64) : float64 := f64_mul x x.

(** [double] to [int], as the assignment to an [int] converts: the
    fractional part is discarded. Where the result is out of the range of
    [int], or the [double] is no number, the conversion is undefined in
    C++; the conversion instruction of x86-64 then gives [INT_MIN], which is
    the value taken here. *)
Definition f64_to_int (f : float64) : Z :=
  match f with
  | S754_zero _ => 0%Z
  | S754_finite s m e =>
      let z := cond_Zopp s (Z.shiftl (Zpos m) e) in
      if ((- 2 ^ 31 <=? z) && (z <? 2 ^ 31))%Z then z else (- 2 ^ 31)%Z
  | _ => (- 2 ^ 31)%Z
  end.

End Binary64.

(** ** Discriminator *)

Module Discriminator.
Section Def.
Context {F : Type} {FO : FloatOps F} {K : Constants F}.

Record t : Type := {
  conv1_weights : Output F;
  conv1_biases : Output F;
  conv2_weights : Output F;
  conv2_biases : Output F;
  fc1_weights : Output F;
  fc1_biases : Output F
}.

(** [int s1 = IMAGE_SIZE; s1 = s1 / 4; s1 = std::pow(s1, 2) * 128;] The
    quotient is computed on [int]; the square and the product by 128 are
    computed in [double], and the assignment converts the product to
    [int]. The header constant [IMAGE_SIZE] is taken to be an [int]. *)
Definition flattened_size : Z :=
  let s1 := IMAGE_SIZE in
  let s1 := int_div s1 4 in
  let s1 :=
    Binary64.f64_to_int
      (Binary64.f64_mul (Binary64.f64_pow2 (Binary64.f64_of_int s1))
         (Binary64.f64_of_int 128)) in
  s1.

(** [Discriminator::Discriminator] *)
Definition new (scope : Scope) : M F t :=
  conv1_weights <-
    TFVariable (WithOpName scope "conv1_weights") [5; 5; NUM_CHANNELS; 64]%Z
      DT_FLOAT true ;;
  random_value <- GlorotUniform scope [5; 5; NUM_CHANNELS; 64]%Z ;;
  _ <- TFAssign scope conv1_weights random_value ;;
  conv1_biases <- TFVariable (WithOpName scope "conv1_biases") [64%Z] DT_FLOAT true ;;
  _ <- TFAssign scope conv1_biases
         (FromTensor [64%Z] (repeat (of_int 0) 64)) ;;
  conv2_weights <-
    TFVariable (WithOpName scope "conv2_weights") [5; 5; 64; 128]%Z DT_FLOAT true ;;
  random_value2 <- GlorotUniform scope [5; 5; 64; 128]%Z ;;
  _ <- TFAssign scope conv2_weights random_value2 ;;
  conv2_biases <- TFVariable (WithOpName scope "conv2_biases") [128%Z] DT_FLOAT true ;;
  k <- ConstFill scope (of_int 0) [128%Z] ;;
  _ <- TFAssign scope conv2_biases k ;;
  let s1 := flattened_size in
  fc1_weights <- TFVariable (WithOpName scope "fc1_weights") [s1; 1%Z] DT_FLOAT true ;;
  random_value3 <- GlorotUniform scope [s1; 1%Z] ;;
  _ <- TFAssign scope fc1_weights random_value3 ;;
  fc1_biases <- TFVariable (WithOpName scope "fc1_biases") [1%Z] DT_FLOAT true ;;
  k' <- ConstFill scope (of_int 0) [1%Z] ;;
  _ <- TFAssign scope fc1_biases k' ;;
  ret {| conv1_weights := conv1_weights; conv1_biases := conv1_biases;
         conv2_weights := conv2_weights; conv2_biases := conv2_biases;
         fc1_weights := fc1_weights; fc1_biases := fc1_biases |}.

(** [Discriminator::Build]. Both calls of [Dropout] pass the literal [0.3f]
    where the parameter is an [int]: the float is converted. *)
Definition Build (this : t) (scope : Scope) (inputs : Input F) (batch_size : Z)
  : M F (Output F) :=
  conv2d_1 <- Conv2D scope inputs (conv1_weights this) [1; 2; 2; 1]%Z "SAME" ;;
  b1 <- BiasAdd scope conv2d_1 (conv1_biases this) ;;
  relu_1 <- LeakyRelu scope b1 (float_lit 3 10) ;;
  dropout_1 <- Dropout scope relu_1 (to_int (float_lit 3 10 : F)) ;;
  conv2d_2 <- Conv2D scope dropout_1 (conv2_weights this) [1; 2; 2; 1]%Z "SAME" ;;
  b2 <- BiasAdd scope conv2d_2 (conv2_biases this) ;;
  relu_2 <- LeakyRelu scope b2 (float_lit 3 10) ;;
  dropout_2 <- Dropout scope relu_2 (to_int (float_lit 3 10 : F)) ;;
  let s1 := flattened_size in
  reshape1 <- Reshape scope dropout_2 (FromInts DT_INT32 [batch_size; s1]) ;;
  m <- MatMul scope reshape1 (fc1_weights this) ;;
  BiasAdd (WithOpName scope "discriminator") m (fc1_biases this).

End Def.
End Discriminator.

(** ** Two models of [float] *)

(** IEEE-754 binary32, the format of the C++ [float]: 24 bits of precision,
    round to nearest even, computed by the standard library's [SpecFloat]. *)
Module Binary32.

Definition prec : Z := 24.
Definition emax : Z := 128.

Definition float32 : Type := spec_float.

(** Integer to float: the nearest float. *)
Definition f32_of_int (z : Z) : float32 := binary_normalize prec emax z 0 false.

(** Float to [int]: the fractional part is discarded. The conversion of a
    NaN, of an infinity or of a value out of the range of [int] is undefined
    in C++; the model gives [0] for the first two. *)
Definition f32_to_int (f : float32) : Z :=
  match f with
  | S754_finite s m e => cond_Zopp s (Z.shiftl (Zpos m) e)
  | _ => 0%Z
  end.

Definition f32_toR (f : float32) : R :=
  match f with
  | S754_finite s m e => (IZR (cond_Zopp s (Zpos m)) * powerRZ 2 e)%R
  | _ => 0%R
  end.

(** The floats that [SpecFloat] calls valid: mantissa and exponent in
    canonical form. Every float that an operation returns is of this kind. *)
Definition well_formed (f : float32) : Prop := valid_binary prec emax f = true.

#[global] Instance binary32_ops : FloatOps float32 := {
  fadd := SFadd prec emax;
  fsub := SFsub prec emax;
  fmul := SFmul prec emax;
  fdiv := SFdiv prec emax;
  fopp := SFopp;
  fsqrt := SFsqrt prec emax;
  fltb := SFltb;
  of_int := f32_of_int;
  to_int := f32_to_int;
  toR := f32_toR
}.

End Binary32.

(** The real numbers: arithmetic without rounding. *)
Module Exact.

Definition Rltb (a b : R) : bool := if Rlt_dec a b then true else false.

(** Truncation toward zero. *)
Definition Rtrunc (r : R) : Z :=
  if Rle_dec 0 r then Int_part r else (- Int_part (- r))%Z.

#[global] Instance exact_ops : FloatOps R := {
  fadd := Rplus;
  fsub := Rminus;
  fmul := Rmult;
  fdiv := Rdiv;
  fopp := Ropp;
  fsqrt := sqrt;
  fltb := Rltb;
  of_int := IZR;
  to_int := Rtrunc;
  toR := fun r => r
}.

End Exact.

(** ** Tensors and the meaning of nodes

    Modelled from the spec: the kernels of the primitives belong to the
    tensor engine, which is not among the sources (section 6, numeric
    primitives). A tensor is its list of dimensions and its elements, read by
    index; element arithmetic is the arithmetic of the real numbers. *)

Module Semantics.

Local Open Scope R_scope.

Record Tensor : Type := { dims : list nat; elem : list nat -> R }.

(** An index addresses an element when it has one component under each
    dimension. *)
Definition valid_index (ds i : list nat) : Prop := Forall2 lt i ds.

Definition tensor_eq (a b : Tensor) : Prop :=
  dims a = dims b /\ forall i, valid_index (dims a) i -> elem a i = elem b i.

(** *** Elementwise operations with broadcasting *)

Definition pad (n : nat) (ds : list nat) : list nat := repeat 1%nat n ++ ds.

Fixpoint broadcast_aligned (a b : list nat) : list nat :=
  match a, b with
  | x :: a', y :: b' => (if Nat.eqb x 1 then y else x) :: broadcast_aligned a' b'
  | _, _ => []
  end.

(** The shorter list of dimensions is extended with ones on the left; a
    dimension of one stretches to the other operand's. *)
Definition broadcast_dims (a b : list nat) : list nat :=
  broadcast_aligned (pad (List.length b - List.length a) a)
                    (pad (List.length a - List.length b) b).

(** The index of the operand's element that position [i] of the result
    reads. *)
Definition broadcast_index (ds i : list nat) : list nat :=
  map (fun dk => if Nat.eqb (fst dk) 1 then 0%nat else snd dk)
      (combine ds (skipn (List.length i - List.length ds) i)).

Definition broadcast2 (f : R -> R -> R) (a b : Tensor) : Tensor :=
  {| dims := broadcast_dims (dims a) (dims b);
     elem := fun i => f (elem a (broadcast_index (dims a) i))
                        (elem b (broadcast_index (dims b) i)) |}.

Definition map_tensor (f : R -> R) (a : Tensor) : Tensor :=
  {| dims := dims a; elem := fun i => f (elem a i) |}.

(** *** Constants *)

(** Position of an element in row-major order. *)
Definition offset (ds i : list nat) : nat :=
  fold_left (fun acc dk => (acc * fst dk + snd dk)%nat) (combine ds i) 0%nat.

Definition const_tensor (shape : list Z) (vals : list R) : Tensor :=
  {| dims := map Z.to_nat shape;
     elem := fun i => nth (offset (map Z.to_nat shape) i) vals 0 |}.

(** *** Reductions *)

(** A negative axis counts from the last dimension. *)
Definition normal_axis (rank : nat) (a : Z) : Z :=
  if (a <? 0)%Z then (a + Z.of_nat rank)%Z else a.

(** For each position, whether it is one of the axes. *)
Definition axis_mask (rank : nat) (axes : list Z) : list bool :=
  map (fun pos => existsb (fun a => (normal_axis rank a =? Z.of_nat pos)%Z) axes)
      (seq 0 rank).

Fixpoint sum_upto (n : nat) (f : nat -> R) : R :=
  match n with
  | O => 0
  | S k => sum_upto k f + f k
  end.

(** Sum of [f] over the indices that agree with [i] outside the mask and
    range over the whole dimension inside it. *)
Fixpoint sum_over (mask : list bool) (ds i : list nat) (f : list nat -> R) : R :=
  match mask, ds, i with
  | r :: mask', d :: ds', k :: i' =>
      if r then sum_upto d (fun j => sum_over mask' ds' i' (fun rest => f (j :: rest)))
      else sum_over mask' ds' i' (fun rest => f (k :: rest))
  | _, _, _ => f []
  end.

Fixpoint reduced_count (mask : list bool) (ds : list nat) : nat :=
  match mask, ds with
  | r :: mask', d :: ds' =>
      if r then (d * reduced_count mask' ds')%nat else reduced_count mask' ds'
  | _, _ => 1%nat
  end.

Fixpoint kept_dims (mask : list bool) (ds : list nat) : list nat :=
  match mask, ds with
  | r :: mask', d :: ds' => (if r then 1%nat else d) :: kept_dims mask' ds'
  | _, _ => []
  end.

Fixpoint drop_masked (mask : list bool) (ds : list nat) : list nat :=
  match mask, ds with
  | r :: mask', d :: ds' =>
      if r then drop_masked mask' ds' else d :: drop_masked mask' ds'
  | _, _ => []
  end.

(** Puts a zero back at every masked position. *)
Fixpoint expand_index (mask : list bool) (i : list nat) : list nat :=
  match mask with
  | [] => []
  | true :: mask' => 0%nat :: expand_index mask' i
  | false :: mask' =>
      match i with
      | k :: i' => k :: expand_index mask' i'
      | [] => []
      end
  end.

Definition drop_dims (mask : list bool) (t : Tensor) : Tensor :=
  {| dims := drop_masked mask (dims t);
     elem := fun i => elem t (expand_index mask i) |}.

(** Mean along [axes]; the reduced dimensions stay, with length one, when
    [keep_dims] holds and are removed otherwise. *)
Definition reduce_mean (t : Tensor) (axes : list Z) (keep_dims : bool) : Tensor :=
  let mask := axis_mask (List.length (dims t)) axes in
  let kept :=
    {| dims := kept_dims mask (dims t);
       elem := fun i => sum_over mask (dims t) i (elem t)
                        / INR (reduced_count mask (dims t)) |} in
  if keep_dims then kept else drop_dims mask kept.

(** Removes the dimensions listed in [axes]; with no axis listed, every
    dimension of length one. *)
Definition squeeze (t : Tensor) (axes : list Z) : Tensor :=
  let mask :=
    match axes with
    | [] => map (fun d => Nat.eqb d 1) (dims t)
    | _ => axis_mask (List.length (dims t)) axes
    end in
  drop_dims mask t.

Definition Rfloor (r : R) : R := IZR (Int_part r).

Definition shape_tensor (t : Tensor) : Tensor :=
  {| dims := [List.length (dims t)];
     elem := fun i => INR (nth (hd 0%nat i) (dims t) 0%nat) |}.

Section Eval.
Context {F : Type} {FO : FloatOps F}.

(** Modelled from the spec: the kernels are not among the sources. The value
    of a node, with the elementwise operations, the reductions and the
    squeeze of section 6 read on real numbers; [StopGradient] and a cast to
    float leave the value as it is. What the nodes without a rule below hold
    (variables, random draws, convolutions and so on) is given by [env]. *)
Fixpoint eval (env : Output F -> Tensor) (o : Output F) : Tensor :=
  match o with
  | OpConstF shape vals => const_tensor shape (map toR vals)
  | OpConstI _ shape vals => const_tensor shape (map IZR vals)
  | OpStopGradient x => eval env x
  | OpCast x DT_FLOAT => eval env x
  | OpReduceMean x (OpConstI _ _ axes) keep_dims =>
      reduce_mean (eval env x) axes keep_dims
  | OpSquaredDifference x y =>
      broadcast2 (fun a b => (a - b) * (a - b)) (eval env x) (eval env y)
  | OpSqueeze x axes => squeeze (eval env x) axes
  | OpMultiply x y => broadcast2 Rmult (eval env x) (eval env y)
  | OpAdd x y => broadcast2 Rplus (eval env x) (eval env y)
  | OpSub x y => broadcast2 Rminus (eval env x) (eval env y)
  | OpDiv x y => broadcast2 Rdiv (eval env x) (eval env y)
  | OpRsqrt x => map_tensor (fun r => / sqrt r) (eval env x)
  | OpFloor x => map_tensor Rfloor (eval env x)
  | OpNegate x => map_tensor Ropp (eval env x)
  | OpExp x => map_tensor exp (eval env x)
  | OpLog1p x => map_tensor (fun r => ln (1 + r)) (eval env x)
  | OpZerosLike x => map_tensor (fun _ => 0) (eval env x)
  | OpOnesLike x => map_tensor (fun _ => 1) (eval env x)
  | OpShape x => shape_tensor (eval env x)
  | _ => env o
  end.

(** The dimensions a shape operand asks for, where the operand is the shape
    of a node or a constant. *)
Definition requested_dims (env : Output F -> Tensor) (shape : Output F)
  : option (list nat) :=
  match shape with
  | OpShape x => Some (dims (eval env x))
  | OpConstI _ _ vals => Some (map Z.to_nat vals)
  | _ => None
  end.

(** [node] is a uniform draw of [env]: it has the dimensions asked for and
    its elements lie in [0, 1). *)
Definition uniform_draw (env : Output F -> Tensor) (node : Output F) : Prop :=
  match node with
  | OpRandomUniform _ shape _ =>
      (forall ds, requested_dims env shape = Some ds -> dims (env node) = ds)
      /\ (forall i, valid_index (dims (env node)) i -> 0 <= elem (env node) i < 1)
  | _ => False
  end.

(** Modelled from the spec: what running an assignment stores, and in which
    variable. [AssignSub] subtracts its second operand from the variable
    (section 4.3 writes it [moving -= delta]). *)
Definition run_update (env : Output F -> Tensor) (op : Output F)
  : option (Output F * Tensor) :=
  match op with
  | OpAssignSub ref value =>
      Some (ref, broadcast2 Rminus (eval env ref) (eval env value))
  | OpAssign ref value => Some (ref, eval env value)
  | _ => None
  end.

(** Modelled from the spec: the shape inference of the engine is not among
    the sources. The shape a node is built with, for the nodes whose shape is
    one of their operands (the convolution-input-gradient primitive receives
    "the desired output spatial shape", section 4.5) or that of their first
    operand. *)
Fixpoint static_shape (o : Output F) : option (list Z) :=
  match o with
  | OpVariable _ shape _ => Some shape
  | OpConstF shape _ => Some shape
  | OpConstI _ shape _ => Some shape
  | OpRandomUniform _ (OpConstI _ _ shape) _ => Some shape
  | OpRandomNormal _ (OpConstI _ _ shape) _ => Some shape
  | OpReshape _ (OpConstI _ _ shape) => Some shape
  | OpConv2DBackpropInput (OpConstI _ _ sizes) _ _ _ _ => Some sizes
  | OpFusedBatchNorm fused_y x _ _ _ _ _ _ => static_shape x
  | OpLeakyRelu x _ => static_shape x
  | OpBiasAdd x _ => static_shape x
  | _ => None
  end.

End Eval.

End Semantics.

Import Semantics.

(** ** Vocabulary of the statements *)

Section Forms.
Context {F : Type} {FO : FloatOps F}.

(** The value of a builder that returned. *)
Definition value_of {A : Type} (r : Result (A * Graph F)) : option A :=
  match r with
  | Ok (a, _) => Some a
  | Err _ => None
  end.

(** [inv = rsqrt(variance + epsilon) * scale] *)
Definition batchnorm_inv (variance scale epsilon : Output F) : Output F :=
  OpMultiply (OpRsqrt (OpAdd variance epsilon)) scale.

(** [x * inv + (offset - mean * inv)] *)
Definition batchnorm_form (x mean variance offset scale epsilon : Output F)
  : Output F :=
  let inv := batchnorm_inv variance scale epsilon in
  OpAdd (OpMultiply x (OpCast inv DT_FLOAT))
        (OpCast (OpSub offset (OpMultiply mean inv)) DT_FLOAT).

(** [(x - mean) * inv + offset] *)
Definition centred_form (x mean variance offset scale epsilon : Output F)
  : Output F :=
  let inv := batchnorm_inv variance scale epsilon in
  OpAdd (OpMultiply (OpSub x mean) inv) offset.

(** The axes operand of a reduction, as the literal is turned into a node. *)
Definition axes_const (axes : list Z) : Output F :=
  OpConstI DT_INT32 [Z.of_nat (List.length axes)] axes.

(** [reduce_mean(x, axes)], dimensions kept. *)
Definition kept_mean (x : Output F) (axes : list Z) : Output F :=
  OpReduceMean x (axes_const axes) true.

(** [reduce_mean((x - stop_gradient(mean))^2, axes)], dimensions kept. *)
Definition kept_variance (x : Output F) (axes : list Z) : Output F :=
  OpReduceMean (OpSquaredDifference x (OpStopGradient (kept_mean x axes)))
               (axes_const axes) true.

Definition moments_form (x : Output F) (axes : list Z) (keep_dims : bool)
  : MomentsT (F := F) :=
  if keep_dims then
    {| mean := kept_mean x axes; variance := kept_variance x axes |}
  else
    {| mean := OpSqueeze (kept_mean x axes) axes;
       variance := OpSqueeze (kept_variance x axes) axes |}.

(** [moving -= (moving - batch) * decay] *)
Definition moving_update (moving batch : Output F) (decay : F) : Output F :=
  OpAssignSub moving (OpMultiply (OpSub moving batch) (OpConstF [] [decay])).

(** The 0/1 mask of a dropout: [floor(uniform + bias)]. *)
Definition dropout_mask (id : nat) (x : Output F) (bias : F) : Output F :=
  OpFloor (OpAdd (OpRandomUniform id (OpShape x) DT_FLOAT) (OpConstF [1%Z] [bias])).

(** [(x / keep_prob) * mask] *)
Definition dropout_form (id : nat) (x : Output F) (keep_prob bias : F)
  : Output F :=
  OpMultiply (OpDiv x (OpConstF [1%Z] [keep_prob])) (dropout_mask id x bias).

(** The constant added to the uniform draw in a dropout term. *)
Definition mask_bias (out : Output F) : option F :=
  match out with
  | OpMultiply _ (OpFloor (OpAdd (OpRandomUniform _ _ _) (OpConstF _ [b]))) =>
      Some b
  | _ => None
  end.

Definition dropout_bias (scope : Scope) (x : Output F) (rate : Z) (g : Graph F)
  : option F :=
  match Dropout scope x rate g with
  | Ok (out, _) => mask_bias out
  | Err _ => None
  end.

(** [uniform * (maxval - minval) + minval] *)
Definition glorot_form (id : nat) (shape : list Z) (minval maxval : F)
  : Output F :=
  OpAdd
    (OpMultiply
       (OpRandomUniform id
          (OpConstI DT_INT64 [Z.of_nat (List.length shape)] shape) DT_FLOAT)
       (OpConstF [] [fsub maxval minval]))
    (OpConstF [] [minval]).

(** The [y] output of a fused normalization in each mode. *)
Definition fused_form (moving_mean moving_variance gamma beta x : Output F)
  (epsilon : F) (training : bool) : FusedOutput -> Output F :=
  fun which =>
    if training then
      OpFusedBatchNorm which x gamma beta (OpConstF [0%Z] []) (OpConstF [0%Z] [])
        epsilon true
    else
      OpFusedBatchNorm which x gamma beta moving_mean moving_variance
        epsilon false.

(** The name of the C++ wrapper that adds a node. *)
Definition op_type (o : Output F) : string :=
  match o with
  | OpVariable _ _ _ => "Variable"
  | OpConstF _ _ => "Const"
  | OpConstI _ _ _ => "Const"
  | OpAssign _ _ => "Assign"
  | OpAssignSub _ _ => "AssignSub"
  | OpReduceMean _ _ _ => "ReduceMean"
  | OpStopGradient _ => "StopGradient"
  | OpSquaredDifference _ _ => "SquaredDifference"
  | OpSqueeze _ _ => "Squeeze"
  | OpMultiply _ _ => "Multiply"
  | OpAdd _ _ => "Add"
  | OpSub _ _ => "Sub"
  | OpDiv _ _ => "Div"
  | OpRsqrt _ => "Rsqrt"
  | OpFloor _ => "Floor"
  | OpNegate _ => "Negate"
  | OpExp _ => "Exp"
  | OpLog1p _ => "Log1p"
  | OpZerosLike _ => "ZerosLike"
  | OpOnesLike _ => "OnesLike"
  | OpCast _ _ => "Cast"
  | OpShape _ => "Shape"
  | OpRandomUniform _ _ _ => "RandomUniform"
  | OpRandomNormal _ _ _ => "RandomNormal"
  | OpGreaterEqual _ _ => "GreaterEqual"
  | OpSelectV2 _ _ _ => "SelectV2"
  | OpConv2D _ _ _ _ => "Conv2D"
  | OpConv2DBackpropInput _ _ _ _ _ => "Conv2DBackpropInput"
  | OpFusedBatchNorm _ _ _ _ _ _ _ _ => "FusedBatchNorm"
  | OpMatMul _ _ => "MatMul"
  | OpLeakyRelu _ _ => "LeakyRelu"
  | OpReshape _ _ => "Reshape"
  | OpBroadcastTo _ _ => "BroadcastTo"
  | OpBiasAdd _ _ => "BiasAdd"
  end.

Definition is_assign_sub (o : Output F) : bool :=
  match o with
  | OpAssignSub _ _ => true
  | _ => false
  end.

(** The [AssignSub] nodes of a list, in order. *)
Definition assign_sub_nodes (added : list (NodeDef F)) : list (NodeDef F) :=
  filter (fun n => is_assign_sub (node_op n)) added.

(** The tensor [old - (old - batch) * decay]. *)
Definition moved (old batch : Tensor) (decay : R) : Tensor :=
  broadcast2 Rminus old
    (broadcast2 Rmult (broadcast2 Rminus old batch)
       {| dims := []; elem := fun _ => decay |}).

(** Nodes added one after the other. *)
(** Nodes added one after the other. *)
Definition snocs (l : list (NodeDef F)) (added : list (NodeDef F))
  : list (NodeDef F) :=
  fold_left (fun acc n => acc ++ [n]) added l.

(** The wrappers behind a list of nodes, in order. *)
Definition op_types (added : list (NodeDef F)) : list string :=
  map (fun n => op_type (node_op n)) added.

(** Running [op] stores in [moving] the tensor
    [old - (old - batch) * decay]; where the moving and the batch statistics
    have the same dimensions, it does so element by element. *)
Definition stores_moving_average (env : Output F -> Tensor)
  (op moving batch : Output F) (decay : R) : Prop :=
  exists stored,
    run_update env op = Some (moving, stored)
    /\ stored = moved (eval env moving) (eval env batch) decay
    /\ (dims (eval env moving) = dims (eval env batch) ->
        dims stored = dims (eval env moving)
        /\ forall i,
            valid_index (dims (eval env moving)) i ->
            elem stored i
            = (elem (eval env moving) i
               - (elem (eval env moving) i - elem (eval env batch) i) * decay)%R).

End Forms.

(** ** What the statements ask of a model of [float] *)

Class FloatLaws (F : Type) {FO : FloatOps F} : Prop := {
  (** the floats [0.0f] and [1.0f] stand for the numbers zero and one *)
  toR_zero : toR (of_int 0) = 0%R;
  toR_one : toR (of_int 1) = 1%R;
  (** converting a float strictly between 0 and 1 to [int] gives 0 *)
  to_int_fraction : forall r : F, (0 < toR r < 1)%R -> to_int r = 0%Z;
  (** the literal [0.3f] lies strictly between 0 and 1 *)
  three_tenths : (0 < toR (float_lit 3 10 : F) < 1)%R
}.
Arguments FloatLaws F {FO}.

(** ** Sample inputs *)

(** Values for the constants of the headers, for the runs below. The
    specification gives the momentum, 0.8; the others are those of a
    28-by-28 image of one channel. *)
Definition sample_constants : Constants Binary32.float32 :=
  {| NOISE_DIM := 100; UNITS := 7 * 7 * 256; NUM_CHANNELS := 1;
     IMAGE_SIZE := 28; MOMENTUM := float_lit 8 10 |}.

Section Samples.
Context {F : Type}.

(** A variable of two rows and three columns. *)
Definition sample_x : Output F := OpVariable 0 [2; 3]%Z DT_FLOAT.

(** Every node holds the 2-by-3 tensor filled with [c]. *)
Definition sample_env (c : R) : Output F -> Tensor :=
  fun _ => {| dims := [2; 3]%nat; elem := fun _ => c |}.

End Samples.

(** ** Vocabulary of the further statements *)

Section StateForms.
Context {F : Type}.

Definition is_variable (o : Output F) : bool :=
  match o with
  | OpVariable _ _ _ => true
  | _ => false
  end.

(** The variables among the nodes of a list, in order. *)
Definition variables_of (added : list (NodeDef F)) : list (Output F) :=
  filter is_variable (map (@node_op F) added).

(** The variable an assignment writes. *)
Definition assigned_ref (op : Output F) : option (Output F) :=
  match op with
  | OpAssign ref _ => Some ref
  | OpAssignSub ref _ => Some ref
  | _ => None
  end.

(** The identifier of a variable. *)
Definition variable_id (o : Output F) : option nat :=
  match o with
  | OpVariable id _ _ => Some id
  | _ => None
  end.

Fixpoint all_distinct (l : list nat) : bool :=
  match l with
  | [] => true
  | x :: r => negb (existsb (Nat.eqb x) r) && all_distinct r
  end.

Definition is_rsqrt (o : Output F) : bool :=
  match o with
  | OpRsqrt _ => true
  | _ => false
  end.

(** The [Rsqrt] nodes of a list, in order. *)
Definition rsqrt_nodes (added : list (NodeDef F)) : list (Output F) :=
  filter is_rsqrt (map (@node_op F) added).

(** The nodes of a list that the wrappers named in [names] added, in
    order. *)
Definition nodes_of_types (names : list string) (added : list (NodeDef F))
  : list (NodeDef F) :=
  filter (fun n => existsb (String.eqb (op_type (node_op n))) names) added.

(** Elements added one after the other to a list. *)
Definition snoc_all {A : Type} (l added : list A) : list A :=
  fold_left (fun acc a => acc ++ [a]) added l.

End StateForms.

(** ** Kernels of the comparison and of the selection

    Modelled from the spec: the kernels are not among the sources; section 6
    lists "comparison/select" among the numeric primitives. A comparison
    holds 1 where it is true and 0 elsewhere; a selection reads its second
    operand where the condition is not 0 and its third operand elsewhere. *)

Section LogicKernels.
Context {F : Type} {FO : FloatOps F}.

Definition indicator_ge (a b : R) : R := if Rle_dec b a then 1%R else 0%R.

(** Modelled from the spec: the value of [SelectV2], with broadcasting. *)
Definition select3 (c t e : Tensor) : Tensor :=
  {| dims := broadcast_dims (dims c) (broadcast_dims (dims t) (dims e));
     elem := fun i =>
       if Req_dec_T (elem c (broadcast_index (dims c) i)) 0%R
       then elem e (broadcast_index (dims e) i)
       else elem t (broadcast_index (dims t) i) |}.

(** [env] gives the comparison node [node] the value of its kernel. *)
Definition greater_equal_kernel (env : Output F -> Tensor) (node : Output F)
  : Prop :=
  match node with
  | OpGreaterEqual x y =>
      env node = broadcast2 indicator_ge (eval env x) (eval env y)
  | _ => False
  end.

(** [env] gives the selection node [node] the value of its kernel. *)
Definition select_kernel (env : Output F -> Tensor) (node : Output F) : Prop :=
  match node with
  | OpSelectV2 c t e =>
      env node = select3 (eval env c) (eval env t) (eval env e)
  | _ => False
  end.

(** [max(x, 0) - x * z + log(1 + exp(-abs(x)))] *)
Definition stable_logistic_loss (x z : R) : R :=
  (Rmax x 0 - x * z + ln (1 + exp (- Rabs x)))%R.

(** [x - x * z + log(1 + exp(-x))] *)
Definition logistic_loss (x z : R) : R :=
  (x - x * z + ln (1 + exp (- x)))%R.

(** The term [SigmoidCrossEntropyWithLogits] builds. *)
Definition sigmoid_cross_entropy_form (labels logits : Output F) : Output F :=
  let zeros := OpZerosLike logits in
  let cond := OpGreaterEqual logits zeros in
  let relu_logits := OpSelectV2 cond logits zeros in
  let neg_abs_logits := OpSelectV2 cond (OpNegate logits) logits in
  OpAdd (OpSub relu_logits (OpMultiply logits labels))
        (OpLog1p (OpExp neg_abs_logits)).

(** An environment for a logit tensor held by the variable [sample_x] and
    filled with [x]: the comparison and the two selections of the loss have
    the value of their kernels, and every other node without a rule holds
    the 2-by-3 tensor filled with [z]. *)
Definition logistic_env (x z : R) (o : Output F) : Tensor :=
  let filled r := {| dims := [2; 3]%nat; elem := fun _ : list nat => r |} in
  match o with
  | OpVariable 0 _ _ => filled x
  | OpGreaterEqual _ _ => filled (indicator_ge x 0)
  | OpSelectV2 _ (OpNegate _) _ =>
      filled (if Req_dec_T (indicator_ge x 0) 0%R then x else (- x)%R)
  | OpSelectV2 _ _ _ =>
      filled (if Req_dec_T (indicator_ge x 0) 0%R then 0%R else x)
  | _ => filled z
  end.

End LogicKernels.

(** ** Statistics of the columns of a matrix *)

Section ColumnStatistics.

Local Open Scope R_scope.

(** Mean of column [k] of a matrix of [n] rows. *)
Definition column_mean (X : Tensor) (n k : nat) : R :=
  sum_upto n (fun j => elem X [j; k]) / INR n.

(** Variance of column [k]: the mean of the squared distances to the
    column's mean. *)
Definition column_variance (X : Tensor) (n k : nat) : R :=
  sum_upto n (fun j => (elem X [j; k] - column_mean X n k)
                       * (elem X [j; k] - column_mean X n k)) / INR n.

End ColumnStatistics.

(** ** Further sample inputs *)

Section MoreSamples.
Context {F : Type}.

(** A variable that is a vector of three elements. *)
Definition sample_vector (id : nat) : Output F := OpVariable id [3%Z] DT_FLOAT.

(** The variable of identifier 0 holds the 2-by-3 tensor filled with [c];
    every other node without a rule holds the vector of three elements
    filled with [d]. *)
Definition row_env (c d : R) (o : Output F) : Tensor :=
  match o with
  | OpVariable 0 _ _ => {| dims := [2; 3]%nat; elem := fun _ => c |}
  | _ => {| dims := [3%nat]; elem := fun _ => d |}
  end.

End MoreSamples.

(** ** Sample inputs of the dropout *)

Section DropoutSamples.
Context {F : Type} {FO : FloatOps F}.




End DropoutSamples.

(** ** The state after the initial assignments *)

Section InitialState.
Context {F : Type} {FO : FloatOps F}.

(** Every variable written by one of the initial assignments of the graph
    holds, in [env], the value that assignment stores. *)
Definition holds_initial_values (env : Output F -> Tensor) (g : Graph F) : Prop :=
  Forall (fun op =>
            match run_update env op with
            | Some (ref, stored) => tensor_eq (eval env ref) stored
            | None => True
            end)
         (assign_ops g).


(** Running the update [op] stores in [moving] a tensor that, where the
    moving and the batch statistics have the same dimensions, lies between
    the old value and the batch statistic in every position. *)
Definition stays_between (env : Output F -> Tensor) (op moving batch : Output F)
  : Prop :=
  exists stored,
    run_update env op = Some (moving, stored)
    /\ (dims (eval env moving) = dims (eval env batch) ->
        dims stored = dims (eval env moving)
        /\ forall i, valid_index (dims (eval env moving)) i ->
             (Rmin (elem (eval env moving) i) (elem (eval env batch) i)
              <= elem stored i
              <= Rmax (elem (eval env moving) i) (elem (eval env batch) i))%R).

(** The variable of identifier 6 holds three ones, every other variable
    three zeros, and every other node without a rule the 2-by-3 tensor
    filled with [c]. *)
Definition init_env (c : R) (o : Output F) : Tensor :=
  match o with
  | OpVariable 6 _ _ => {| dims := [3%nat]; elem := fun _ => 1%R |}
  | OpVariable _ _ _ => {| dims := [3%nat]; elem := fun _ => 0%R |}
  | _ => {| dims := [2; 3]%nat; elem := fun _ => c |}
  end.

(** A product of two matrices, as the dense layer of the generator is. *)
Definition sample_dense : Output F :=
  OpMatMul (OpRandomNormal 0 (OpConstI DT_INT32 [2%Z] [2; 4]%Z) DT_FLOAT)
           (OpVariable 1 [4; 3]%Z DT_FLOAT).

End InitialState.

(** ** The variables a node depends on *)

Section Dependencies.
Context {F : Type}.

(** The variables that occur in a term, in the order of its operands. *)
Fixpoint variables_read (o : Output F) : list (Output F) :=
  match o with
  | OpVariable _ _ _ => [o]
  | OpConstF _ _ => []
  | OpConstI _ _ _ => []
  | OpAssign ref value => variables_read ref ++ variables_read value
  | OpAssignSub ref value => variables_read ref ++ variables_read value
  | OpReduceMean input axis _ => variables_read input ++ variables_read axis
  | OpStopGradient input => variables_read input
  | OpSquaredDifference x y => variables_read x ++ variables_read y
  | OpSqueeze input _ => variables_read input
  | OpMultiply x y => variables_read x ++ variables_read y
  | OpAdd x y => variables_read x ++ variables_read y
  | OpSub x y => variables_read x ++ variables_read y
  | OpDiv x y => variables_read x ++ variables_read y
  | OpRsqrt x => variables_read x
  | OpFloor x => variables_read x
  | OpNegate x => variables_read x
  | OpExp x => variables_read x
  | OpLog1p x => variables_read x
  | OpZerosLike x => variables_read x
  | OpOnesLike x => variables_read x
  | OpCast x _ => variables_read x
  | OpShape input => variables_read input
  | OpRandomUniform _ shape _ => variables_read shape
  | OpRandomNormal _ shape _ => variables_read shape
  | OpGreaterEqual x y => variables_read x ++ variables_read y
  | OpSelectV2 c t e => variables_read c ++ variables_read t ++ variables_read e
  | OpConv2D input filter _ _ => variables_read input ++ variables_read filter
  | OpConv2DBackpropInput sizes filter out_backprop _ _ =>
      variables_read sizes ++ variables_read filter ++ variables_read out_backprop
  | OpFusedBatchNorm _ x scale offset mean variance _ _ =>
      variables_read x ++ variables_read scale ++ variables_read offset
      ++ variables_read mean ++ variables_read variance
  | OpMatMul a b => variables_read a ++ variables_read b
  | OpLeakyRelu features _ => variables_read features
  | OpReshape tensor shape => variables_read tensor ++ variables_read shape
  | OpBroadcastTo input shape => variables_read input ++ variables_read shape
  | OpBiasAdd value bias => variables_read value ++ variables_read bias
  end.

End Dependencies.

Section SampleLayers.
Context {F : Type}.

(** A reference normalization layer whose four variables are vectors of
    three elements. *)
Definition sample_layer : TFBatchNormalization.t (F := F) :=
  {| TFBatchNormalization.moving_mean := sample_vector 1;
     TFBatchNormalization.moving_variance := sample_vector 2;
     TFBatchNormalization.gamma := sample_vector 3;
     TFBatchNormalization.beta := sample_vector 4 |}.

(** A fused normalization layer on the same variables. *)
Definition sample_fused : TFFusedBatchNorm.t (F := F) :=
  {| TFFusedBatchNorm.moving_mean := sample_vector 1;
     TFFusedBatchNorm.moving_variance := sample_vector 2;
     TFFusedBatchNorm.gamma := sample_vector 3;
     TFFusedBatchNorm.beta := sample_vector 4 |}.

(** Labels for the logits [sample_x]. *)
Definition sample_labels : Output F := OpVariable 1 [2; 3]%Z DT_FLOAT.

End SampleLayers.

(** ** The nodes a term contains *)

Section Occurrences.
Context {F : Type}.

Definition is_broadcast (o : Output F) : bool :=
  match o with
  | OpBroadcastTo _ _ => true
  | _ => false
  end.

(** Whether [o] or one of the terms it is built from satisfies [p]. *)
Fixpoint occurs (p : Output F -> bool) (o : Output F) : bool :=
  p o
  || match o with
     | OpVariable _ _ _ => false
     | OpConstF _ _ => false
     | OpConstI _ _ _ => false
     | OpAssign ref value => occurs p ref || occurs p value
     | OpAssignSub ref value => occurs p ref || occurs p value
     | OpReduceMean input axis _ => occurs p input || occurs p axis
     | OpStopGradient input => occurs p input
     | OpSquaredDifference x y => occurs p x || occurs p y
     | OpSqueeze input _ => occurs p input
     | OpMultiply x y => occurs p x || occurs p y
     | OpAdd x y => occurs p x || occurs p y
     | OpSub x y => occurs p x || occurs p y
     | OpDiv x y => occurs p x || occurs p y
     | OpRsqrt x => occurs p x
     | OpFloor x => occurs p x
     | OpNegate x => occurs p x
     | OpExp x => occurs p x
     | OpLog1p x => occurs p x
     | OpZerosLike x => occurs p x
     | OpOnesLike x => occurs p x
     | OpCast x _ => occurs p x
     | OpShape input => occurs p input
     | OpRandomUniform _ shape _ => occurs p shape
     | OpRandomNormal _ shape _ => occurs p shape
     | OpGreaterEqual x y => occurs p x || occurs p y
     | OpSelectV2 c t e => occurs p c || occurs p t || occurs p e
     | OpConv2D input filter _ _ => occurs p input || occurs p filter
     | OpConv2DBackpropInput sizes filter out_backprop _ _ =>
         occurs p sizes || occurs p filter || occurs p out_backprop
     | OpFusedBatchNorm _ x scale offset mean variance _ _ =>
         occurs p x || occurs p scale || occurs p offset || occurs p mean
         || occurs p variance
     | OpMatMul a b => occurs p a || occurs p b
     | OpLeakyRelu features _ => occurs p features
     | OpReshape tensor shape => occurs p tensor || occurs p shape
     | OpBroadcastTo input shape => occurs p input || occurs p shape
     | OpBiasAdd value bias => occurs p value || occurs p bias
     end.

End Occurrences.

(** * Proofs *)

(** ** Both models of [float] obey the laws *)

Lemma Rtrunc_fraction (r : R) : (0 < r < 1)%R -> Exact.Rtrunc r = 0%Z.
Proof.
  intros [H0 H1]. unfold Exact.Rtrunc.
  destruct (Rle_dec 0 r) as [_ | n]; [| lra].
  unfold Int_part.
  assert (up r = 1%Z) as ->; [| reflexivity].
  symmetry. apply tech_up; simpl; lra.
Qed.

#[global] Instance Exact_laws : FloatLaws R.
Proof.
  split.
  - reflexivity.
  - reflexivity.
  - intros r H. apply Rtrunc_fraction. exact H.
  - unfold float_lit. simpl. lra.
Qed.




(** ** Running a builder *)

(** Unfolds the builders down to the graph they return. *)
Ltac run_builder :=
  cbv beta iota zeta delta
    [bind ret fail lift_option emit emit_fresh AddTrainableVariable AddAssignOp
     AddUpdateOp AsNodeOut unary binary ConstFloats ConstFloat ConstFill ConstInts
     VariableOp Assign AssignSub StopGradient SquaredDifference Multiply Add Sub
     Div Rsqrt Floor Negate Exp Log1p ZerosLike OnesLike Shape GreaterEqual
     MatMul Reshape BroadcastTo BiasAdd Cast ReduceMean Squeeze SelectV2
     RandomUniform RandomNormal LeakyRelu Conv2D Conv2DBackpropInput
     FusedBatchNorm Epsilon IsTraining epsilon_ is_training_ y batch_mean
     batch_variance TFVariable TFAssign Moments mean variance
     BatchNormalization Dropout SigmoidCrossEntropyWithLogits GlorotUniform
     Conv2DTranspose TFBatchNormalization.new TFBatchNormalization.Build
     TFFusedBatchNorm.new TFFusedBatchNorm.Build Generator.new Generator.Build
     Discriminator.new Discriminator.Build
     next_id nodes trainable_variables assign_ops update_ops
     op_name WithOpName root_scope fst snd value_of dropout_bias].

Lemma snocs_app {F : Type} (added l : list (NodeDef F)) :
  snocs l added = l ++ added.
Proof.
  unfold snocs. revert l.
  induction added as [| n added IH]; intros l; simpl.
  - symmetry. apply app_nil_r.
  - rewrite IH, <- app_assoc. reflexivity.
Qed.

(** The nodes appended to [base] in a chain [((base ++ [a]) ++ [b]) ++ ...],
    latest first. *)
Ltac appended t base :=
  lazymatch t with
  | base => lazymatch type of base with list ?T => constr:(@nil T) end
  | ?l ++ [?n] => let p := appended l base in constr:(n :: p)
  end.

(** Solves [exists added, chain = base ++ added /\ P added] by reading the
    nodes off the chain. *)
Ltac read_nodes :=
  cbv beta iota delta [nodes];
  lazymatch goal with
  | |- exists added, ?chain = ?base ++ added /\ _ =>
      let p := appended chain base in
      let l := eval cbv beta iota delta [rev app] in (rev p) in
      exists l; split; [exact (snocs_app l base) |]
  end.

(** ** Tensors *)

Section TensorFacts.

Lemma valid_index_length (ds i : list nat) :
  valid_index ds i -> List.length i = List.length ds.
Proof. apply Forall2_length. Qed.

Lemma broadcast_index_valid (ds i : list nat) :
  valid_index ds i -> broadcast_index ds i = i.
Proof.
  intros H. unfold broadcast_index.
  rewrite (valid_index_length H), Nat.sub_diag. simpl.
  induction H as [| k d i ds Hk H IH]; simpl.
  - reflexivity.
  - rewrite IH. destruct (Nat.eqb_spec d 1) as [-> | _]; [| reflexivity].
    f_equal. lia.
Qed.

Lemma broadcast_aligned_ones (a : list nat) :
  broadcast_aligned a (repeat 1%nat (List.length a)) = a.
Proof.
  induction a as [| x a IH]; simpl; [reflexivity |].
  rewrite IH. destruct (Nat.eqb_spec x 1); congruence.
Qed.

Lemma broadcast_aligned_same (a : list nat) : broadcast_aligned a a = a.
Proof.
  induction a as [| x a IH]; simpl; [reflexivity |].
  rewrite IH. destruct (Nat.eqb x 1); reflexivity.
Qed.

Lemma broadcast_dims_same (a : list nat) : broadcast_dims a a = a.
Proof.
  unfold broadcast_dims, pad. rewrite Nat.sub_diag. simpl.
  apply broadcast_aligned_same.
Qed.

Lemma broadcast_dims_scalar (a : list nat) : broadcast_dims a [] = a.
Proof.
  unfold broadcast_dims, pad. simpl. rewrite Nat.sub_0_r, app_nil_r.
  apply broadcast_aligned_ones.
Qed.

Lemma broadcast_dims_one (a : list nat) :
  a <> [] -> broadcast_dims a [1%nat] = a.
Proof.
  intros Ha. unfold broadcast_dims, pad.
  destruct a as [| x a]; [congruence |]. simpl List.length.
  replace (1 - S (List.length a))%nat with 0%nat by lia.
  replace (S (List.length a) - 1)%nat with (List.length a) by lia.
  rewrite <- repeat_cons. simpl repeat. simpl app.
  apply (broadcast_aligned_ones (x :: a)).
Qed.

(** A constant of one element is read at its only position from every
    index of the result. *)
Lemma const_one_elem (shape : list Z) (v : R) (i : list nat) :
  shape = [] \/ shape = [1%Z] ->
  elem (const_tensor shape [v])
       (broadcast_index (dims (const_tensor shape [v])) i) = v.
Proof.
  intros [-> | ->]; simpl.
  - reflexivity.
  - unfold broadcast_index. simpl.
    destruct (skipn (List.length i - 1) i); reflexivity.
Qed.


End TensorFacts.

(** ** Reductions *)

Section ReductionFacts.

Local Open Scope R_scope.

Lemma sum_upto_ext (n : nat) (f h : nat -> R) :
  (forall j, (j < n)%nat -> f j = h j) -> sum_upto n f = sum_upto n h.
Proof.
  induction n as [| n IH]; intros H; simpl; [reflexivity |].
  rewrite IH by (intros; apply H; lia). rewrite H by lia. reflexivity.
Qed.

Lemma sum_upto_const (n : nat) (c : R) : sum_upto n (fun _ => c) = INR n * c.
Proof.
  induction n as [| n IH]; [simpl; lra |].
  cbn [sum_upto]. rewrite IH, S_INR. lra.
Qed.

Lemma axis_mask_length (rank : nat) (axes : list Z) :
  List.length (axis_mask rank axes) = rank.
Proof. unfold axis_mask. rewrite length_map, length_seq. reflexivity. Qed.

Lemma sum_over_const (mask : list bool) :
  forall (ds i : list nat) (f : list nat -> R) (c : R),
    List.length mask = List.length ds ->
    valid_index (kept_dims mask ds) i ->
    (forall j, valid_index ds j -> f j = c) ->
    sum_over mask ds i f = INR (reduced_count mask ds) * c.
Proof.
  induction mask as [| r mask IH]; intros ds i f c Hlen Hi Hf.
  - destruct ds; [| discriminate]. simpl. rewrite Hf by constructor. lra.
  - destruct ds as [| d ds]; [discriminate |].
    injection Hlen as Hlen. cbn [kept_dims] in Hi.
    inversion Hi as [| k d' i' ds' Hk Hi' E1 E2]; subst.
    cbn [sum_over reduced_count]. destruct r.
    + rewrite (sum_upto_ext _ (fun _ => INR (reduced_count mask ds) * c)).
      * rewrite sum_upto_const, mult_INR. lra.
      * intros j Hj. apply IH; [exact Hlen | exact Hi' |].
        intros rest Hrest. apply Hf. constructor; assumption.
    + apply IH; [exact Hlen | exact Hi' |].
      intros rest Hrest. apply Hf. constructor; assumption.
Qed.

Lemma reduced_count_pos (mask : list bool) :
  forall ds, Forall (lt 0) ds -> (0 < reduced_count mask ds)%nat.
Proof.
  induction mask as [| r mask IH]; intros ds H; simpl; [lia |].
  destruct ds as [| d ds]; [lia |].
  inversion H; subst. specialize (IH ds ltac:(assumption)).
  destruct r; [| exact IH]. nia.
Qed.

Lemma kept_dims_pos (mask : list bool) :
  forall ds, Forall (lt 0) ds -> Forall (lt 0) (kept_dims mask ds).
Proof.
  induction mask as [| r mask IH]; intros ds H; simpl; [constructor |].
  destruct ds as [| d ds]; [constructor |].
  inversion H; subst. constructor; [destruct r; lia | apply IH; assumption].
Qed.

Lemma kept_dims_length (mask : list bool) :
  forall ds, List.length mask = List.length ds ->
             List.length (kept_dims mask ds) = List.length ds.
Proof.
  induction mask as [| r mask IH]; intros [| d ds] H; simpl in *;
    try discriminate; [reflexivity |].
  f_equal. apply IH. lia.
Qed.

Lemma drop_masked_pos (mask : list bool) :
  forall ds, Forall (lt 0) ds -> Forall (lt 0) (drop_masked mask ds).
Proof.
  induction mask as [| r mask IH]; intros ds H; simpl; [constructor |].
  destruct ds as [| d ds]; [constructor |].
  inversion H; subst. destruct r; [| constructor]; auto.
Qed.

Lemma expand_index_valid (mask : list bool) :
  forall ds i,
    List.length mask = List.length ds ->
    Forall (lt 0) ds ->
    valid_index (drop_masked mask ds) i ->
    valid_index ds (expand_index mask i).
Proof.
  induction mask as [| r mask IH]; intros ds i Hlen Hpos Hi.
  - destruct ds; [constructor | discriminate].
  - destruct ds as [| d ds]; [discriminate |].
    injection Hlen as Hlen. inversion Hpos; subst.
    cbn [drop_masked] in Hi. destruct r; cbn [expand_index].
    + constructor; [assumption | apply IH; assumption].
    + inversion Hi; subst. constructor; [assumption | apply IH; assumption].
Qed.

Lemma broadcast_aligned_kept (mask : list bool) :
  forall ds, List.length mask = List.length ds ->
             broadcast_aligned ds (kept_dims mask ds) = ds.
Proof.
  induction mask as [| r mask IH]; intros [| d ds] H; simpl in *;
    try discriminate; [reflexivity |].
  rewrite IH by lia.
  destruct (Nat.eqb_spec d 1) as [-> | _]; destruct r; reflexivity.
Qed.

Lemma broadcast_dims_kept (mask : list bool) (ds : list nat) :
  List.length mask = List.length ds ->
  broadcast_dims ds (kept_dims mask ds) = ds.
Proof.
  intros H. unfold broadcast_dims, pad.
  rewrite (kept_dims_length _ _ H), Nat.sub_diag. simpl.
  apply broadcast_aligned_kept. exact H.
Qed.

Lemma broadcast_index_kept (mask : list bool) (ds i : list nat) :
  List.length mask = List.length ds ->
  valid_index ds i ->
  valid_index (kept_dims mask ds) (broadcast_index (kept_dims mask ds) i).
Proof.
  intros Hlen Hi. unfold broadcast_index.
  rewrite (valid_index_length Hi), (kept_dims_length _ _ Hlen), Nat.sub_diag.
  simpl. revert mask Hlen.
  induction Hi as [| k d i ds Hk Hi IH]; intros [| r mask] Hlen;
    simpl in *; try discriminate; [constructor |].
  constructor; [| apply IH; lia].
  destruct r; simpl; [lia |].
  destruct (Nat.eqb_spec d 1); lia.
Qed.

(** The mean of a constant tensor. *)
Lemma reduce_mean_kept_const (t : Tensor) (axes : list Z) (c : R) :
  Forall (lt 0) (dims t) ->
  (forall j, valid_index (dims t) j -> elem t j = c) ->
  forall i, valid_index (dims (reduce_mean t axes true)) i ->
            elem (reduce_mean t axes true) i = c.
Proof.
  intros Hpos Hc i Hi. cbn [reduce_mean dims elem] in *.
  rewrite (@sum_over_const _ _ _ _ c); try assumption.
  - field. apply not_0_INR.
    pose proof (reduced_count_pos (axis_mask (List.length (dims t)) axes) Hpos).
    lia.
  - apply axis_mask_length.
Qed.

Lemma reduce_mean_kept_dims (t : Tensor) (axes : list Z) :
  dims (reduce_mean t axes true)
  = kept_dims (axis_mask (List.length (dims t)) axes) (dims t).
Proof. reflexivity. Qed.

Lemma squeeze_mask_length (t : Tensor) (axes : list Z) :
  List.length
    (match axes with
     | [] => map (fun d => Nat.eqb d 1) (dims t)
     | _ => axis_mask (List.length (dims t)) axes
     end) = List.length (dims t).
Proof.
  destruct axes; [apply length_map | apply axis_mask_length].
Qed.

Lemma squeeze_const (t : Tensor) (axes : list Z) (c : R) :
  Forall (lt 0) (dims t) ->
  (forall j, valid_index (dims t) j -> elem t j = c) ->
  forall i, valid_index (dims (squeeze t axes)) i -> elem (squeeze t axes) i = c.
Proof.
  intros Hpos Hc i Hi. unfold squeeze, drop_dims in *. cbn [dims elem] in *.
  apply Hc. apply expand_index_valid; try assumption.
  apply squeeze_mask_length.
Qed.

Lemma squeeze_pos (t : Tensor) (axes : list Z) :
  Forall (lt 0) (dims t) -> Forall (lt 0) (dims (squeeze t axes)).
Proof. intros H. unfold squeeze, drop_dims. cbn [dims]. apply drop_masked_pos, H. Qed.

Section MomentsFacts.
Context {F : Type} {FO : FloatOps F}.

Lemma kept_moments_of_constant (env : Output F -> Tensor) (x : Output F)
  (axes : list Z) (c : R) :
  Forall (lt 0) (dims (eval env x)) ->
  (forall j, valid_index (dims (eval env x)) j -> elem (eval env x) j = c) ->
  (Forall (lt 0) (dims (eval env (kept_mean x axes)))
   /\ forall i, valid_index (dims (eval env (kept_mean x axes))) i ->
                elem (eval env (kept_mean x axes)) i = c)
  /\ (Forall (lt 0) (dims (eval env (kept_variance x axes)))
      /\ forall i, valid_index (dims (eval env (kept_variance x axes))) i ->
                   elem (eval env (kept_variance x axes)) i = 0).
Proof.
  intros Hpos Hc.
  assert (forall i, valid_index (dims (eval env (kept_mean x axes))) i ->
                    elem (eval env (kept_mean x axes)) i = c) as Hmean.
  { unfold kept_mean, axes_const. cbn [eval].
    apply reduce_mean_kept_const; assumption. }
  split; [split; [| exact Hmean] |].
  - unfold kept_mean, axes_const. cbn [eval reduce_mean dims].
    apply kept_dims_pos, Hpos.
  - unfold kept_variance. unfold axes_const at 2.
    cbn [eval].
    set (X := eval env x) in *.
    set (M := eval env (kept_mean x axes)) in *.
    assert (dims M = kept_dims (axis_mask (List.length (dims X)) axes) (dims X))
      as HdM by reflexivity.
    set (D := broadcast2 (fun a b => (a - b) * (a - b)) X M).
    assert (dims D = dims X) as HdD.
    { unfold D. cbn [dims broadcast2]. rewrite HdM.
      apply broadcast_dims_kept, axis_mask_length. }
    assert (forall j, valid_index (dims D) j -> elem D j = 0) as HD.
    { intros j Hj. rewrite HdD in Hj. unfold D. cbn [elem broadcast2].
      rewrite (broadcast_index_valid Hj), (Hc _ Hj), Hmean; [ring |].
      rewrite HdM. apply broadcast_index_kept; [apply axis_mask_length | exact Hj]. }
    split.
    + cbn [reduce_mean dims]. apply kept_dims_pos. fold D. rewrite HdD. exact Hpos.
    + apply reduce_mean_kept_const; [rewrite HdD; exact Hpos | exact HD].
Qed.

Lemma moments_of_constant (env : Output F -> Tensor) (x : Output F)
  (axes : list Z) (keep_dims : bool) (c : R) :
  Forall (lt 0) (dims (eval env x)) ->
  (forall j, valid_index (dims (eval env x)) j -> elem (eval env x) j = c) ->
  let m := eval env (mean (moments_form x axes keep_dims)) in
  let v := eval env (variance (moments_form x axes keep_dims)) in
  (Forall (lt 0) (dims m) /\ forall i, valid_index (dims m) i -> elem m i = c)
  /\ (Forall (lt 0) (dims v) /\ forall i, valid_index (dims v) i -> elem v i = 0).
Proof.
  intros Hpos Hc.
  destruct (kept_moments_of_constant env x axes Hpos Hc)
    as [[Hmp Hm] [Hvp Hv]].
  destruct keep_dims; cbn [moments_form mean variance].
  - repeat split; assumption.
  - cbn [eval]. repeat split.
    + apply squeeze_pos, Hmp.
    + apply squeeze_const; assumption.
    + apply squeeze_pos, Hvp.
    + apply squeeze_const; assumption.
Qed.

End MomentsFacts.
End ReductionFacts.

(** ** Batch normalization *)

Section BatchNormalizationFacts.
Context {F : Type} {FO : FloatOps F}.

(** C2. For every input [x], [mean], [variance], [offset], [scale] and
    [epsilon], [BatchNormalization] returns the term
    [x * cast(inv) + cast(offset - mean * inv)] with
    [inv = rsqrt(variance + epsilon) * scale]: the nine nodes it adds are, in
    order, the sum under the root, the reciprocal root, [inv], a cast, the
    product [x * inv], the product [mean * inv], the difference, a cast and
    the final sum. That term is not the centred form
    [(x - mean) * inv + offset]. *)
Theorem BatchNormalization_emits_scaled_form :
  forall (scope : Scope) (x mean variance offset scale epsilon : Output F)
         (g : Graph F),
  exists g',
    BatchNormalization scope x mean variance offset scale epsilon g
    = Ok (batchnorm_form x mean variance offset scale epsilon, g')
    /\ (exists added,
          nodes g' = nodes g ++ added
          /\ op_types added
             = ["Add"; "Rsqrt"; "Multiply"; "Cast"; "Multiply"; "Multiply";
                "Sub"; "Cast"; "Add"]%string
          /\ map (@node_op F) (firstn 3 added)
             = [OpAdd variance epsilon; OpRsqrt (OpAdd variance epsilon);
                batchnorm_inv variance scale epsilon])
    /\ batchnorm_form x mean variance offset scale epsilon
       <> centred_form x mean variance offset scale epsilon.
Proof.
  intros. eexists. split; [| split].
  - run_builder. reflexivity.
  - read_nodes. split; reflexivity.
  - unfold batchnorm_form, centred_form, batchnorm_inv. intros H.
    injection H as H1 H2 H3. discriminate.
Qed.

End BatchNormalizationFacts.

(** ** Moments *)

(** C9. For every tensor [x], axes and [keep_dims], [Moments] returns
    [mean = reduce_mean(x, axes)] and
    [variance = reduce_mean((x - stop_gradient(mean))^2, axes)], both
    reductions keeping the dimensions; when [keep_dims] is false the two
    results are squeezed along the axes, and the two [Squeeze] nodes are the
    last ones added, after both reductions. On a tensor with at least one
    element, all of whose elements equal [c], every element of the mean is
    [c] and every element of the variance is [0], whatever the axes and
    [keep_dims]; neither result is empty. *)
Theorem Moments_two_pass_and_constant_input
  {F : Type} {FO : FloatOps F}
  (scope : Scope) (x : Output F) (axes : list Z) (keep_dims : bool)
  (g : Graph F) :
  let m := OpReduceMean x (axes_const axes) true in
  let v :=
    OpReduceMean (OpSquaredDifference x (OpStopGradient m)) (axes_const axes)
                 true in
  let mean_out := if keep_dims then m else OpSqueeze m axes in
  let variance_out := if keep_dims then v else OpSqueeze v axes in
  (exists g',
      Moments scope x axes keep_dims g
      = Ok ({| mean := mean_out; variance := variance_out |}, g')
      /\ exists added,
          nodes g' = nodes g ++ added
          /\ op_types added
             = (["Const"; "ReduceMean"; "StopGradient"; "SquaredDifference";
                 "Const"; "ReduceMean"]%string
                ++ if keep_dims then [] else ["Squeeze"; "Squeeze"]%string)%list)
  /\ forall (env : Output F -> Tensor) (c : R),
      Forall (lt 0) (dims (eval env x)) ->
      (forall j, valid_index (dims (eval env x)) j -> elem (eval env x) j = c) ->
      (Forall (lt 0) (dims (eval env mean_out))
       /\ forall i, valid_index (dims (eval env mean_out)) i ->
                    elem (eval env mean_out) i = c)
      /\ (Forall (lt 0) (dims (eval env variance_out))
          /\ forall i, valid_index (dims (eval env variance_out)) i ->
                       elem (eval env variance_out) i = 0%R).
Proof.
  intros m v mean_out variance_out. split.
  - subst mean_out variance_out m v. destruct keep_dims.
    + eexists. split; [run_builder; reflexivity |].
      read_nodes. reflexivity.
    + eexists. split; [run_builder; reflexivity |].
      read_nodes. reflexivity.
  - intros env c Hpos Hc.
    pose proof (moments_of_constant env x axes keep_dims Hpos Hc) as H.
    subst mean_out variance_out m v.
    destruct keep_dims; exact H.
Qed.

(** Witness of C9: a 2-by-3 variable holding the constant 5, reduced along
    axis 0 and squeezed, in binary32. *)
Lemma Moments_constant_input_witness :
  Forall (lt 0)
    (dims (eval (sample_env 5) (sample_x (F := Binary32.float32))))
  /\ (forall j,
        valid_index
          (dims (eval (sample_env 5) (sample_x (F := Binary32.float32)))) j ->
        elem (eval (sample_env 5) (sample_x (F := Binary32.float32))) j = 5%R)
  /\ (forall i,
        valid_index
          (dims (eval (sample_env 5)
                   (OpSqueeze
                      (kept_mean (sample_x (F := Binary32.float32)) [0%Z])
                      [0%Z]))) i ->
        elem (eval (sample_env 5)
                (OpSqueeze (kept_mean (sample_x (F := Binary32.float32)) [0%Z])
                   [0%Z])) i = 5%R)
  /\ (forall i,
        valid_index
          (dims (eval (sample_env 5)
                   (OpSqueeze
                      (kept_variance (sample_x (F := Binary32.float32)) [0%Z])
                      [0%Z]))) i ->
        elem (eval (sample_env 5)
                (OpSqueeze
                   (kept_variance (sample_x (F := Binary32.float32)) [0%Z])
                   [0%Z])) i = 0%R).
Proof.
  assert (Forall (lt 0)
            (dims (eval (sample_env 5) (sample_x (F := Binary32.float32)))))
    as Hpos by (repeat constructor).
  assert (forall j,
             valid_index
               (dims (eval (sample_env 5) (sample_x (F := Binary32.float32))))
               j ->
             elem (eval (sample_env 5) (sample_x (F := Binary32.float32))) j
             = 5%R) as Hconst by (intros j _; reflexivity).
  split; [exact Hpos | split; [exact Hconst |]].
  pose proof (proj2 (Moments_two_pass_and_constant_input root_scope
                       (sample_x (F := Binary32.float32)) [0%Z] false
                       empty_graph) (sample_env 5) 5%R Hpos Hconst) as H.
  split; [exact (proj2 (proj1 H)) | exact (proj2 (proj2 H))].
Defined.

(** ** Dropout *)


Lemma int_sub_one_differs (rate : Z) : int_sub 1 rate <> rate.
Proof.
  unfold int_sub, wrap. intros H.
  pose proof (Z.div_mod (1 - rate + 2 ^ (32 - 1)) (2 ^ 32) ltac:(lia)) as E.
  lia.
Qed.

Section DropoutFacts.
Context {F : Type} {FO : FloatOps F}.

Lemma Dropout_run (scope : Scope) (x : Output F) (rate : Z) (g : Graph F) :
  let keep_prob := of_int (int_sub 1 rate) in
  exists g',
    Dropout scope x rate g
    = Ok (dropout_form (S (next_id g)) x keep_prob keep_prob, g')
    /\ exists added,
        nodes g' = nodes g ++ added
        /\ op_types added
           = ["Shape"; "RandomUniform"; "Const"; "Add"; "Floor"; "Const";
              "Div"; "Multiply"]%string.
Proof.
  intros keep_prob. eexists. split; [run_builder; reflexivity |].
  read_nodes. reflexivity.
Qed.




End DropoutFacts.





(** C4, as stated, fails: with [rate = 0] the constant added to the uniform
    draw is [1.0f], the float of [keep_prob], and not [0.0f], the float of
    the rate. *)
Lemma Dropout_bias_is_not_rate :
  dropout_bias root_scope (sample_x (F := Binary32.float32)) 0 empty_graph
  = Some (of_int 1)
  /\ dropout_bias root_scope (sample_x (F := Binary32.float32)) 0 empty_graph
     <> Some (of_int 0).
Proof.
  split; [reflexivity |]. vm_compute. discriminate.
Qed.

(** C4, amended. For every input and every rate, the constant added to the
    uniform draw before flooring is [keep_prob], the float of [1 - rate]: the
    same constant that divides [x]. On [int], [1 - rate] never equals
    [rate]. *)
Theorem Dropout_bias_is_keep_prob
  {F : Type} {FO : FloatOps F}
  (scope : Scope) (x : Output F) (rate : Z) (g : Graph F) :
  let keep_prob := of_int (int_sub 1 rate) in
  dropout_bias scope x rate g = Some keep_prob
  /\ (exists id g',
        Dropout scope x rate g
        = Ok (OpMultiply (OpDiv x (OpConstF [1%Z] [keep_prob]))
                (OpFloor
                   (OpAdd (OpRandomUniform id (OpShape x) DT_FLOAT)
                      (OpConstF [1%Z] [keep_prob]))), g'))
  /\ int_sub 1 rate <> rate.
Proof.
  intros keep_prob. split; [| split].
  - run_builder. reflexivity.
  - destruct (Dropout_run scope x rate g) as [g' [Hrun _]].
    exists (S (next_id g)), g'. exact Hrun.
  - apply int_sub_one_differs.
Qed.



(** ** Glorot uniform initializer *)

Lemma GlorotUniform_run {F : Type} {FO : FloatOps F}
  (scope : Scope) (shape : list Z) (fans : F * F) (g : Graph F) :
  glorot_fans shape = Some fans ->
  let limit := glorot_limit (fst fans) (snd fans) in
  exists g',
    GlorotUniform scope shape g
    = Ok (glorot_form (S (next_id g)) shape (fopp limit) limit, g')
    /\ exists added,
        nodes g' = nodes g ++ added /\ List.length added = 6%nat.
Proof.
  intros Hfans limit. subst limit. eexists. split.
  - run_builder. rewrite Hfans. run_builder. reflexivity.
  - read_nodes. reflexivity.
Qed.

Lemma glorot_fans_rank2 {F : Type} {FO : FloatOps F} (a b : Z) :
  glorot_fans [a; b] = Some (of_int a : F, of_int b : F).
Proof. reflexivity. Qed.

Lemma glorot_fans_rank4 {F : Type} {FO : FloatOps F} (kh kw i o : Z) :
  let receptive_field_size : F :=
    fmul (fmul (of_int 1) (of_int kh)) (of_int kw) in
  glorot_fans [kh; kw; i; o]
  = Some (fmul receptive_field_size (of_int i),
          fmul receptive_field_size (of_int o)).
Proof. reflexivity. Qed.

(** Without a rank of 4, the fans are the first two dimensions. *)
Lemma glorot_fans_other_rank {F : Type} {FO : FloatOps F} (shape : list Z) :
  (2 <= List.length shape)%nat ->
  List.length shape <> 4%nat ->
  glorot_fans shape
  = Some (of_int (nth 0 shape 0%Z) : F, of_int (nth 1 shape 0%Z) : F).
Proof.
  intros H2 H4.
  destruct shape as [| a [| b rest]]; simpl in H2; try lia.
  unfold glorot_fans. cbn [nth_error nth].
  destruct (Nat.eqb_spec (List.length (a :: b :: rest)) 4) as [E | _];
    [contradiction | reflexivity].
Qed.

Lemma glorot_fans_defined {F : Type} {FO : FloatOps F} (shape : list Z) :
  (2 <= List.length shape)%nat ->
  exists fans : F * F, glorot_fans shape = Some fans.
Proof.
  intros H2.
  destruct (Nat.eq_dec (List.length shape) 4) as [E | N].
  - destruct shape as [| kh [| kw [| i [| o [| ? ?]]]]]; try discriminate.
    eexists. apply glorot_fans_rank4.
  - eexists. apply glorot_fans_other_rank; assumption.
Qed.

Lemma fmax_exact (a b : R) : fmax a b = Rmax a b.
Proof.
  unfold fmax, Rmax. cbn [fltb Exact.exact_ops]. unfold Exact.Rltb.
  destruct (Rlt_dec a b), (Rle_dec a b); try reflexivity; lra.
Qed.

Lemma glorot_limit_exact (fan_in fan_out : R) :
  glorot_limit fan_in fan_out
  = sqrt (3 * (1 / Rmax 1 ((fan_in + fan_out) / 2))).
Proof.
  unfold glorot_limit, glorot_scale. rewrite fmax_exact. reflexivity.
Qed.

Lemma glorot_fans_exact (kh kw i o : Z) :
  glorot_fans (F := R) [kh; kw; i; o]
  = Some (IZR (kh * kw * i), IZR (kh * kw * o)).
Proof.
  rewrite glorot_fans_rank4. cbn [fmul of_int Exact.exact_ops].
  rewrite !mult_IZR. f_equal. f_equal; ring.
Qed.

(** With exact arithmetic, the affine map sends [0, 1) into
    [-limit, limit]. *)
Lemma glorot_range (env : Output R -> Tensor) (id : nat) (shape : list Z)
  (limit : R) :
  (0 <= limit)%R ->
  uniform_draw env
    (OpRandomUniform id
       (OpConstI DT_INT64 [Z.of_nat (List.length shape)] shape) DT_FLOAT) ->
  let out := glorot_form id shape (fopp limit) limit in
  dims (eval env out) = map Z.to_nat shape
  /\ forall i, valid_index (dims (eval env out)) i ->
               (- limit <= elem (eval env out) i <= limit)%R.
Proof.
  intros Hlimit [Hdims Hrange] out. subst out.
  specialize (Hdims _ eq_refl).
  unfold glorot_form. cbn [eval map toR fsub fopp Exact.exact_ops].
  set (U := env _) in *.
  assert (dims (broadcast2 Rplus
                  (broadcast2 Rmult U (const_tensor [] [limit - - limit]))
                  (const_tensor [] [- limit])) = dims U)%R as Hd.
  { cbn [dims broadcast2 const_tensor map]. rewrite !broadcast_dims_scalar.
    reflexivity. }
  split; [rewrite Hd; exact Hdims |].
  intros i Hi. rewrite Hd in Hi.
  cbn [elem broadcast2].
  rewrite (@const_one_elem [] (- limit)%R) by (left; reflexivity).
  rewrite (@const_one_elem [] (limit - - limit)%R) by (left; reflexivity).
  replace (dims (broadcast2 Rmult U (const_tensor [] [limit - - limit])))%R
    with (dims U)
    by (cbn [dims broadcast2 const_tensor map];
        rewrite broadcast_dims_scalar; reflexivity).
  rewrite !(broadcast_index_valid Hi).
  pose proof (Hrange i Hi) as Hu. nra.
Qed.

Lemma glorot_limit_nonneg (fan_in fan_out : R) :
  (0 <= glorot_limit fan_in fan_out)%R.
Proof. unfold glorot_limit. cbn [fsqrt Exact.exact_ops]. apply sqrt_pos. Qed.

(** C7. On a shape [[a, b]] the fans are [a] and [b]; on a shape
    [[kh, kw, in, out]] they are [kh * kw * in] and [kh * kw * out], computed
    in float from [1.0f * kh * kw]. [scale] is [1 / max(1, (fan_in +
    fan_out) / 2)], [limit] is [sqrt(3 * scale)], and the value returned is
    [uniform * (maxval - minval) + minval] with [minval = -limit] and
    [maxval = limit]. With exact arithmetic and uniform draws in [0, 1), the
    result has the dimensions of [shape] and each of its elements lies
    within [-limit, limit]. *)
Theorem GlorotUniform_fans_limit_and_range :
  (forall (F : Type) (FO : FloatOps F) (scope : Scope) (g : Graph F) (a b : Z),
      let limit : F := glorot_limit (of_int a) (of_int b) in
      let minval := fopp limit in
      let maxval := limit in
      exists id g',
        GlorotUniform scope [a; b] g
        = Ok (OpAdd
                (OpMultiply
                   (OpRandomUniform id (OpConstI DT_INT64 [2%Z] [a; b]) DT_FLOAT)
                   (OpConstF [] [fsub maxval minval]))
                (OpConstF [] [minval]), g'))
  /\ (forall (F : Type) (FO : FloatOps F) (scope : Scope) (g : Graph F)
             (kh kw i o : Z),
        let receptive : F := fmul (fmul (of_int 1) (of_int kh)) (of_int kw) in
        let fan_in := fmul receptive (of_int i) in
        let fan_out := fmul receptive (of_int o) in
        let limit := glorot_limit fan_in fan_out in
        let minval := fopp limit in
        let maxval := limit in
        exists id g',
          GlorotUniform scope [kh; kw; i; o] g
          = Ok (OpAdd
                  (OpMultiply
                     (OpRandomUniform id
                        (OpConstI DT_INT64 [4%Z] [kh; kw; i; o]) DT_FLOAT)
                     (OpConstF [] [fsub maxval minval]))
                  (OpConstF [] [minval]), g'))
  /\ (forall (F : Type) (FO : FloatOps F) (fan_in fan_out : F),
        glorot_limit fan_in fan_out
        = fsqrt (fmul (of_int 3)
                   (fdiv (of_int 1)
                      (fmax (of_int 1) (fdiv (fadd fan_in fan_out) (of_int 2))))))
  /\ (forall kh kw i o : Z,
        glorot_fans (F := R) [kh; kw; i; o]
        = Some (IZR (kh * kw * i), IZR (kh * kw * o)))
  /\ (forall fan_in fan_out : R,
        glorot_limit fan_in fan_out
        = sqrt (3 * (1 / Rmax 1 ((fan_in + fan_out) / 2))))
  /\ (forall (scope : Scope) (shape : list Z) (fans : R * R) (g : Graph R)
             (env : Output R -> Tensor),
        glorot_fans shape = Some fans ->
        let limit := glorot_limit (fst fans) (snd fans) in
        exists id g',
          let uniform :=
            OpRandomUniform id
              (OpConstI DT_INT64 [Z.of_nat (List.length shape)] shape) DT_FLOAT in
          let out :=
            OpAdd (OpMultiply uniform (OpConstF [] [limit - - limit]))
                  (OpConstF [] [- limit]) in
          GlorotUniform scope shape g = Ok (out, g')
          /\ (uniform_draw env uniform ->
              dims (eval env out) = map Z.to_nat shape
              /\ forall i, valid_index (dims (eval env out)) i ->
                           - limit <= elem (eval env out) i <= limit))%R.
Proof.
  repeat split.
  - intros F FO scope g a b limit minval maxval.
    destruct (@GlorotUniform_run F FO scope _ _ g (glorot_fans_rank2 a b))
      as [g' [Hrun _]].
    exists (S (next_id g)), g'. exact Hrun.
  - intros F FO scope g kh kw i o receptive fan_in fan_out limit minval maxval.
    destruct (@GlorotUniform_run F FO scope _ _ g (glorot_fans_rank4 kh kw i o))
      as [g' [Hrun _]].
    exists (S (next_id g)), g'. exact Hrun.
  - apply glorot_fans_exact.
  - apply glorot_limit_exact.
  - intros scope shape fans g env Hfans limit.
    destruct (@GlorotUniform_run R _ scope _ _ g Hfans) as [g' [Hrun _]].
    exists (S (next_id g)), g'. cbv zeta. split; [exact Hrun |].
    intros Hdraw.
    exact (@glorot_range env (S (next_id g)) shape limit
             (glorot_limit_nonneg _ _) Hdraw).
Qed.

Lemma sample_uniform_draw_const {F : Type} {FO : FloatOps F} (id : nat) :
  uniform_draw (sample_env (F := F) 0)
    (OpRandomUniform id (OpConstI DT_INT64 [2%Z] [2; 3]%Z) DT_FLOAT).
Proof.
  split.
  - intros ds H. injection H as <-. reflexivity.
  - intros i _. simpl. lra.
Qed.

(** Witness of C7: the shape [[2, 3]] with exact arithmetic, where every
    node holds the 2-by-3 tensor of zeros. *)
Lemma GlorotUniform_range_witness :
  glorot_fans (F := R) [2; 3]%Z = Some (2%R, 3%R)
  /\ exists id,
      let limit := glorot_limit 2%R 3%R in
      let out := glorot_form id [2; 3]%Z (- limit)%R limit in
      uniform_draw (sample_env 0)
        (OpRandomUniform id (OpConstI DT_INT64 [2%Z] [2; 3]%Z) DT_FLOAT)
      /\ dims (eval (sample_env 0) out) = [2; 3]%nat
      /\ forall i, valid_index (dims (eval (sample_env 0) out)) i ->
                   (- limit <= elem (eval (sample_env 0) out) i <= limit)%R.
Proof.
  split; [reflexivity |].
  destruct GlorotUniform_fans_limit_and_range as [_ [_ [_ [_ [_ Hrange]]]]].
  destruct (Hrange root_scope [2; 3]%Z (2%R, 3%R) empty_graph (sample_env 0)
              eq_refl) as [id [g' [_ Hid]]].
  exists id. cbv zeta.
  split; [apply sample_uniform_draw_const |].
  exact (Hid (sample_uniform_draw_const id)).
Defined.

(** C8, as stated, fails: on the shape [[2, 3, 4]], of rank 3, the
    constructor does not fail; it returns a node. *)
Lemma GlorotUniform_rank3_returns :
  ~ exists e : Fault,
      GlorotUniform root_scope [2; 3; 4]%Z (empty_graph (F := Binary32.float32))
      = Err e.
Proof.
  intros [e H].
  destruct (@GlorotUniform_run Binary32.float32 _ root_scope _ _ empty_graph
              (@glorot_fans_other_rank Binary32.float32 _ [2; 3; 4]%Z
                 ltac:(simpl; lia) ltac:(discriminate)))
    as [g' [Hrun _]].
  rewrite Hrun in H. discriminate H.
Qed.

(** C8, amended. The constructor checks no rank. For every shape of rank at
    least 2 it returns a node; when the rank is not 4, ranks 3 and 5 and more
    included, the fans are the first two dimensions, as for rank 2. *)
Theorem GlorotUniform_checks_no_rank
  {F : Type} {FO : FloatOps F}
  (scope : Scope) (shape : list Z) (g : Graph F) :
  (2 <= List.length shape)%nat ->
  (exists out g', GlorotUniform scope shape g = Ok (out, g'))
  /\ (List.length shape <> 4%nat ->
      let limit : F :=
        glorot_limit (of_int (nth 0 shape 0%Z)) (of_int (nth 1 shape 0%Z)) in
      exists id g',
        GlorotUniform scope shape g
        = Ok (glorot_form id shape (fopp limit) limit, g')).
Proof.
  intros H2. split.
  - destruct (@glorot_fans_defined F FO shape H2) as [fans Hfans].
    destruct (@GlorotUniform_run F FO scope _ _ g Hfans) as [g' [Hrun _]].
    eexists. eexists. exact Hrun.
  - intros H4 limit.
    destruct (@GlorotUniform_run F FO scope _ _ g
                (@glorot_fans_other_rank F FO shape H2 H4))
      as [g' [Hrun _]].
    exists (S (next_id g)), g'. exact Hrun.
Qed.

(** Witness of C8: the shape [[2, 3, 4]] in binary32. *)
Lemma GlorotUniform_checks_no_rank_witness :
  (2 <= List.length [2; 3; 4]%Z)%nat
  /\ exists out g',
      GlorotUniform root_scope [2; 3; 4]%Z (empty_graph (F := Binary32.float32))
      = Ok (out, g').
Proof.
  assert (2 <= List.length [2; 3; 4]%Z)%nat as H by (simpl; lia).
  split; [exact H |].
  exact (proj1 (GlorotUniform_checks_no_rank root_scope [2; 3; 4]%Z
                  (empty_graph (F := Binary32.float32)) H)).
Defined.

(** ** The reference normalization layer *)

(** Where the moving statistic and the batch statistic have the same
    dimensions, the update is elementwise. *)
Lemma moved_elementwise (old batch : Tensor) (decay : R) :
  dims old = dims batch ->
  dims (moved old batch decay) = dims old
  /\ forall i, valid_index (dims old) i ->
               elem (moved old batch decay) i
               = (elem old i - (elem old i - elem batch i) * decay)%R.
Proof.
  intros Hd. unfold moved.
  assert (dims (broadcast2 Rmult (broadcast2 Rminus old batch)
                  {| dims := []; elem := fun _ => decay |}) = dims old) as H1.
  { cbn [dims broadcast2]. rewrite <- Hd, broadcast_dims_same.
    apply broadcast_dims_scalar. }
  split.
  - cbn [dims broadcast2] in *. rewrite H1. apply broadcast_dims_same.
  - intros i Hi. cbn [elem broadcast2]. rewrite H1.
    rewrite (broadcast_index_valid Hi).
    cbn [elem broadcast2 dims]. rewrite <- Hd, broadcast_dims_same.
    rewrite !(broadcast_index_valid Hi). reflexivity.
Qed.

Lemma moving_update_stores {F : Type} {FO : FloatOps F}
  (env : Output F -> Tensor) (moving batch : Output F) (decay : F) :
  stores_moving_average env (moving_update moving batch decay) moving batch
    (toR decay).
Proof.
  eexists. split; [reflexivity |]. split; [reflexivity |].
  apply moved_elementwise.
Qed.

(** C1. [TFBatchNormalization::Build] with [training = true] takes the mean
    and the variance from [Moments] with [keep_dims = false], which runs
    first; it adds exactly two [AssignSub] nodes, named [update_moving_mean]
    and [update_moving_variance], and registers both as update ops. Run,
    they store [moving - (moving - batch) * (1 - MOMENTUM)]. With
    [training = false] the mean and the variance are the moving statistics,
    no [AssignSub] node is added and no update op is registered. In both
    modes the output is the normalization of [x] by those statistics. *)
Theorem TFBatchNormalization_Build_modes
  {F : Type} {FO : FloatOps F} {K : Constants F}
  (this : TFBatchNormalization.t) (scope : Scope) (x : Output F)
  (axes : list Z) (epsilon : Output F) (g : Graph F) :
  let moving_mean := TFBatchNormalization.moving_mean this in
  let moving_variance := TFBatchNormalization.moving_variance this in
  let gamma := TFBatchNormalization.gamma this in
  let beta := TFBatchNormalization.beta this in
  let decay := fsub (of_int 1) MOMENTUM in
  (exists moments g1 g',
      let update_mean :=
        OpAssignSub moving_mean
          (OpMultiply (OpSub moving_mean (mean moments)) (OpConstF [] [decay])) in
      let update_variance :=
        OpAssignSub moving_variance
          (OpMultiply (OpSub moving_variance (variance moments))
             (OpConstF [] [decay])) in
      Moments scope x axes false g = Ok (moments, g1)
      /\ TFBatchNormalization.Build this scope x axes epsilon true g
         = Ok (batchnorm_form x (mean moments) (variance moments) beta gamma
                 epsilon, g')
      /\ update_ops g' = update_ops g ++ [update_mean; update_variance]
      /\ (exists rest, nodes g' = nodes g1 ++ rest /\ rest <> [])
      /\ (exists added,
            nodes g' = nodes g ++ added
            /\ assign_sub_nodes added
               = [{| node_name := Some "update_moving_mean"%string;
                     node_op := update_mean |};
                  {| node_name := Some "update_moving_variance"%string;
                     node_op := update_variance |}])
      /\ forall env : Output F -> Tensor,
          stores_moving_average env update_mean moving_mean (mean moments)
            (toR decay)
          /\ stores_moving_average env update_variance moving_variance
               (variance moments) (toR decay))
  /\ (exists g',
        TFBatchNormalization.Build this scope x axes epsilon false g
        = Ok (batchnorm_form x moving_mean moving_variance beta gamma epsilon,
              g')
        /\ update_ops g' = update_ops g
        /\ exists added,
            nodes g' = nodes g ++ added /\ assign_sub_nodes added = []).
Proof.
  intros moving_mean moving_variance gamma beta decay.
  subst moving_mean moving_variance gamma beta decay. split.
  - do 3 eexists. cbv zeta.
    split; [run_builder; reflexivity |].
    split; [run_builder; reflexivity |].
    split; [cbn [update_ops]; rewrite <- app_assoc; reflexivity |].
    split; [read_nodes; discriminate |].
    split; [read_nodes; reflexivity |].
    intros env. split; apply moving_update_stores.
  - eexists. split; [run_builder; reflexivity |].
    split; [reflexivity |].
    read_nodes. reflexivity.
Qed.

(** ** The fused normalization layer *)

(** C6. [TFFusedBatchNorm::Build] with [training = true] calls the fused
    primitive in training mode on empty mean and variance, and from the
    batch statistics it returns builds two update assignments of the form
    [moving -= (moving - batch) * (1 - MOMENTUM)], registered as update ops:
    the form and the registration of the reference layer, whose batch
    statistics come from [Moments] instead. With [training = false] it calls
    the primitive with [is_training = false] on the moving mean and the
    moving variance, adds no other node and registers no update op. *)
Theorem TFFusedBatchNorm_Build_modes
  {F : Type} {FO : FloatOps F} {K : Constants F}
  (this : TFFusedBatchNorm.t) (reference : TFBatchNormalization.t)
  (scope : Scope) (x : Output F) (axes : list Z) (reference_epsilon : Output F)
  (variance_epsilon : F) (g : Graph F) :
  let moving_mean := TFFusedBatchNorm.moving_mean this in
  let moving_variance := TFFusedBatchNorm.moving_variance this in
  let gamma := TFFusedBatchNorm.gamma this in
  let beta := TFFusedBatchNorm.beta this in
  let decay := fsub (of_int 1) MOMENTUM in
  (exists g',
      let fused which :=
        OpFusedBatchNorm which x gamma beta (OpConstF [0%Z] [])
          (OpConstF [0%Z] []) variance_epsilon true in
      let update_mean :=
        moving_update moving_mean (fused fused_batch_mean) decay in
      let update_variance :=
        moving_update moving_variance (fused fused_batch_variance) decay in
      TFFusedBatchNorm.Build this scope x variance_epsilon true g
      = Ok (fused fused_y, g')
      /\ update_ops g' = update_ops g ++ [update_mean; update_variance]
      /\ (exists added,
            nodes g' = nodes g ++ added
            /\ assign_sub_nodes added
               = [{| node_name := Some "fused_update_moving_mean"%string;
                     node_op := update_mean |};
                  {| node_name := Some "fused_update_moving_variance"%string;
                     node_op := update_variance |}])
      /\ forall env : Output F -> Tensor,
          stores_moving_average env update_mean moving_mean
            (fused fused_batch_mean) (toR decay)
          /\ stores_moving_average env update_variance moving_variance
               (fused fused_batch_variance) (toR decay))
  /\ (exists moments g1 g',
        Moments scope x axes false g = Ok (moments, g1)
        /\ TFBatchNormalization.Build reference scope x axes reference_epsilon
             true g
           = Ok (batchnorm_form x (mean moments) (variance moments)
                   (TFBatchNormalization.beta reference)
                   (TFBatchNormalization.gamma reference) reference_epsilon, g')
        /\ update_ops g'
           = update_ops g
             ++ [moving_update (TFBatchNormalization.moving_mean reference)
                   (mean moments) decay;
                 moving_update (TFBatchNormalization.moving_variance reference)
                   (variance moments) decay])
  /\ (exists g',
        TFFusedBatchNorm.Build this scope x variance_epsilon false g
        = Ok (OpFusedBatchNorm fused_y x gamma beta moving_mean moving_variance
                variance_epsilon false, g')
        /\ update_ops g' = update_ops g
        /\ exists added,
            nodes g' = nodes g ++ added
            /\ op_types added = ["FusedBatchNorm"]%string).
Proof.
  intros moving_mean moving_variance gamma beta decay.
  subst moving_mean moving_variance gamma beta decay. split; [| split].
  - eexists. cbv zeta.
    split; [run_builder; reflexivity |].
    split; [cbn [update_ops]; rewrite <- app_assoc; reflexivity |].
    split; [read_nodes; reflexivity |].
    intros env. split; apply moving_update_stores.
  - do 3 eexists.
    split; [run_builder; reflexivity |].
    split; [run_builder; reflexivity |].
    cbn [update_ops]. rewrite <- app_assoc. reflexivity.
  - eexists. split; [run_builder; reflexivity |].
    split; [reflexivity |].
    read_nodes. reflexivity.
Qed.

(** ** Generator *)

Lemma Conv2DTranspose_is_backprop_input {F : Type}
  (scope : Scope) (input_sizes filter out_backprop : Output F)
  (strides : list Z) (padding : string) (g : Graph F) :
  exists g',
    Conv2DTranspose scope input_sizes filter out_backprop strides padding g
    = Ok (OpConv2DBackpropInput input_sizes filter out_backprop strides padding,
          g')
    /\ exists added,
        nodes g' = nodes g ++ added
        /\ op_types added = ["Conv2DBackpropInput"]%string.
Proof.
  eexists. split; [run_builder; reflexivity |].
  read_nodes. reflexivity.
Qed.

(** C10. For every batch size and mode, [Generator::Build] draws a
    standard-normal noise of shape [[batch_size, NOISE_DIM]], multiplies it
    by the dense weight, normalizes the product with the reference layer
    over axis 0 with epsilon [0.001f], applies a leaky rectification of
    slope [0.3f], reshapes to [[batch_size, 7, 7, 256]], and then applies
    three transposed convolutions with "SAME" padding and strides 1, 2 and 2,
    to [[batch_size, 7, 7, 128]], [[batch_size, 14, 14, 64]] and
    [[batch_size, 28, 28, NUM_CHANNELS]]. The first two are each followed by
    a fused normalization and a leaky rectification; the third is the output,
    named [generator]. Every transposed convolution is one
    [Conv2DBackpropInput] node. The nodes are added in the order listed. *)
Theorem Generator_Build_layers
  {F : Type} {FO : FloatOps F} {K : Constants F}
  (this : Generator.t) (scope : Scope) (batch_size : Z) (training : bool)
  (g : Graph F) :
  exists noise_id g',
    let noise :=
      OpRandomNormal noise_id
        (OpConstI DT_INT32 [2%Z] [batch_size; NOISE_DIM]) DT_FLOAT in
    let dense := OpMatMul noise (Generator.w1 this) in
    let bn := Generator.batchnorm_op this in
    let stats :=
      if training then moments_form dense [0%Z] false
      else {| mean := TFBatchNormalization.moving_mean bn;
              variance := TFBatchNormalization.moving_variance bn |} in
    let batchnorm :=
      batchnorm_form dense (mean stats) (variance stats)
        (TFBatchNormalization.beta bn) (TFBatchNormalization.gamma bn)
        (OpConstF [1%Z] [float_lit 1 1000]) in
    let leakyrelu := OpLeakyRelu batchnorm (float_lit 3 10) in
    let reshape1 :=
      OpReshape leakyrelu (OpConstI DT_INT32 [4%Z] [batch_size; 7; 7; 256]%Z) in
    let deconv1 :=
      OpConv2DBackpropInput
        (OpConstI DT_INT32 [4%Z] [batch_size; 7; 7; 128]%Z)
        (Generator.filter this) reshape1 [1; 1; 1; 1]%Z "SAME" in
    let bn1 := Generator.batchnorm1_op this in
    let batchnorm1 :=
      fused_form (TFFusedBatchNorm.moving_mean bn1)
        (TFFusedBatchNorm.moving_variance bn1) (TFFusedBatchNorm.gamma bn1)
        (TFFusedBatchNorm.beta bn1) deconv1 (float_lit 1 1000) training
        fused_y in
    let leakyrelu1 := OpLeakyRelu batchnorm1 (float_lit 3 10) in
    let deconv2 :=
      OpConv2DBackpropInput
        (OpConstI DT_INT32 [4%Z] [batch_size; 14; 14; 64]%Z)
        (Generator.filter2 this) leakyrelu1 [1; 2; 2; 1]%Z "SAME" in
    let bn2 := Generator.batchnorm2_op this in
    let batchnorm2 :=
      fused_form (TFFusedBatchNorm.moving_mean bn2)
        (TFFusedBatchNorm.moving_variance bn2) (TFFusedBatchNorm.gamma bn2)
        (TFFusedBatchNorm.beta bn2) deconv2 (float_lit 1 1000) training
        fused_y in
    let leakyrelu2 := OpLeakyRelu batchnorm2 (float_lit 3 10) in
    let output :=
      OpConv2DBackpropInput
        (OpConstI DT_INT32 [4%Z] [batch_size; 28; 28; NUM_CHANNELS]%Z)
        (Generator.filter3 this) leakyrelu2 [1; 2; 2; 1]%Z "SAME" in
    Generator.Build this scope batch_size training g = Ok (output, g')
    /\ static_shape noise = Some [batch_size; NOISE_DIM]
    /\ static_shape reshape1 = Some [batch_size; 7; 7; 256]%Z
    /\ static_shape deconv1 = Some [batch_size; 7; 7; 128]%Z
    /\ static_shape leakyrelu1 = Some [batch_size; 7; 7; 128]%Z
    /\ static_shape deconv2 = Some [batch_size; 14; 14; 64]%Z
    /\ static_shape leakyrelu2 = Some [batch_size; 14; 14; 64]%Z
    /\ static_shape output = Some [batch_size; 28; 28; NUM_CHANNELS]%Z
    /\ exists added,
        nodes g' = nodes g ++ added
        /\ last added {| node_name := None; node_op := noise |}
           = {| node_name := Some "generator"%string; node_op := output |}
        /\ op_types added
           = if training then
               ["Const"; "RandomNormal"; "MatMul"; "Const";
                "Const"; "ReduceMean"; "StopGradient"; "SquaredDifference";
                "Const"; "ReduceMean"; "Squeeze"; "Squeeze";
                "Const"; "Sub"; "Multiply"; "AssignSub";
                "Sub"; "Multiply"; "AssignSub";
                "Add"; "Rsqrt"; "Multiply"; "Cast"; "Multiply"; "Multiply";
                "Sub"; "Cast"; "Add";
                "LeakyRelu"; "Const"; "Reshape";
                "Const"; "Conv2DBackpropInput";
                "Const"; "Const"; "FusedBatchNorm";
                "Const"; "Sub"; "Multiply"; "AssignSub";
                "Sub"; "Multiply"; "AssignSub";
                "LeakyRelu";
                "Const"; "Conv2DBackpropInput";
                "Const"; "Const"; "BroadcastTo"; "Const"; "Const"; "BroadcastTo";
                "Const"; "Const"; "FusedBatchNorm";
                "Const"; "Sub"; "Multiply"; "AssignSub";
                "Sub"; "Multiply"; "AssignSub";
                "LeakyRelu";
                "Const"; "Conv2DBackpropInput"]%string
             else
               ["Const"; "RandomNormal"; "MatMul"; "Const";
                "Add"; "Rsqrt"; "Multiply"; "Cast"; "Multiply"; "Multiply";
                "Sub"; "Cast"; "Add";
                "LeakyRelu"; "Const"; "Reshape";
                "Const"; "Conv2DBackpropInput";
                "FusedBatchNorm";
                "LeakyRelu";
                "Const"; "Conv2DBackpropInput";
                "Const"; "Const"; "BroadcastTo"; "Const"; "Const"; "BroadcastTo";
                "FusedBatchNorm";
                "LeakyRelu";
                "Const"; "Conv2DBackpropInput"]%string.
Proof.
  destruct training.
  - do 2 eexists. cbv zeta.
    split; [run_builder; reflexivity |].
    do 7 (split; [reflexivity |]).
    read_nodes. split; reflexivity.
  - do 2 eexists. cbv zeta.
    split; [run_builder; reflexivity |].
    do 7 (split; [reflexivity |]).
    read_nodes. split; reflexivity.
Qed.


(** ** Runs in binary32 *)

(** The literal [0.3f] and its conversion to [int]. *)
Example three_tenths_binary32 :
  (float_lit 3 10 : Binary32.float32) = S754_finite false 10066330 (-25)
  /\ to_int (float_lit 3 10 : Binary32.float32) = 0%Z.
Proof. split; vm_compute; reflexivity. Qed.

(** [1.0f - MOMENTUM] for a momentum of [0.8f]. *)
Example decay_binary32 :
  fsub (of_int 1) (MOMENTUM (Constants := sample_constants))
  = S754_finite false 13421772 (-26).
Proof. vm_compute. reflexivity. Qed.

(** The filter [[5, 5, 128, 256]] of the generator: fans 3200 and 6400,
    limit [0.025f]. *)
Example GlorotUniform_filter_binary32 :
  value_of (GlorotUniform root_scope [5; 5; 128; 256]%Z
              (empty_graph (F := Binary32.float32)))
  = Some (OpAdd
            (OpMultiply
               (OpRandomUniform 1
                  (OpConstI DT_INT64 [4%Z] [5; 5; 128; 256]%Z) DT_FLOAT)
               (OpConstF [] [S754_finite false 13421773 (-28)]))
            (OpConstF [] [S754_finite true 13421773 (-29)])).
Proof. vm_compute. reflexivity. Qed.

(** A shape of rank 1 makes the constructor read [shape_vec[1]] out of
    range. *)
Example GlorotUniform_rank1_binary32 :
  GlorotUniform root_scope [5%Z] (empty_graph (F := Binary32.float32))
  = Err IndexOutOfRange.
Proof. vm_compute. reflexivity. Qed.

(** The generator, built and run once in training mode on a batch of 4:
    66 nodes for the constructor, 65 for the forward pass, 6 update ops, and
    an output of shape [[4, 28, 28, 1]]. *)
Example Generator_run_binary32 :
  match Generator.new (K := sample_constants) root_scope empty_graph with
  | Ok (generator, g) =>
      match Generator.Build (K := sample_constants) generator root_scope 4 true g with
      | Ok (output, g') =>
          Some (List.length (nodes g),
                List.length (nodes g') - List.length (nodes g),
                List.length (update_ops g'),
                static_shape output)%nat
      | Err _ => None
      end
  | Err _ => None
  end
  = Some (66, 65, 6, Some [4; 28; 28; 1]%Z)%nat.
Proof. vm_compute. reflexivity. Qed.


(** * Further properties *)

(** ** Elementwise operations on particular shapes *)

Section BroadcastFacts.

Lemma broadcast2_same (f : R -> R -> R) (a b : Tensor) :
  dims a = dims b ->
  dims (broadcast2 f a b) = dims a
  /\ forall i, valid_index (dims a) i ->
               elem (broadcast2 f a b) i = f (elem a i) (elem b i).
Proof.
  intros Hd. cbn [dims elem broadcast2]. rewrite <- Hd. split.
  - apply broadcast_dims_same.
  - intros i Hi. rewrite (broadcast_index_valid Hi). reflexivity.
Qed.

Lemma skipn_all_but_one (k : nat) (i : list nat) :
  exists a, skipn (List.length i) (k :: i) = [a].
Proof.
  revert k. induction i as [| k' i IH]; intros k.
  - exists k. reflexivity.
  - destruct (IH k') as [a Ha]. exists a. exact Ha.
Qed.

Lemma broadcast_index_one (i : list nat) :
  broadcast_index [1%nat] i = match i with [] => [] | _ => [0%nat] end.
Proof.
  unfold broadcast_index. destruct i as [| k i]; [reflexivity |].
  replace (List.length (k :: i) - List.length [1%nat])%nat
    with (List.length i) by (simpl; lia).
  destruct (skipn_all_but_one k i) as [a ->]. reflexivity.
Qed.

(** An operand that is a vector of one element [v]. *)
Lemma broadcast2_one (f : R -> R -> R) (a : Tensor) (v : R) :
  dims a <> [] ->
  dims (broadcast2 f a (const_tensor [1%Z] [v])) = dims a
  /\ forall i, valid_index (dims a) i ->
               elem (broadcast2 f a (const_tensor [1%Z] [v])) i = f (elem a i) v.
Proof.
  intros Ha. cbn [dims elem broadcast2]. split.
  - apply broadcast_dims_one, Ha.
  - intros i Hi. rewrite (broadcast_index_valid Hi).
    change (dims (const_tensor [1%Z] [v])) with [1%nat].
    rewrite broadcast_index_one. destruct i; reflexivity.
Qed.

Lemma broadcast_dims_row (b u : nat) :
  broadcast_dims [b; u] [u] = [b; u].
Proof.
  unfold broadcast_dims, pad. simpl.
  destruct (Nat.eqb_spec b 1) as [-> | _];
    destruct (Nat.eqb u 1); reflexivity.
Qed.

Lemma broadcast_index_row (u j k : nat) :
  (k < u)%nat -> broadcast_index [u] [j; k] = [k].
Proof.
  intros Hk. unfold broadcast_index. simpl.
  destruct (Nat.eqb_spec u 1) as [-> | _]; [f_equal; lia | reflexivity].
Qed.

(** A matrix and a vector as long as its rows. *)
Lemma broadcast2_row (f : R -> R -> R) (a b : Tensor) (n u : nat) :
  dims a = [n; u] ->
  dims b = [u] ->
  dims (broadcast2 f a b) = [n; u]
  /\ forall j k, (j < n)%nat -> (k < u)%nat ->
                 elem (broadcast2 f a b) [j; k] = f (elem a [j; k]) (elem b [k]).
Proof.
  intros Ha Hb. cbn [dims elem broadcast2]. rewrite Ha, Hb. split.
  - apply broadcast_dims_row.
  - intros j k Hj Hk.
    rewrite (@broadcast_index_valid [n; u] [j; k])
      by (repeat constructor; assumption).
    rewrite (broadcast_index_row j Hk). reflexivity.
Qed.

End BroadcastFacts.

(** ** What the normalization computes *)

Section NormalizationValues.

Local Open Scope R_scope.

(** The tensor [x * inv + (offset - mean * inv)] on a matrix [x] and
    statistics as long as its rows. *)
Lemma normalize_rows (X M V B G : Tensor) (e : R) (n u : nat) :
  dims X = [n; u] -> dims M = [u] -> dims V = [u] ->
  dims B = [u] -> dims G = [u] ->
  let inv :=
    broadcast2 Rmult
      (map_tensor (fun r => / sqrt r)
         (broadcast2 Rplus V (const_tensor [1%Z] [e]))) G in
  let out :=
    broadcast2 Rplus (broadcast2 Rmult X inv)
      (broadcast2 Rminus B (broadcast2 Rmult M inv)) in
  dims out = [n; u]
  /\ forall j k, (j < n)%nat -> (k < u)%nat ->
       elem out [j; k]
       = (elem X [j; k] - elem M [k]) * (elem G [k] * / sqrt (elem V [k] + e))
         + elem B [k].
Proof.
  intros HX HM HV HB HG inv out. subst out inv.
  set (A := broadcast2 Rplus V (const_tensor [1%Z] [e])).
  set (Rq := map_tensor (fun r => / sqrt r) A).
  set (I := broadcast2 Rmult Rq G).
  set (T1 := broadcast2 Rmult X I).
  set (T2 := broadcast2 Rmult M I).
  set (S := broadcast2 Rminus B T2).
  assert (dims V <> []) as HVne by (rewrite HV; discriminate).
  destruct (@broadcast2_one Rplus V e HVne) as [dA eA].
  fold A in dA, eA. rewrite HV in dA, eA.
  assert (dims Rq = [u]) as dRq by exact dA.
  assert (dims Rq = dims G) as HRG by (rewrite dRq, HG; reflexivity).
  destruct (@broadcast2_same Rmult Rq G HRG) as [dI eI].
  fold I in dI, eI. rewrite dRq in dI, eI.
  destruct (@broadcast2_row Rmult X I n u HX dI) as [dT1 eT1].
  fold T1 in dT1, eT1.
  assert (dims M = dims I) as HMI by (rewrite HM, dI; reflexivity).
  destruct (@broadcast2_same Rmult M I HMI) as [dT2 eT2].
  fold T2 in dT2, eT2. rewrite HM in dT2, eT2.
  assert (dims B = dims T2) as HBT by (rewrite HB, dT2; reflexivity).
  destruct (@broadcast2_same Rminus B T2 HBT) as [dS eS].
  fold S in dS, eS. rewrite HB in dS, eS.
  destruct (@broadcast2_row Rplus T1 S n u dT1 dS) as [dO eO].
  split; [exact dO |].
  intros j k Hj Hk.
  assert (valid_index [u] [k]) as Hvk by (repeat constructor; assumption).
  rewrite (eO j k Hj Hk), (eT1 j k Hj Hk).
  rewrite (eS _ Hvk), (eT2 _ Hvk), (eI _ Hvk).
  unfold Rq. cbn [elem map_tensor].
  rewrite (eA _ Hvk).
  ring.
Qed.

End NormalizationValues.

Section BatchNormalizationValues.
Context {F : Type} {FO : FloatOps F}.

(** X1. On a matrix [x] of [n] rows and statistics, offset and scale as long
    as its rows, with epsilon a vector of one float, [BatchNormalization]
    returns a node whose value has the dimensions of [x] and holds, in row
    [j] and column [k],
    [(x[j,k] - mean[k]) * scale[k] / sqrt(variance[k] + epsilon) + offset[k]]. *)
Theorem BatchNormalization_standardizes_columns
  (scope : Scope) (x mean variance offset scale : Output F) (e : F)
  (g : Graph F) (env : Output F -> Tensor) (n u : nat) :
  dims (eval env x) = [n; u] ->
  dims (eval env mean) = [u] ->
  dims (eval env variance) = [u] ->
  dims (eval env offset) = [u] ->
  dims (eval env scale) = [u] ->
  exists out g',
    BatchNormalization scope x mean variance offset scale (OpConstF [1%Z] [e]) g
    = Ok (out, g')
    /\ dims (eval env out) = [n; u]
    /\ forall j k, (j < n)%nat -> (k < u)%nat ->
         elem (eval env out) [j; k]
         = ((elem (eval env x) [j; k] - elem (eval env mean) [k])
            * (elem (eval env scale) [k]
               * / sqrt (elem (eval env variance) [k] + toR e))
            + elem (eval env offset) [k])%R.
Proof.
  intros HX HM HV HB HG.
  eexists. eexists. split; [run_builder; reflexivity |].
  cbn [eval map].
  exact (@normalize_rows _ _ _ _ _ (toR e) n u HX HM HV HB HG).
Qed.

End BatchNormalizationValues.

(** ** Moments of a matrix along its first axis *)

Section ColumnFacts.

Local Open Scope R_scope.

Lemma sum_upto_affine (n : nat) (f : nat -> R) (m c b : R) :
  sum_upto n (fun j => (f j - m) * c + b)
  = (sum_upto n f - INR n * m) * c + INR n * b.
Proof.
  induction n as [| n IH]; [simpl; ring |].
  cbn [sum_upto]. rewrite IH, S_INR. ring.
Qed.

Lemma sum_upto_nonneg (n : nat) (f : nat -> R) :
  (forall j, 0 <= f j) -> 0 <= sum_upto n f.
Proof.
  intros H. induction n as [| n IH]; simpl; [lra |].
  specialize (H n). lra.
Qed.

Lemma sum_over_nonneg (mask : list bool) :
  forall (ds i : list nat) (f : list nat -> R),
    (forall j, 0 <= f j) -> 0 <= sum_over mask ds i f.
Proof.
  induction mask as [| r mask IH]; intros ds i f Hf; [apply Hf |].
  destruct ds as [| d ds]; [apply Hf |].
  destruct i as [| k i]; [apply Hf |].
  cbn [sum_over]. destruct r.
  - apply sum_upto_nonneg. intros j. apply IH. intros rest. apply Hf.
  - apply IH. intros rest. apply Hf.
Qed.

(** The mean along the first axis of a matrix, dimensions kept. *)
Lemma reduce_rows_kept (X : Tensor) (n u : nat) :
  dims X = [n; u] ->
  dims (reduce_mean X [0%Z] true) = [1%nat; u]
  /\ forall k, elem (reduce_mean X [0%Z] true) [0%nat; k] = column_mean X n k.
Proof.
  intros HX. unfold reduce_mean. rewrite HX. cbn. split; [reflexivity |].
  intros k. unfold column_mean. rewrite Nat.mul_1_r. reflexivity.
Qed.

(** Squeezing the first axis of a tensor of dimensions [[1, u]]. *)
Lemma squeeze_first (T : Tensor) (u : nat) :
  dims T = [1%nat; u] ->
  dims (squeeze T [0%Z]) = [u]
  /\ forall k, elem (squeeze T [0%Z]) [k] = elem T [0%nat; k].
Proof.
  intros HT. unfold squeeze, drop_dims. rewrite HT. cbn.
  split; reflexivity.
Qed.

Lemma broadcast_index_kept_row (u j k : nat) :
  (k < u)%nat -> broadcast_index [1%nat; u] [j; k] = [0%nat; k].
Proof.
  intros Hk. unfold broadcast_index. simpl.
  destruct (Nat.eqb_spec u 1) as [-> | _]; [repeat f_equal; lia | reflexivity].
Qed.

Lemma broadcast_dims_kept_row (n u : nat) :
  broadcast_dims [n; u] [1%nat; u] = [n; u].
Proof.
  unfold broadcast_dims, pad. simpl.
  destruct (Nat.eqb n 1) eqn:E1; destruct (Nat.eqb u 1) eqn:E2;
    try reflexivity;
    apply Nat.eqb_eq in E1; subst; reflexivity.
Qed.

Section MomentsOfMatrix.
Context {F : Type} {FO : FloatOps F}.

Lemma moments_of_matrix (env : Output F -> Tensor) (x : Output F) (n u : nat) :
  dims (eval env x) = [n; u] ->
  let m := eval env (mean (moments_form x [0%Z] false)) in
  let v := eval env (variance (moments_form x [0%Z] false)) in
  dims m = [u] /\ dims v = [u]
  /\ forall k, (k < u)%nat ->
       elem m [k] = column_mean (eval env x) n k
       /\ elem v [k] = column_variance (eval env x) n k.
Proof.
  intros HX m v. subst m v.
  cbn [moments_form mean variance kept_mean kept_variance axes_const eval].
  set (X := eval env x) in *.
  destruct (reduce_rows_kept X HX) as [dK eK].
  set (Kp := reduce_mean X [0%Z] true) in *.
  destruct (squeeze_first Kp dK) as [dM eM].
  set (D := broadcast2 (fun a b => (a - b) * (a - b)) X Kp).
  assert (dims D = [n; u]) as dD.
  { unfold D. cbn [dims broadcast2]. rewrite HX, dK.
    apply broadcast_dims_kept_row. }
  assert (forall j k, (j < n)%nat -> (k < u)%nat ->
            elem D [j; k]
            = (elem X [j; k] - column_mean X n k)
              * (elem X [j; k] - column_mean X n k)) as eD.
  { intros j k Hj Hk. unfold D. cbn [elem broadcast2]. rewrite HX, dK.
    rewrite (@broadcast_index_valid [n; u] [j; k])
      by (repeat constructor; assumption).
    rewrite (broadcast_index_kept_row j Hk), eK. reflexivity. }
  destruct (reduce_rows_kept D dD) as [dKD eKD].
  set (KD := reduce_mean D [0%Z] true) in *.
  destruct (squeeze_first KD dKD) as [dV eV].
  split; [exact dM | split; [exact dV |]].
  intros k Hk. split.
  - rewrite eM, eK. reflexivity.
  - rewrite eV, eKD. unfold column_mean at 1, column_variance.
    f_equal. apply sum_upto_ext. intros j Hj. apply eD; assumption.
Qed.

End MomentsOfMatrix.
End ColumnFacts.

Section BatchStatistics.
Context {F : Type} {FO : FloatOps F}.

Local Open Scope R_scope.

(** X2. On a matrix of [n] rows and [u] columns, [Moments] along the axis 0
    without [keep_dims] returns two vectors of [u] elements: element [k] of
    the first is the mean of column [k], element [k] of the second is the
    mean of the squared distances of column [k] to that mean (the variance
    that divides by [n]). *)
Theorem Moments_of_matrix_columns
  (scope : Scope) (x : Output F) (g : Graph F) (env : Output F -> Tensor)
  (n u : nat) :
  dims (eval env x) = [n; u] ->
  exists moments g',
    Moments scope x [0%Z] false g = Ok (moments, g')
    /\ dims (eval env (mean moments)) = [u]
    /\ dims (eval env (variance moments)) = [u]
    /\ forall k, (k < u)%nat ->
         elem (eval env (mean moments)) [k] = column_mean (eval env x) n k
         /\ elem (eval env (variance moments)) [k]
            = column_variance (eval env x) n k.
Proof.
  intros HX. eexists. eexists. split; [run_builder; reflexivity |].
  exact (moments_of_matrix env x HX).
Qed.

Lemma column_mean_affine (T X : Tensor) (n k : nat) (m c b : R) :
  (0 < n)%nat ->
  m = column_mean X n k ->
  (forall j, (j < n)%nat -> elem T [j; k] = (elem X [j; k] - m) * c + b) ->
  column_mean T n k = b.
Proof.
  intros Hn Hm HT. unfold column_mean at 1.
  rewrite (sum_upto_ext _ (fun j => (elem X [j; k] - m) * c + b)) by exact HT.
  rewrite (sum_upto_affine n (fun j => elem X [j; k]) m c b).
  rewrite Hm. unfold column_mean.
  assert (INR n <> 0) as Hne by (apply not_0_INR; lia).
  field. exact Hne.
Qed.

End BatchStatistics.

Section ReferenceLayerValues.
Context {F : Type} {FO : FloatOps F} {K : Constants F}.

Local Open Scope R_scope.

(** X3. In training mode, on a matrix [x] of [n] rows and [u] columns, with
    gamma and beta vectors of [u] elements and epsilon a vector of one
    float, [TFBatchNormalization::Build] along the axis 0 returns a matrix of
    the same dimensions that holds
    [(x[j,k] - mean_k) * gamma[k] / sqrt(variance_k + epsilon) + beta[k]],
    where [mean_k] and [variance_k] are the mean and the variance of column
    [k] of [x]. When the matrix has a row, the mean of column [k] of the
    output is [beta[k]]. *)
Theorem TFBatchNormalization_Build_training_standardizes
  (this : TFBatchNormalization.t) (scope : Scope) (x : Output F) (e : F)
  (g : Graph F) (env : Output F -> Tensor) (n u : nat) :
  dims (eval env x) = [n; u] ->
  dims (eval env (TFBatchNormalization.gamma this)) = [u] ->
  dims (eval env (TFBatchNormalization.beta this)) = [u] ->
  exists out g',
    TFBatchNormalization.Build this scope x [0%Z] (OpConstF [1%Z] [e]) true g
    = Ok (out, g')
    /\ dims (eval env out) = [n; u]
    /\ (forall j k, (j < n)%nat -> (k < u)%nat ->
          elem (eval env out) [j; k]
          = (elem (eval env x) [j; k] - column_mean (eval env x) n k)
            * (elem (eval env (TFBatchNormalization.gamma this)) [k]
               * / sqrt (column_variance (eval env x) n k + toR e))
            + elem (eval env (TFBatchNormalization.beta this)) [k])
    /\ ((0 < n)%nat -> forall k, (k < u)%nat ->
          column_mean (eval env out) n k
          = elem (eval env (TFBatchNormalization.beta this)) [k]).
Proof.
  intros HX HG HB.
  destruct (moments_of_matrix env x HX) as [dM [dV HMV]].
  eexists. eexists. split; [run_builder; reflexivity |].
  match goal with
  | |- dims (eval env ?o) = _ /\ _ =>
      change o with
        (batchnorm_form x (mean (moments_form x [0%Z] false))
           (variance (moments_form x [0%Z] false))
           (TFBatchNormalization.beta this) (TFBatchNormalization.gamma this)
           (OpConstF [1%Z] [e]))
  end.
  set (M := mean (moments_form x [0%Z] false)) in *.
  set (V := variance (moments_form x [0%Z] false)) in *.
  unfold batchnorm_form, batchnorm_inv. cbn [eval map].
  destruct (@normalize_rows (eval env x) (eval env M) (eval env V)
              (eval env (TFBatchNormalization.beta this))
              (eval env (TFBatchNormalization.gamma this))
              (toR e) n u HX dM dV HB HG) as [dO eO].
  cbv zeta in dO, eO.
  assert (forall j k, (j < n)%nat -> (k < u)%nat ->
            elem
              (broadcast2 Rplus
                 (broadcast2 Rmult (eval env x)
                    (broadcast2 Rmult
                       (map_tensor (fun r => / sqrt r)
                          (broadcast2 Rplus (eval env V)
                             (const_tensor [1%Z] [toR e])))
                       (eval env (TFBatchNormalization.gamma this))))
                 (broadcast2 Rminus (eval env (TFBatchNormalization.beta this))
                    (broadcast2 Rmult (eval env M)
                       (broadcast2 Rmult
                          (map_tensor (fun r => / sqrt r)
                             (broadcast2 Rplus (eval env V)
                                (const_tensor [1%Z] [toR e])))
                          (eval env (TFBatchNormalization.gamma this))))))
              [j; k]
            = (elem (eval env x) [j; k] - column_mean (eval env x) n k)
              * (elem (eval env (TFBatchNormalization.gamma this)) [k]
                 * / sqrt (column_variance (eval env x) n k + toR e))
              + elem (eval env (TFBatchNormalization.beta this)) [k]) as Hout.
  { intros j k Hj Hk. rewrite (eO j k Hj Hk).
    destruct (HMV k Hk) as [-> ->]. reflexivity. }
  split; [exact dO | split; [exact Hout |]].
  intros Hn k Hk.
  apply (@column_mean_affine _ (eval env x) n k
           (column_mean (eval env x) n k)
           (elem (eval env (TFBatchNormalization.gamma this)) [k]
            * / sqrt (column_variance (eval env x) n k + toR e))
           (elem (eval env (TFBatchNormalization.beta this)) [k]) Hn eq_refl).
  intros j Hj. apply Hout; assumption.
Qed.

End ReferenceLayerValues.

(** ** What the constructors leave in the graph *)

(** Unfolds the fields of the layers. *)
Ltac read_fields :=
  cbv beta iota delta
    [TFBatchNormalization.moving_mean TFBatchNormalization.moving_variance
     TFBatchNormalization.gamma TFBatchNormalization.beta
     TFFusedBatchNorm.moving_mean TFFusedBatchNorm.moving_variance
     TFFusedBatchNorm.gamma TFFusedBatchNorm.beta
     Generator.w1 Generator.filter Generator.filter2 Generator.filter3
     Generator.batchnorm_op Generator.batchnorm1_op Generator.batchnorm2_op
     Discriminator.conv1_weights Discriminator.conv1_biases
     Discriminator.conv2_weights Discriminator.conv2_biases
     Discriminator.fc1_weights Discriminator.fc1_biases].

Ltac read_fields_in H :=
  cbv beta iota delta
    [TFBatchNormalization.moving_mean TFBatchNormalization.moving_variance
     TFBatchNormalization.gamma TFBatchNormalization.beta
     TFFusedBatchNorm.moving_mean TFFusedBatchNorm.moving_variance
     TFFusedBatchNorm.gamma TFFusedBatchNorm.beta
     Generator.w1 Generator.filter Generator.filter2 Generator.filter3
     Generator.batchnorm_op Generator.batchnorm1_op Generator.batchnorm2_op
     Discriminator.conv1_weights Discriminator.conv1_biases
     Discriminator.conv2_weights Discriminator.conv2_biases
     Discriminator.fc1_weights Discriminator.fc1_biases] in H.

(** Unfolds the builders of a hypothesis down to the graph they return. *)
Ltac run_builder_in H :=
  cbv beta iota zeta delta
    [bind ret fail lift_option emit emit_fresh AddTrainableVariable AddAssignOp
     AddUpdateOp AsNodeOut unary binary ConstFloats ConstFloat ConstFill ConstInts
     VariableOp Assign AssignSub StopGradient SquaredDifference Multiply Add Sub
     Div Rsqrt Floor Negate Exp Log1p ZerosLike OnesLike Shape GreaterEqual
     MatMul Reshape BroadcastTo BiasAdd Cast ReduceMean Squeeze SelectV2
     RandomUniform RandomNormal LeakyRelu Conv2D Conv2DBackpropInput
     FusedBatchNorm Epsilon IsTraining epsilon_ is_training_ y batch_mean
     batch_variance TFVariable TFAssign Moments mean variance
     BatchNormalization Dropout SigmoidCrossEntropyWithLogits GlorotUniform
     Conv2DTranspose TFBatchNormalization.new TFBatchNormalization.Build
     TFFusedBatchNorm.new TFFusedBatchNorm.Build Generator.new Generator.Build
     Discriminator.new Discriminator.Build
     next_id nodes trainable_variables assign_ops update_ops
     op_name WithOpName root_scope fst snd value_of dropout_bias] in H.

(** Variables are told apart by their identifiers, which the builders give
    as offsets from the first free identifier of the graph. *)
Lemma all_distinct_NoDup (l : list nat) : all_distinct l = true -> NoDup l.
Proof.
  induction l as [| x r IH]; simpl; intros H; [constructor |].
  apply andb_prop in H as [Hx Hr]. constructor; [| apply IH, Hr].
  intros Hin. apply negb_true_iff in Hx.
  assert (existsb (Nat.eqb x) r = true) as E; [| congruence].
  apply existsb_exists. exists x. split; [exact Hin | apply Nat.eqb_refl].
Qed.

Lemma NoDup_by_offset {F : Type} (n : nat) (ks : list nat) (l : list (Output F)) :
  map (@variable_id F) l = map (fun k => Some (k + n)%nat) ks ->
  all_distinct ks = true -> NoDup l.
Proof.
  intros Hl Hks. apply (NoDup_map_inv (@variable_id F)). rewrite Hl.
  clear Hl. apply all_distinct_NoDup in Hks.
  induction Hks as [| k ks Hk Hks IH]; simpl; constructor; [| exact IH].
  intros Hin. apply in_map_iff in Hin as [k' [E Hk']]. injection E as E.
  assert (k' = k) as -> by lia. contradiction.
Qed.

Lemma not_In_by_offset {F : Type} (n k : nat) (ks : list nat) (v : Output F)
  (l : list (Output F)) :
  variable_id v = Some (k + n)%nat ->
  map (@variable_id F) l = map (fun k => Some (k + n)%nat) ks ->
  existsb (Nat.eqb k) ks = false -> ~ In v l.
Proof.
  intros Hv Hl Hk Hin.
  apply (in_map (@variable_id F)) in Hin. rewrite Hl, Hv in Hin.
  apply in_map_iff in Hin as [k' [E Hk']]. injection E as E.
  assert (k' = k) as -> by lia.
  assert (existsb (Nat.eqb k) ks = true) as E'; [| congruence].
  apply existsb_exists. exists k. split; [exact Hk' | apply Nat.eqb_refl].
Qed.

(** The offset of an identifier [S (S (... n))] from [n]. *)
Ltac offset_of t n :=
  lazymatch t with
  | n => constr:(O)
  | S ?t' => let k := offset_of t' n in constr:(S k)
  end.

Ltac offsets_of l n :=
  lazymatch l with
  | nil => constr:(@nil nat)
  | OpVariable ?id _ _ :: ?r =>
      let k := offset_of id n in
      let ks := offsets_of r n in
      constr:(k :: ks)
  end.

Ltac distinct_variables n :=
  lazymatch goal with
  | |- NoDup ?l =>
      let ks := offsets_of l n in
      apply (@NoDup_by_offset _ n ks l); reflexivity
  end.

Ltac differ_by_id n :=
  cbn [map fst];
  lazymatch goal with
  | |- ~ In (OpVariable ?id ?s ?d) ?l =>
      let k := offset_of id n in
      let ks := offsets_of l n in
      apply (@not_In_by_offset _ n k ks (OpVariable id s d) l); reflexivity
  end.

Lemma snoc_all_app {A : Type} (added l : list A) : snoc_all l added = l ++ added.
Proof.
  unfold snoc_all. revert l.
  induction added as [| n added IH]; intros l; simpl.
  - symmetry. apply app_nil_r.
  - rewrite IH, <- app_assoc. reflexivity.
Qed.

(** Solves [exists l, chain = base ++ l /\ P l] for a chain
    [((base ++ [a]) ++ [b]) ++ ...] of any element type. *)
Ltac read_added :=
  lazymatch goal with
  | |- exists added, ?chain = ?base ++ added /\ _ =>
      let p := appended chain base in
      let l := eval cbv beta iota delta [rev app] in (rev p) in
      exists l; split; [exact (snoc_all_app l base) |]
  end.

Section ConstructorFacts.
Context {F : Type} {FO : FloatOps F} {K : Constants F}.

(** X4. For every shape and graph, the constructor of the reference
    normalization layer creates four distinct variables of that shape, in
    the order moving mean, moving variance, gamma, beta; it registers gamma
    and beta, and only them, as trainable, with the shape; it registers one
    initial assignment for each variable, in the same order, of zeros, zeros,
    ones and zeros shaped like the variable; it registers no update op. *)
Theorem TFBatchNormalization_new_state (scope : Scope) (shape : list Z)
  (g : Graph F) :
  exists layer g',
    TFBatchNormalization.new scope shape g = Ok (layer, g')
    /\ let moving_mean := TFBatchNormalization.moving_mean layer in
       let moving_variance := TFBatchNormalization.moving_variance layer in
       let gamma := TFBatchNormalization.gamma layer in
       let beta := TFBatchNormalization.beta layer in
       let vars := [moving_mean; moving_variance; gamma; beta] in
       (exists added, nodes g' = nodes g ++ added /\ variables_of added = vars)
       /\ NoDup vars
       /\ Forall (fun v => static_shape v = Some shape) vars
       /\ trainable_variables g'
          = trainable_variables g ++ [(gamma, shape); (beta, shape)]
       /\ ~ In moving_mean [gamma; beta]
       /\ ~ In moving_variance [gamma; beta]
       /\ assign_ops g'
          = assign_ops g
            ++ [OpAssign moving_mean (OpZerosLike moving_mean);
                OpAssign moving_variance (OpZerosLike moving_variance);
                OpAssign gamma (OpOnesLike gamma);
                OpAssign beta (OpZerosLike beta)]
       /\ update_ops g' = update_ops g.
Proof.
  destruct g as [n nd tv ao uo].
  eexists. eexists. split; [run_builder; reflexivity |].
  read_fields. cbv zeta.
  split; [read_nodes; reflexivity |].
  split; [distinct_variables n |].
  split; [repeat constructor |].
  split; [cbn [trainable_variables]; rewrite <- app_assoc; reflexivity |].
  split; [differ_by_id n |].
  split; [differ_by_id n |].
  split; [cbn [assign_ops]; rewrite <- !app_assoc; reflexivity |].
  reflexivity.
Qed.

(** X5. On the same scope, shape and graph, the constructor of the fused
    layer and the constructor of the reference layer return the same four
    variables and leave the same graph, but for the names of gamma and beta,
    which are [fused_gamma] and [fused_beta] instead of [gamma] and
    [beta]: the same nodes in the same order, the same trainable variables,
    the same initial assignments and no update op. *)
Theorem TFFusedBatchNorm_new_like_reference (scope : Scope) (shape : list Z)
  (g : Graph F) :
  exists fused reference g1 g2,
    TFFusedBatchNorm.new scope shape g = Ok (fused, g1)
    /\ TFBatchNormalization.new scope shape g = Ok (reference, g2)
    /\ TFFusedBatchNorm.moving_mean fused
       = TFBatchNormalization.moving_mean reference
    /\ TFFusedBatchNorm.moving_variance fused
       = TFBatchNormalization.moving_variance reference
    /\ TFFusedBatchNorm.gamma fused = TFBatchNormalization.gamma reference
    /\ TFFusedBatchNorm.beta fused = TFBatchNormalization.beta reference
    /\ next_id g1 = next_id g2
    /\ map (@node_op F) (nodes g1) = map (@node_op F) (nodes g2)
    /\ trainable_variables g1 = trainable_variables g2
    /\ assign_ops g1 = assign_ops g2
    /\ update_ops g1 = update_ops g2
    /\ (exists added1 added2,
          nodes g1 = nodes g ++ added1 /\ nodes g2 = nodes g ++ added2
          /\ map (@node_name F) (filter (fun n => is_variable (node_op n)) added1)
             = [op_name scope; op_name scope;
                Some "fused_gamma"%string; Some "fused_beta"%string]
          /\ map (@node_name F) (filter (fun n => is_variable (node_op n)) added2)
             = [op_name scope; op_name scope;
                Some "gamma"%string; Some "beta"%string]).
Proof.
  destruct g as [n nd tv ao uo].
  eexists. eexists. eexists. eexists.
  split; [run_builder; reflexivity |].
  split; [run_builder; reflexivity |].
  read_fields.
  repeat (split; [reflexivity |]).
  split; [cbn [nodes]; rewrite !map_app; reflexivity |].
  repeat (split; [reflexivity |]).
  eexists. eexists.
  split; [cbn [nodes]; match goal with
          | |- ?chain = ?base ++ _ =>
              let p := appended chain base in
              let l := eval cbv beta iota delta [rev app] in (rev p) in
              exact (snocs_app l base)
          end |].
  split; [cbn [nodes]; match goal with
          | |- ?chain = ?base ++ _ =>
              let p := appended chain base in
              let l := eval cbv beta iota delta [rev app] in (rev p) in
              exact (snocs_app l base)
          end |].
  split; reflexivity.
Qed.

End ConstructorFacts.

Section InitialInference.
Context {F : Type} {FO : FloatOps F} {K : Constants F}.

Local Open Scope R_scope.

(** The layer and the initial assignments the constructor leaves. *)
Lemma TFBatchNormalization_new_run (scope : Scope) (shape : list Z)
  (g : Graph F) :
  let mm := OpVariable (next_id g) shape DT_FLOAT in
  let mv := OpVariable (3 + next_id g) shape DT_FLOAT in
  let ga := OpVariable (6 + next_id g) shape DT_FLOAT in
  let be := OpVariable (9 + next_id g) shape DT_FLOAT in
  exists g',
    TFBatchNormalization.new scope shape g
    = Ok ({| TFBatchNormalization.moving_mean := mm;
             TFBatchNormalization.moving_variance := mv;
             TFBatchNormalization.gamma := ga;
             TFBatchNormalization.beta := be |}, g')
    /\ assign_ops g'
       = assign_ops g
         ++ [OpAssign mm (OpZerosLike mm); OpAssign mv (OpZerosLike mv);
             OpAssign ga (OpOnesLike ga); OpAssign be (OpZerosLike be)].
Proof.
  cbv zeta. eexists. split; [run_builder; reflexivity |].
  cbn [assign_ops]. rewrite <- !app_assoc. reflexivity.
Qed.

Lemma initial_value (env : Output F -> Tensor) (v : Output F) (c : R) (u k : nat) :
  tensor_eq (eval env v) (map_tensor (fun _ => c) (eval env v)) ->
  dims (eval env v) = [u] -> (k < u)%nat ->
  elem (eval env v) [k] = c.
Proof.
  intros [_ H] Hd Hk. rewrite H; [reflexivity |].
  rewrite Hd. repeat constructor. exact Hk.
Qed.

Unset Implicit Arguments.

(** X6. A reference normalization layer used in inference mode right after
    its initial assignments have run, on a matrix [x] whose rows are as long
    as the layer's variables: the moving mean and the moving variance are
    zero, gamma is one and beta is zero, so that the output is
    [x[j,k] / sqrt(epsilon)] in every position. The moving variance starts
    at zero, not at one: the output is the input scaled by
    [1 / sqrt(epsilon)]. *)
Theorem TFBatchNormalization_initial_inference_scales
  (scope scope' : Scope) (shape axes : list Z) (g g1 : Graph F)
  (layer : TFBatchNormalization.t) (x : Output F) (e : F)
  (env : Output F -> Tensor) (n u : nat) :
  TFBatchNormalization.new scope shape g = Ok (layer, g1) ->
  holds_initial_values env g1 ->
  dims (eval env x) = [n; u] ->
  Forall (fun v => dims (eval env v) = [u])
    [TFBatchNormalization.moving_mean layer;
     TFBatchNormalization.moving_variance layer;
     TFBatchNormalization.gamma layer; TFBatchNormalization.beta layer] ->
  exists out g2,
    TFBatchNormalization.Build layer scope' x axes (OpConstF [1%Z] [e]) false g1
    = Ok (out, g2)
    /\ dims (eval env out) = [n; u]
    /\ forall j k, (j < n)%nat -> (k < u)%nat ->
         elem (eval env out) [j; k] = elem (eval env x) [j; k] * / sqrt (toR e).
Proof.
  intros Hnew Hinit HX Hdims.
  destruct (TFBatchNormalization_new_run scope shape g) as [g' [Hrun Hassign]].
  cbv zeta in Hrun, Hassign.
  rewrite Hrun in Hnew. injection Hnew as <- <-.
  unfold holds_initial_values in Hinit. rewrite Hassign in Hinit.
  apply Forall_app in Hinit as [_ Hinit].
  read_fields_in Hdims.
  set (mm := OpVariable (next_id g) shape DT_FLOAT) in *.
  set (mv := OpVariable (3 + next_id g) shape DT_FLOAT) in *.
  set (ga := OpVariable (6 + next_id g) shape DT_FLOAT) in *.
  set (be := OpVariable (9 + next_id g) shape DT_FLOAT) in *.
  inversion Hinit as [| ? ? H1 Hi1]; subst.
  inversion Hi1 as [| ? ? H2 Hi2]; subst.
  inversion Hi2 as [| ? ? H3 Hi3]; subst.
  inversion Hi3 as [| ? ? H4 _]; subst.
  cbn [run_update] in H1, H2, H3, H4.
  change (eval env (OpZerosLike mm))
    with (map_tensor (fun _ => 0) (eval env mm)) in H1.
  change (eval env (OpZerosLike mv))
    with (map_tensor (fun _ => 0) (eval env mv)) in H2.
  change (eval env (OpOnesLike ga))
    with (map_tensor (fun _ => 1) (eval env ga)) in H3.
  change (eval env (OpZerosLike be))
    with (map_tensor (fun _ => 0) (eval env be)) in H4.
  inversion Hdims as [| ? ? dM Hd1]; subst.
  inversion Hd1 as [| ? ? dV Hd2]; subst.
  inversion Hd2 as [| ? ? dG Hd3]; subst.
  inversion Hd3 as [| ? ? dB _]; subst.
  eexists. eexists. split; [run_builder; reflexivity |].
  cbn [eval map].
  destruct (@normalize_rows (eval env x) (eval env mm) (eval env mv)
              (eval env be) (eval env ga) (toR e) n u HX dM dV dB dG)
    as [dO eO].
  cbv zeta in dO, eO.
  split; [exact dO |].
  intros j k Hj Hk. refine (eq_trans (eO j k Hj Hk) _).
  rewrite (initial_value env mm H1 dM Hk), (initial_value env mv H2 dV Hk),
    (initial_value env ga H3 dG Hk), (initial_value env be H4 dB Hk).
  rewrite Rplus_0_l. ring.
Qed.

Set Implicit Arguments.

End InitialInference.

(** ** The constructors of the two networks *)

(** Finds an element in a list given by its elements. *)
Ltac find_in_list :=
  first [left; reflexivity | right; find_in_list].

(** Two lists given by their elements have the same members. *)
Ltac same_members :=
  let v := fresh "v" in
  let H := fresh "H" in
  intros v; split; simpl; intros H;
  repeat (destruct H as [H | H]; [subst v; find_in_list |]);
  contradiction.

Section NetworkConstructors.
Context {F : Type} {FO : FloatOps F} {K : Constants F}.

(** X7. For every graph and every value of the header constants, the
    constructor of the generator returns. It creates sixteen distinct
    variables: the dense weight, the three filters, and the moving mean, the
    moving variance, gamma and beta of each of the three normalization
    layers. Each of them receives exactly one initial assignment, in the
    order of creation. Ten are registered as trainable, each with the shape
    it was created with: the weight, the filters, and the gamma and beta of
    each layer; the six moving statistics are not. No update op is
    registered. *)
Theorem Generator_new_state (scope : Scope) (g : Graph F) :
  exists gen g' vars,
    Generator.new scope g = Ok (gen, g')
    /\ let bn := Generator.batchnorm_op gen in
       let bn1 := Generator.batchnorm1_op gen in
       let bn2 := Generator.batchnorm2_op gen in
       let moving :=
         [TFBatchNormalization.moving_mean bn;
          TFBatchNormalization.moving_variance bn;
          TFFusedBatchNorm.moving_mean bn1; TFFusedBatchNorm.moving_variance bn1;
          TFFusedBatchNorm.moving_mean bn2; TFFusedBatchNorm.moving_variance bn2] in
       (exists added, nodes g' = nodes g ++ added /\ variables_of added = vars)
       /\ List.length vars = 16%nat
       /\ NoDup vars
       /\ (exists inits,
             assign_ops g' = assign_ops g ++ inits
             /\ map assigned_ref inits = map Some vars)
       /\ (exists registered,
             trainable_variables g' = trainable_variables g ++ registered
             /\ registered
                = [(Generator.w1 gen, [NOISE_DIM; UNITS]);
                   (Generator.filter gen, [5; 5; 128; 256]%Z);
                   (Generator.filter2 gen, [5; 5; 64; 128]%Z);
                   (Generator.filter3 gen, [5; 5; NUM_CHANNELS; 64]%Z);
                   (TFBatchNormalization.gamma bn, [UNITS]);
                   (TFBatchNormalization.beta bn, [UNITS]);
                   (TFFusedBatchNorm.gamma bn1, [128%Z]);
                   (TFFusedBatchNorm.beta bn1, [128%Z]);
                   (TFFusedBatchNorm.gamma bn2, [64%Z]);
                   (TFFusedBatchNorm.beta bn2, [64%Z])]
             /\ Forall (fun vs => static_shape (fst vs) = Some (snd vs)) registered
             /\ Forall (fun v => In v vars /\ ~ In v (map fst registered)) moving)
       /\ update_ops g' = update_ops g.
Proof.
  destruct g as [n nd tv ao uo].
  eexists. eexists. eexists.
  split; [run_builder; rewrite !glorot_fans_rank4; run_builder; reflexivity |].
  read_fields. cbv zeta.
  split; [read_nodes;
          cbv beta iota delta [variables_of filter map is_variable node_op];
          reflexivity |].
  split; [reflexivity |].
  split; [distinct_variables n |].
  split; [cbn [assign_ops]; read_added; reflexivity |].
  split; [cbn [trainable_variables]; read_added |].
  - split; [reflexivity |].
    split; [repeat constructor |].
    repeat (apply Forall_cons || apply Forall_nil);
      (split; [simpl; find_in_list | differ_by_id n]).
  - reflexivity.
Qed.

End NetworkConstructors.

(** *** The flattened size *)

Section FlattenedSize.

Local Open Scope Z_scope.



Context {F : Type} {K : Constants F}.



End FlattenedSize.

Section DiscriminatorConstructor.
Context {F : Type} {FO : FloatOps F} {K : Constants F} {L : FloatLaws F}.




End DiscriminatorConstructor.

(** ** What building a network leaves in the graph *)

Section NetworkBuilds.
Context {F : Type} {FO : FloatOps F} {K : Constants F}.

(** X9. For every generator, batch size and graph, [Generator::Build]
    creates no variable and registers neither a trainable variable nor an
    initial assignment. In training mode it registers six update ops, all of
    the form [moving -= (moving - batch) * (1 - MOMENTUM)], that write, in
    this order, the moving mean and the moving variance of the reference
    layer, of the first fused layer and of the second fused layer; in
    inference mode it registers none. *)
Theorem Generator_Build_registers (this : Generator.t) (scope : Scope)
  (batch_size : Z) (g : Graph F) :
  let bn := Generator.batchnorm_op this in
  let bn1 := Generator.batchnorm1_op this in
  let bn2 := Generator.batchnorm2_op this in
  (exists out g' ups,
      Generator.Build this scope batch_size true g = Ok (out, g')
      /\ (exists added, nodes g' = nodes g ++ added /\ variables_of added = [])
      /\ trainable_variables g' = trainable_variables g
      /\ assign_ops g' = assign_ops g
      /\ update_ops g' = update_ops g ++ ups
      /\ map assigned_ref ups
         = map Some
             [TFBatchNormalization.moving_mean bn;
              TFBatchNormalization.moving_variance bn;
              TFFusedBatchNorm.moving_mean bn1;
              TFFusedBatchNorm.moving_variance bn1;
              TFFusedBatchNorm.moving_mean bn2;
              TFFusedBatchNorm.moving_variance bn2]
      /\ Forall (fun op =>
                   exists moving batch,
                     op = moving_update moving batch (fsub (of_int 1) MOMENTUM))
                ups)
  /\ (exists out g',
        Generator.Build this scope batch_size false g = Ok (out, g')
        /\ (exists added, nodes g' = nodes g ++ added /\ variables_of added = [])
        /\ trainable_variables g' = trainable_variables g
        /\ assign_ops g' = assign_ops g
        /\ update_ops g' = update_ops g).
Proof.
  cbv zeta. destruct g as [n nd tv ao uo]. split.
  - eexists. eexists. eexists.
    split; [run_builder; reflexivity |].
    split; [read_nodes; reflexivity |].
    split; [reflexivity |].
    split; [reflexivity |].
    split; [cbn [update_ops];
            match goal with
            | |- ?chain = ?base ++ _ =>
                let p := appended chain base in
                let l := eval cbv beta iota delta [rev app] in (rev p) in
                exact (snoc_all_app l base)
            end |].
    split; [reflexivity |].
    repeat (apply Forall_cons || apply Forall_nil);
      eexists; eexists; reflexivity.
  - eexists. eexists.
    split; [run_builder; reflexivity |].
    split; [read_nodes; reflexivity |].
    repeat split; reflexivity.
Qed.

(** X10. For every discriminator, input, batch size and graph,
    [Discriminator::Build] returns
    [BiasAdd(MatMul(Reshape(dropout_2, [batch_size, s1]), fc1_weights),
    fc1_biases)], where [s1] is the [int] that
    [s1 = std::pow(s1, 2) * 128] stores for [s1 = IMAGE_SIZE / 4], and
    [dropout_2] is a dropout term whose [keep_prob] is the float of
    [1 - (int) 0.3f]. It has no training flag: both dropouts are always part
    of the graph, each with a uniform draw of its own. It creates no
    variable and registers nothing: no trainable variable, no initial
    assignment and no update op. *)
Theorem Discriminator_Build_registers_nothing (this : Discriminator.t)
  (scope : Scope) (inputs : Output F) (batch_size : Z) (g : Graph F) :
  let keep_prob : F := of_int (int_sub 1 (to_int (float_lit 3 10 : F))) in
  exists out g' relu_2 id,
    Discriminator.Build this scope inputs batch_size g = Ok (out, g')
    /\ out
       = OpBiasAdd
           (OpMatMul
              (OpReshape (dropout_form id relu_2 keep_prob keep_prob)
                 (OpConstI DT_INT32 [2%Z] [batch_size; Discriminator.flattened_size]))
              (Discriminator.fc1_weights this))
           (Discriminator.fc1_biases this)
    /\ (exists added,
          nodes g' = nodes g ++ added
          /\ op_types added
             = ["Conv2D"; "BiasAdd"; "LeakyRelu";
                "Shape"; "RandomUniform"; "Const"; "Add"; "Floor"; "Const";
                "Div"; "Multiply";
                "Conv2D"; "BiasAdd"; "LeakyRelu";
                "Shape"; "RandomUniform"; "Const"; "Add"; "Floor"; "Const";
                "Div"; "Multiply";
                "Const"; "Reshape"; "MatMul"; "BiasAdd"]%string
          /\ variables_of added = []
          /\ node_name (last added {| node_name := None; node_op := out |})
             = Some "discriminator"%string)
    /\ trainable_variables g' = trainable_variables g
    /\ assign_ops g' = assign_ops g
    /\ update_ops g' = update_ops g.
Proof.
  cbv zeta. destruct g as [n nd tv ao uo].
  eexists. eexists. eexists. eexists.
  split; [run_builder; reflexivity |].
  split; [reflexivity |].
  split; [read_nodes; repeat split; reflexivity |].
  repeat split; reflexivity.
Qed.

(** X11. A generator built right after its construction, for every graph,
    batch size and value of the header constants: in training mode the
    output depends on exactly the ten trainable variables the constructor
    registered, and on none of the moving statistics, which only the update
    ops read and write; in inference mode it depends on exactly the sixteen
    variables the constructor created and initialised. Every update op
    writes a variable of the constructor that is not trainable. *)
Theorem Generator_Build_reads_constructed (scope scope' : Scope)
  (batch_size : Z) (g : Graph F) :
  exists gen g1 registered vars,
    Generator.new scope g = Ok (gen, g1)
    /\ trainable_variables g1 = trainable_variables g ++ registered
    /\ (exists added, nodes g1 = nodes g ++ added /\ variables_of added = vars)
    /\ (exists inits,
          assign_ops g1 = assign_ops g ++ inits
          /\ map assigned_ref inits = map Some vars)
    /\ List.length registered = 10%nat
    /\ List.length vars = 16%nat
    /\ (exists out g2 ups,
          Generator.Build gen scope' batch_size true g1 = Ok (out, g2)
          /\ (forall v, In v (variables_read out) <-> In v (map fst registered))
          /\ update_ops g2 = update_ops g1 ++ ups
          /\ Forall (fun op =>
                       exists ref,
                         assigned_ref op = Some ref
                         /\ In ref vars /\ ~ In ref (map fst registered))
                    ups)
    /\ (exists out g2,
          Generator.Build gen scope' batch_size false g1 = Ok (out, g2)
          /\ forall v, In v (variables_read out) <-> In v vars).
Proof.
  destruct g as [n nd tv ao uo].
  eexists. eexists. eexists. eexists.
  split; [run_builder; rewrite !glorot_fans_rank4; run_builder; reflexivity |].
  split; [cbn [trainable_variables];
          match goal with
          | |- ?chain = ?base ++ _ =>
              let p := appended chain base in
              let l := eval cbv beta iota delta [rev app] in (rev p) in
              exact (snoc_all_app l base)
          end |].
  split; [read_nodes;
          cbv beta iota delta [variables_of filter map is_variable node_op];
          reflexivity |].
  split; [cbn [assign_ops]; read_added; reflexivity |].
  split; [reflexivity |].
  split; [reflexivity |].
  split.
  - eexists. eexists. eexists.
    split; [run_builder; read_fields; reflexivity |].
    split; [cbv beta iota delta [variables_read app map fst]; same_members |].
    split; [cbn [update_ops];
            match goal with
            | |- ?chain = ?base ++ _ =>
                let p := appended chain base in
                let l := eval cbv beta iota delta [rev app] in (rev p) in
                exact (snoc_all_app l base)
            end |].
    repeat (apply Forall_cons || apply Forall_nil);
      (eexists; split; [reflexivity |];
       split; [cbv beta iota delta [In]; find_in_list | differ_by_id n]).
  - eexists. eexists.
    split; [run_builder; read_fields; reflexivity |].
    cbv beta iota delta [variables_read app]. same_members.
Qed.

(** X12. A generator built right after its construction, in both modes:
    [Generator::Build] adds two [BroadcastTo] nodes, a zero and a one
    broadcast to 64 elements ([offset2] and [scale2]), and nothing reads
    them: neither the output nor any update op contains a [BroadcastTo]
    node. The second fused layer normalizes with its own gamma and beta. *)
Theorem Generator_Build_broadcasts_are_unused (scope scope' : Scope)
  (batch_size : Z) (training : bool) (g : Graph F) :
  exists gen g1 out g2,
    Generator.new scope g = Ok (gen, g1)
    /\ Generator.Build gen scope' batch_size training g1 = Ok (out, g2)
    /\ (exists added,
          nodes g2 = nodes g1 ++ added
          /\ filter is_broadcast (map (@node_op F) added)
             = [OpBroadcastTo (OpConstF [] [of_int 0])
                  (OpConstI DT_INT32 [1%Z] [64%Z]);
                OpBroadcastTo (OpConstF [] [of_int 1])
                  (OpConstI DT_INT32 [1%Z] [64%Z])])
    /\ occurs is_broadcast out = false
    /\ (exists ups,
          update_ops g2 = update_ops g1 ++ ups
          /\ forallb (fun op => negb (occurs is_broadcast op)) ups = true).
Proof.
  destruct g as [n nd tv ao uo].
  destruct training.
  - eexists. eexists. eexists. eexists.
    split; [run_builder; rewrite !glorot_fans_rank4; run_builder;
            reflexivity |].
    split; [run_builder; read_fields; reflexivity |].
    split; [read_nodes; reflexivity |].
    split; [reflexivity |].
    cbn [update_ops]. read_added. reflexivity.
  - eexists. eexists. eexists. eexists.
    split; [run_builder; rewrite !glorot_fans_rank4; run_builder;
            reflexivity |].
    split; [run_builder; read_fields; reflexivity |].
    split; [read_nodes; reflexivity |].
    split; [reflexivity |].
    cbn [update_ops]. exists []. split; [symmetry; apply app_nil_r | reflexivity].
Qed.

End NetworkBuilds.

Section DiscriminatorBuild.
Context {F : Type} {FO : FloatOps F} {K : Constants F}.

(** X13. A discriminator built right after its construction, for every
    input, graph, batch size and value of the header constants: the output
    depends on the variables of the input and on exactly the six variables
    the constructor created and initialised; the input is reshaped to rows
    of [s1] elements and multiplied by the dense weight, which the
    constructor created with [s1] rows and one column, and the bias added
    has one element. Both times [s1] is the [int] that
    [s1 = std::pow(s1, 2) * 128] stores for [s1 = IMAGE_SIZE / 4]: the two
    agree whatever the image size, also where the product does not fit an
    [int]. *)
Theorem Discriminator_Build_reads_constructed (scope scope' : Scope)
  (inputs : Output F) (batch_size : Z) (g : Graph F) :
  let keep_prob : F := of_int (int_sub 1 (to_int (float_lit 3 10 : F))) in
  exists d g1 vars out g2 relu_2 id,
    Discriminator.new scope g = Ok (d, g1)
    /\ (exists added, nodes g1 = nodes g ++ added /\ variables_of added = vars)
    /\ (exists inits,
          assign_ops g1 = assign_ops g ++ inits
          /\ map assigned_ref inits = map Some vars)
    /\ List.length vars = 6%nat
    /\ Discriminator.Build d scope' inputs batch_size g1 = Ok (out, g2)
    /\ (forall v,
          In v (variables_read out)
          <-> In v (variables_read inputs) \/ In v vars)
    /\ out
       = OpBiasAdd
           (OpMatMul
              (OpReshape (dropout_form id relu_2 keep_prob keep_prob)
                 (OpConstI DT_INT32 [2%Z] [batch_size; Discriminator.flattened_size]))
              (Discriminator.fc1_weights d))
           (Discriminator.fc1_biases d)
    /\ static_shape (Discriminator.fc1_weights d)
       = Some [Discriminator.flattened_size; 1%Z]
    /\ static_shape (Discriminator.fc1_biases d) = Some [1%Z].
Proof.
  cbv zeta. destruct g as [n nd tv ao uo].
  eexists. eexists. eexists. eexists. eexists. eexists. eexists.
  split; [run_builder; rewrite !glorot_fans_rank4; run_builder;
          rewrite glorot_fans_rank2; run_builder; reflexivity |].
  split; [read_nodes;
          cbv beta iota delta [variables_of filter map is_variable node_op];
          reflexivity |].
  split; [cbn [assign_ops]; read_added; reflexivity |].
  split; [reflexivity |].
  split; [run_builder; read_fields; reflexivity |].
  split.
  - intros v. cbn [variables_read]. rewrite !in_app_iff. cbn [In]. tauto.
  - repeat split; reflexivity.
Qed.

End DiscriminatorBuild.

(** ** The sigmoid cross entropy *)

Section LogisticFacts.

Local Open Scope R_scope.

Lemma relu_selected (x : R) :
  (if Req_dec_T (indicator_ge x 0) 0 then 0 else x) = Rmax x 0.
Proof.
  unfold indicator_ge.
  destruct (Rle_dec 0 x) as [H | H].
  - destruct (Req_dec_T 1 0) as [E | _]; [lra |].
    rewrite Rmax_left; lra.
  - destruct (Req_dec_T 0 0) as [_ | E]; [| lra].
    rewrite Rmax_right; lra.
Qed.

Lemma neg_abs_selected (x : R) :
  (if Req_dec_T (indicator_ge x 0) 0 then x else - x) = - Rabs x.
Proof.
  unfold indicator_ge.
  destruct (Rle_dec 0 x) as [H | H].
  - destruct (Req_dec_T 1 0) as [E | _]; [lra |].
    rewrite Rabs_pos_eq; lra.
  - destruct (Req_dec_T 0 0) as [_ | E]; [| lra].
    rewrite Rabs_left; lra.
Qed.

(** The stable formula is the logistic loss. *)
Lemma stable_logistic_loss_eq (x z : R) :
  stable_logistic_loss x z = logistic_loss x z.
Proof.
  unfold stable_logistic_loss, logistic_loss.
  destruct (Rle_dec 0 x) as [H | H].
  - rewrite Rmax_left by lra. rewrite Rabs_pos_eq by lra. reflexivity.
  - rewrite Rmax_right by lra. rewrite Rabs_left by lra.
    rewrite Ropp_involutive.
    assert (1 + exp (- x) = exp (- x) * (1 + exp x)) as E.
    { rewrite Rmult_plus_distr_l, Rmult_1_r, <- exp_plus.
      replace (- x + x) with 0 by ring. rewrite exp_0. ring. }
    rewrite E, ln_mult, ln_exp;
      [ring | apply exp_pos | pose proof (exp_pos x); lra].
Qed.

Lemma stable_logistic_loss_nonneg (x z : R) :
  0 <= z <= 1 -> 0 <= stable_logistic_loss x z.
Proof.
  intros [Hz0 Hz1]. unfold stable_logistic_loss.
  assert (0 <= ln (1 + exp (- Rabs x))) as Hln.
  { rewrite <- ln_1. left. apply ln_increasing; [lra |].
    pose proof (exp_pos (- Rabs x)). lra. }
  assert (0 <= Rmax x 0 - x * z) as Hmax.
  { destruct (Rle_dec 0 x) as [H | H].
    - rewrite Rmax_left by lra. nra.
    - rewrite Rmax_right by lra. nra. }
  lra.
Qed.

Lemma select3_same (c t e : Tensor) :
  dims t = dims c -> dims e = dims c ->
  dims (select3 c t e) = dims c
  /\ forall i, valid_index (dims c) i ->
               elem (select3 c t e) i
               = if Req_dec_T (elem c i) 0 then elem e i else elem t i.
Proof.
  intros Ht He. unfold select3. cbn [dims elem]. rewrite Ht, He. split.
  - rewrite !broadcast_dims_same. reflexivity.
  - intros i Hi. rewrite (broadcast_index_valid Hi). reflexivity.
Qed.

(** The tensor the loss computes from the kernels, on logits [X] and labels
    [Z] of the same dimensions. *)
Lemma logistic_tensor (X Z : Tensor) :
  dims Z = dims X ->
  let zeros := map_tensor (fun _ => 0) X in
  let C := broadcast2 indicator_ge X zeros in
  let relu := select3 C X zeros in
  let neg_abs := select3 C (map_tensor Ropp X) X in
  let out :=
    broadcast2 Rplus (broadcast2 Rminus relu (broadcast2 Rmult X Z))
      (map_tensor (fun r => ln (1 + r)) (map_tensor exp neg_abs)) in
  dims out = dims X
  /\ forall i, valid_index (dims X) i ->
               elem out i = stable_logistic_loss (elem X i) (elem Z i).
Proof.
  intros HZ zeros C relu neg_abs out.
  destruct (@broadcast2_same indicator_ge X zeros eq_refl) as [dC eC].
  fold C in dC, eC.
  destruct (@select3_same C X zeros (eq_sym dC) (eq_sym dC)) as [dR eR].
  fold relu in dR, eR. rewrite dC in dR, eR.
  destruct (@select3_same C (map_tensor Ropp X) X (eq_sym dC) (eq_sym dC))
    as [dN eN].
  fold neg_abs in dN, eN. rewrite dC in dN, eN.
  destruct (@broadcast2_same Rmult X Z (eq_sym HZ)) as [dP eP].
  set (P := broadcast2 Rmult X Z) in *.
  assert (dims relu = dims P) as HRP by (rewrite dR, dP; reflexivity).
  destruct (@broadcast2_same Rminus relu P HRP) as [dS eS].
  set (S := broadcast2 Rminus relu P) in *. rewrite dR in dS, eS.
  set (Lg := map_tensor (fun r => ln (1 + r)) (map_tensor exp neg_abs)) in *.
  assert (dims S = dims Lg) as HSL by (rewrite dS; symmetry; exact dN).
  destruct (@broadcast2_same Rplus S Lg HSL) as [dO eO].
  fold out in dO, eO. rewrite dS in dO, eO.
  split; [exact dO |].
  intros i Hi. rewrite (eO i Hi), (eS i Hi), (eP i Hi), (eR i Hi).
  unfold Lg. cbn [elem map_tensor]. rewrite (eN i Hi), (eC i Hi).
  unfold zeros. cbn [elem map_tensor].
  rewrite relu_selected, neg_abs_selected. reflexivity.
Qed.

End LogisticFacts.

Section SigmoidCrossEntropyFacts.
Context {F : Type} {FO : FloatOps F}.

Local Open Scope R_scope.

(** X14. For every labels [z] and logits [x], and whatever the order in
    which the compiler runs the calls nested in the operands of the last
    [Add], [SigmoidCrossEntropyWithLogits] returns the term
    [(select(x >= 0, x, 0) - x * z) + log1p(exp(select(x >= 0, -x, x)))],
    built from ten nodes: [ZerosLike], [GreaterEqual], [SelectV2], [Negate]
    and [SelectV2] first, [Add] last, and between them [Multiply] before
    [Sub] and [Exp] before [Log1p]. Where the comparison and the two
    selections have the value of their kernels and the labels have the
    dimensions of the logits, the output has these dimensions and each
    element is the logistic loss [x - x * z + log(1 + exp(-x))], computed as
    [max(x, 0) - x * z + log(1 + exp(-abs(x)))]; it is not negative where the
    label lies between 0 and 1. *)
Theorem SigmoidCrossEntropyWithLogits_is_logistic_loss
  (order : Interleaving) (scope : Scope) (labels logits : Output F)
  (g : Graph F) (env : Output F -> Tensor) :
  let zeros := OpZerosLike logits in
  let cond := OpGreaterEqual logits zeros in
  greater_equal_kernel env cond ->
  select_kernel env (OpSelectV2 cond logits zeros) ->
  select_kernel env (OpSelectV2 cond (OpNegate logits) logits) ->
  dims (eval env labels) = dims (eval env logits) ->
  exists g',
    SigmoidCrossEntropyWithLogits order scope labels logits g
    = Ok (sigmoid_cross_entropy_form labels logits, g')
    /\ (exists added,
          nodes g' = nodes g ++ added
          /\ List.length added = 10%nat
          /\ op_types (firstn 5 added)
             = ["ZerosLike"; "GreaterEqual"; "SelectV2"; "Negate"; "SelectV2"]%string
          /\ op_types (nodes_of_types ["Multiply"; "Sub"]%string added)
             = ["Multiply"; "Sub"]%string
          /\ op_types (nodes_of_types ["Exp"; "Log1p"]%string added)
             = ["Exp"; "Log1p"]%string
          /\ op_types (skipn 9 added) = ["Add"]%string)
    /\ dims (eval env (sigmoid_cross_entropy_form labels logits))
       = dims (eval env logits)
    /\ forall i, valid_index (dims (eval env logits)) i ->
         let x := elem (eval env logits) i in
         let z := elem (eval env labels) i in
         let loss := elem (eval env (sigmoid_cross_entropy_form labels logits)) i in
         loss = logistic_loss x z
         /\ loss = stable_logistic_loss x z
         /\ (0 <= z <= 1 -> 0 <= loss).
Proof.
  intros zeros cond HC HR HN HZ. subst zeros cond.
  assert (exists g',
            SigmoidCrossEntropyWithLogits order scope labels logits g
            = Ok (sigmoid_cross_entropy_form labels logits, g')
            /\ exists added,
                nodes g' = nodes g ++ added
                /\ List.length added = 10%nat
                /\ op_types (firstn 5 added)
                   = ["ZerosLike"; "GreaterEqual"; "SelectV2"; "Negate";
                      "SelectV2"]%string
                /\ op_types (nodes_of_types ["Multiply"; "Sub"]%string added)
                   = ["Multiply"; "Sub"]%string
                /\ op_types (nodes_of_types ["Exp"; "Log1p"]%string added)
                   = ["Exp"; "Log1p"]%string
                /\ op_types (skipn 9 added) = ["Add"]%string) as [g' [Hrun Hnodes]].
  { destruct order;
      (eexists; split; [run_builder; reflexivity |];
       read_nodes; repeat split; reflexivity). }
  exists g'. split; [exact Hrun |]. split; [exact Hnodes |].
  unfold sigmoid_cross_entropy_form. cbn [eval].
  cbn [greater_equal_kernel select_kernel eval] in HC, HR, HN.
  rewrite HR, HN, HC.
  destruct (@logistic_tensor (eval env logits) (eval env labels) HZ) as [dO eO].
  cbv zeta in dO, eO.
  split; [exact dO |].
  intros i Hi. cbv zeta. rewrite (eO i Hi).
  split; [apply stable_logistic_loss_eq |].
  split; [reflexivity |].
  apply stable_logistic_loss_nonneg.
Qed.

End SigmoidCrossEntropyFacts.

(** ** Dropout with a rate that is an integer *)

Section DropoutInteger.
Context {F : Type} {FO : FloatOps F}.



End DropoutInteger.

(** ** The variance is never negative *)

Section VarianceFacts.

Local Open Scope R_scope.

Lemma Rinv_INR_nonneg (c : nat) : 0 <= / INR c.
Proof.
  destruct c as [| c].
  - simpl. rewrite Rinv_0. lra.
  - left. apply Rinv_0_lt_compat. apply lt_0_INR. lia.
Qed.

Lemma reduce_mean_kept_nonneg (t : Tensor) (axes : list Z) :
  (forall j, 0 <= elem t j) ->
  forall i, 0 <= elem (reduce_mean t axes true) i.
Proof.
  intros Ht i. cbn [reduce_mean elem]. unfold Rdiv.
  apply Rmult_le_pos; [apply sum_over_nonneg, Ht | apply Rinv_INR_nonneg].
Qed.

Lemma squeeze_dims_ext (a b : Tensor) (axes : list Z) :
  dims a = dims b -> dims (squeeze a axes) = dims (squeeze b axes).
Proof. intros H. unfold squeeze, drop_dims. cbn [dims]. rewrite H. reflexivity. Qed.

Section MomentsShape.
Context {F : Type} {FO : FloatOps F}.

Lemma kept_variance_dims (env : Output F -> Tensor) (x : Output F)
  (axes : list Z) :
  dims (eval env (kept_variance x axes)) = dims (eval env (kept_mean x axes)).
Proof.
  unfold kept_variance, kept_mean, axes_const. cbn [eval].
  set (X := eval env x).
  set (D := broadcast2 (fun a b => (a - b) * (a - b)) X (reduce_mean X axes true)).
  assert (dims D = dims X) as HdD.
  { unfold D. cbn [dims broadcast2 reduce_mean].
    apply broadcast_dims_kept, axis_mask_length. }
  cbn [reduce_mean dims]. rewrite HdD. reflexivity.
Qed.

Lemma kept_variance_nonneg (env : Output F -> Tensor) (x : Output F)
  (axes : list Z) (i : list nat) :
  0 <= elem (eval env (kept_variance x axes)) i.
Proof.
  unfold kept_variance, axes_const. cbn [eval].
  apply reduce_mean_kept_nonneg. intros j. cbn [elem broadcast2].
  match goal with |- 0 <= ?a * ?a => exact (Rle_0_sqr a) end.
Qed.

Lemma variance_nonneg (env : Output F -> Tensor) (x : Output F)
  (axes : list Z) (keep_dims : bool) (i : list nat) :
  0 <= elem (eval env (variance (moments_form x axes keep_dims))) i.
Proof.
  destruct keep_dims; cbn [moments_form variance].
  - apply kept_variance_nonneg.
  - cbn [eval]. unfold squeeze, drop_dims. cbn [elem].
    apply kept_variance_nonneg.
Qed.

(** X16. For every tensor, axes and [keep_dims], the mean and the variance
    [Moments] returns have the same dimensions, and no element of the
    variance is negative. *)
Theorem Moments_variance_is_not_negative
  (scope : Scope) (x : Output F) (axes : list Z) (keep_dims : bool)
  (g : Graph F) (env : Output F -> Tensor) :
  exists moments g',
    Moments scope x axes keep_dims g = Ok (moments, g')
    /\ dims (eval env (variance moments)) = dims (eval env (mean moments))
    /\ forall i, 0 <= elem (eval env (variance moments)) i.
Proof.
  destruct keep_dims.
  - eexists. eexists. split; [run_builder; reflexivity |].
    split.
    + exact (kept_variance_dims env x axes).
    + intros i. exact (@variance_nonneg env x axes true i).
  - eexists. eexists. split; [run_builder; reflexivity |].
    split.
    + cbn [mean variance eval].
      apply squeeze_dims_ext. exact (kept_variance_dims env x axes).
    + intros i. exact (@variance_nonneg env x axes false i).
Qed.

End MomentsShape.

Section SafeRoot.
Context {F : Type} {FO : FloatOps F} {K : Constants F}.

(** X17. In training mode, for every input, axes and graph, with epsilon a
    vector of one float, [TFBatchNormalization::Build] adds exactly one
    [Rsqrt] node, and every element of its operand, the batch variance plus
    epsilon, is at least epsilon: with a positive epsilon the reciprocal
    square root is never taken at zero or below. *)
Theorem TFBatchNormalization_training_root_operand
  (this : TFBatchNormalization.t) (scope : Scope) (x : Output F)
  (axes : list Z) (e : F) (g : Graph F) (env : Output F -> Tensor) :
  exists out g' operand,
    TFBatchNormalization.Build this scope x axes (OpConstF [1%Z] [e]) true g
    = Ok (out, g')
    /\ (exists added,
          nodes g' = nodes g ++ added
          /\ rsqrt_nodes added = [OpRsqrt operand])
    /\ (forall i, toR e <= elem (eval env operand) i)
    /\ (0 < toR e -> forall i, 0 < elem (eval env operand) i).
Proof.
  eexists. eexists. eexists.
  split; [run_builder; reflexivity |].
  split; [read_nodes; reflexivity |].
  assert (forall i,
            toR e
            <= elem (eval env
                       (OpAdd (variance (moments_form x axes false))
                          (OpConstF [1%Z] [e]))) i) as H.
  { intros i.
    change (eval env (OpAdd (variance (moments_form x axes false))
                        (OpConstF [1%Z] [e])))
      with (broadcast2 Rplus (eval env (variance (moments_form x axes false)))
              (const_tensor [1%Z] [toR e])).
    set (V := eval env (variance (moments_form x axes false))).
    cbn [elem broadcast2].
    rewrite (@const_one_elem [1%Z] (toR e)) by (right; reflexivity).
    pose proof (@variance_nonneg _ _ env x axes false (broadcast_index (dims V) i))
      as Hv.
    fold V in Hv. lra. }
  split; [exact H |].
  intros He i. apply Rlt_le_trans with (toR e); [exact He | exact (H i)].
Qed.

End SafeRoot.
End VarianceFacts.

(** ** The moving statistics stay between the old value and the batch's *)

Section MovingBounds.

Local Open Scope R_scope.

Lemma convex_between (a b d : R) :
  0 <= d <= 1 -> Rmin a b <= a - (a - b) * d <= Rmax a b.
Proof.
  intros [H0 H1]. unfold Rmin, Rmax.
  destruct (Rle_dec a b); split; nra.
Qed.

Lemma moving_update_between {F : Type} {FO : FloatOps F}
  (env : Output F -> Tensor) (moving batch : Output F) (decay : F) :
  0 <= toR decay <= 1 ->
  stays_between env (moving_update moving batch decay) moving batch.
Proof.
  intros Hd.
  destruct (moving_update_stores env moving batch decay)
    as [stored [Hrun [Hstored Helem]]].
  exists stored. split; [exact Hrun |].
  intros Hdims. destruct (Helem Hdims) as [Hds Hi].
  split; [exact Hds |].
  intros i Hv. rewrite (Hi i Hv). apply convex_between, Hd.
Qed.

Section LayerUpdates.
Context {F : Type} {FO : FloatOps F} {K : Constants F}.

(** X18. With [1 - MOMENTUM] between 0 and 1, in training mode, the two
    update ops that each normalization layer registers keep the moving
    statistics between their old value and the statistic of the batch:
    where the two have the same dimensions, each element stored lies
    between the old element and the batch's. The batch statistics of the
    reference layer are those of [Moments]; those of the fused layer are
    outputs of the fused primitive. *)
Theorem moving_statistics_stay_between
  (reference : TFBatchNormalization.t) (fused : TFFusedBatchNorm.t)
  (scope : Scope) (x : Output F) (axes : list Z) (epsilon : Output F)
  (variance_epsilon : F) (g : Graph F) (env : Output F -> Tensor) :
  0 <= toR (fsub (of_int 1) MOMENTUM : F) <= 1 ->
  (exists out g' update_mean update_variance,
      TFBatchNormalization.Build reference scope x axes epsilon true g
      = Ok (out, g')
      /\ update_ops g' = update_ops g ++ [update_mean; update_variance]
      /\ stays_between env update_mean
           (TFBatchNormalization.moving_mean reference)
           (mean (moments_form x axes false))
      /\ stays_between env update_variance
           (TFBatchNormalization.moving_variance reference)
           (variance (moments_form x axes false)))
  /\ (exists out g' update_mean update_variance,
        TFFusedBatchNorm.Build fused scope x variance_epsilon true g
        = Ok (out, g')
        /\ update_ops g' = update_ops g ++ [update_mean; update_variance]
        /\ stays_between env update_mean
             (TFFusedBatchNorm.moving_mean fused)
             (fused_form (TFFusedBatchNorm.moving_mean fused)
                (TFFusedBatchNorm.moving_variance fused)
                (TFFusedBatchNorm.gamma fused) (TFFusedBatchNorm.beta fused)
                x variance_epsilon true fused_batch_mean)
        /\ stays_between env update_variance
             (TFFusedBatchNorm.moving_variance fused)
             (fused_form (TFFusedBatchNorm.moving_mean fused)
                (TFFusedBatchNorm.moving_variance fused)
                (TFFusedBatchNorm.gamma fused) (TFFusedBatchNorm.beta fused)
                x variance_epsilon true fused_batch_variance)).
Proof.
  intros Hd. split.
  - eexists. eexists. eexists. eexists.
    split; [run_builder; reflexivity |].
    split; [cbn [update_ops]; rewrite <- app_assoc; reflexivity |].
    split; apply moving_update_between; exact Hd.
  - eexists. eexists. eexists. eexists.
    split; [run_builder; reflexivity |].
    split; [cbn [update_ops]; rewrite <- app_assoc; reflexivity |].
    split; apply moving_update_between; exact Hd.
Qed.

End LayerUpdates.
End MovingBounds.

(** ** The limit of the Glorot initializer *)

Section GlorotLimit.

Local Open Scope R_scope.

Lemma glorot_limit_closed_form (fan_in fan_out : R) :
  2 <= fan_in + fan_out ->
  glorot_limit fan_in fan_out = sqrt (6 / (fan_in + fan_out)).
Proof.
  intros H. rewrite glorot_limit_exact.
  rewrite Rmax_right by lra. f_equal. field. lra.
Qed.

Lemma glorot_limit_capped (fan_in fan_out : R) :
  glorot_limit fan_in fan_out <= sqrt 3.
Proof.
  rewrite glorot_limit_exact. apply sqrt_le_1_alt.
  set (M := Rmax 1 ((fan_in + fan_out) / 2)).
  assert (1 <= M) as H by apply Rmax_l.
  assert (/ M <= / 1) as Hinv by (apply Rinv_le_contravar; lra).
  rewrite Rinv_1 in Hinv. lra.
Qed.

(** X19. With exact arithmetic, on every shape whose fans [fan_in] and
    [fan_out], as the constructor computes them, add up to 2 or more, and
    with a draw uniform in [0, 1), [GlorotUniform] returns a tensor of the
    dimensions of the shape whose elements lie within [-limit, limit] for
    [limit = sqrt(6 / (fan_in + fan_out))], the bound of the Glorot
    initializer, and that limit is at most [sqrt(3)]. *)
Theorem GlorotUniform_limit_closed_form
  (scope : Scope) (shape : list Z) (fan_in fan_out : R) (g : Graph R)
  (env : Output R -> Tensor) :
  glorot_fans (F := R) shape = Some (fan_in, fan_out) ->
  2 <= fan_in + fan_out ->
  uniform_draw env
    (OpRandomUniform (S (next_id g))
       (OpConstI DT_INT64 [Z.of_nat (List.length shape)] shape) DT_FLOAT) ->
  let limit := sqrt (6 / (fan_in + fan_out)) in
  exists out g',
    GlorotUniform scope shape g = Ok (out, g')
    /\ dims (eval env out) = map Z.to_nat shape
    /\ (forall i, valid_index (dims (eval env out)) i ->
          - limit <= elem (eval env out) i <= limit)
    /\ limit <= sqrt 3.
Proof.
  intros Hfans Hsum Hdraw limit.
  destruct (@GlorotUniform_run R _ scope shape (fan_in, fan_out) g Hfans)
    as [g' [Hrun _]].
  cbv zeta in Hrun. cbn [fst snd] in Hrun.
  assert (glorot_limit fan_in fan_out = limit) as Hlimit
    by (apply glorot_limit_closed_form; exact Hsum).
  rewrite Hlimit in Hrun.
  eexists. eexists. split; [exact Hrun |].
  assert (0 <= limit) as Hpos by (unfold limit; apply sqrt_pos).
  destruct (@glorot_range env (S (next_id g)) shape limit Hpos Hdraw)
    as [Hdims Hrange].
  cbv zeta in Hdims, Hrange.
  split; [exact Hdims |]. split; [exact Hrange |].
  rewrite <- Hlimit. apply glorot_limit_capped.
Qed.

End GlorotLimit.

(** ** Witnesses *)

(** Witness of X1: a 2-by-3 matrix filled with 5, and statistics, offset and
    scale of three elements filled with 2, in binary32. *)
Lemma BatchNormalization_standardizes_columns_witness :
  let env := row_env (F := Binary32.float32) 5 2 in
  dims (eval env sample_x) = [2; 3]%nat
  /\ dims (eval env (sample_vector 1)) = [3%nat]
  /\ exists out g',
      BatchNormalization root_scope (sample_x (F := Binary32.float32))
        (sample_vector 1) (sample_vector 2) (sample_vector 3) (sample_vector 4)
        (OpConstF [1%Z] [float_lit 1 1000]) empty_graph
      = Ok (out, g')
      /\ dims (eval env out) = [2; 3]%nat
      /\ forall j k, (j < 2)%nat -> (k < 3)%nat ->
           elem (eval env out) [j; k]
           = ((5 - 2) * (2 * / sqrt (2 + toR (float_lit 1 1000 : Binary32.float32)))
              + 2)%R.
Proof.
  intros env. split; [reflexivity |]. split; [reflexivity |].
  exact (@BatchNormalization_standardizes_columns Binary32.float32 _ root_scope
           sample_x (sample_vector 1) (sample_vector 2) (sample_vector 3)
           (sample_vector 4) (float_lit 1 1000) empty_graph env 2 3
           eq_refl eq_refl eq_refl eq_refl eq_refl).
Defined.

(** Witness of X2: the same matrix. *)
Lemma Moments_of_matrix_columns_witness :
  let env := row_env (F := Binary32.float32) 5 2 in
  dims (eval env sample_x) = [2; 3]%nat
  /\ exists moments g',
      Moments root_scope (sample_x (F := Binary32.float32)) [0%Z] false
        empty_graph
      = Ok (moments, g')
      /\ dims (eval env (mean moments)) = [3%nat]
      /\ dims (eval env (variance moments)) = [3%nat]
      /\ forall k, (k < 3)%nat ->
           elem (eval env (mean moments)) [k]
           = column_mean (eval env sample_x) 2 k
           /\ elem (eval env (variance moments)) [k]
              = column_variance (eval env sample_x) 2 k.
Proof.
  intros env. split; [reflexivity |].
  exact (@Moments_of_matrix_columns Binary32.float32 _ root_scope sample_x
           empty_graph env 2 3 eq_refl).
Defined.

(** Witness of X3: the same matrix, through a layer whose gamma and beta are
    filled with 2: every column of the output has mean 2. *)
Lemma TFBatchNormalization_Build_training_witness :
  let K := sample_constants in
  let env := row_env (F := Binary32.float32) 5 2 in
  dims (eval env sample_x) = [2; 3]%nat
  /\ dims (eval env (TFBatchNormalization.gamma sample_layer)) = [3%nat]
  /\ dims (eval env (TFBatchNormalization.beta sample_layer)) = [3%nat]
  /\ exists out g',
      TFBatchNormalization.Build sample_layer root_scope
        (sample_x (F := Binary32.float32)) [0%Z]
        (OpConstF [1%Z] [float_lit 1 1000]) true empty_graph
      = Ok (out, g')
      /\ dims (eval env out) = [2; 3]%nat
      /\ forall k, (k < 3)%nat -> column_mean (eval env out) 2 k = 2%R.
Proof.
  intros K env.
  split; [reflexivity |]. split; [reflexivity |]. split; [reflexivity |].
  destruct (@TFBatchNormalization_Build_training_standardizes
              Binary32.float32 _ K sample_layer root_scope sample_x
              (float_lit 1 1000) empty_graph env 2 3 eq_refl eq_refl eq_refl)
    as [out [g' [Hrun [Hd [_ Hmean]]]]].
  exists out, g'. split; [exact Hrun |]. split; [exact Hd |].
  intros k Hk. exact (Hmean (Nat.lt_0_succ 1) k Hk).
Defined.

(** Witness of X6: a layer of three units built on the empty graph, in the
    state its initial assignments leave, applied to a 2-by-3 matrix filled
    with 5. *)
Lemma TFBatchNormalization_initial_inference_witness :
  let K := sample_constants in
  let env := init_env (F := Binary32.float32) 5 in
  exists layer g1,
    TFBatchNormalization.new root_scope [3%Z] empty_graph = Ok (layer, g1)
    /\ holds_initial_values env g1
    /\ dims (eval env sample_dense) = [2; 3]%nat
    /\ exists out g2,
        TFBatchNormalization.Build layer root_scope sample_dense [0%Z]
          (OpConstF [1%Z] [float_lit 1 1000]) false g1
        = Ok (out, g2)
        /\ dims (eval env out) = [2; 3]%nat
        /\ forall j k, (j < 2)%nat -> (k < 3)%nat ->
             elem (eval env out) [j; k]
             = (5 * / sqrt (toR (float_lit 1 1000 : Binary32.float32)))%R.
Proof.
  intros K env.
  destruct (TFBatchNormalization_new_run (F := Binary32.float32) root_scope
              [3%Z] empty_graph) as [g1 [Hrun Hassign]].
  cbv zeta in Hrun, Hassign.
  assert (holds_initial_values env g1) as Hinit.
  { unfold holds_initial_values. rewrite Hassign.
    repeat (apply Forall_cons || apply Forall_nil);
      (split; [reflexivity | intros i _; reflexivity]). }
  eexists. exists g1. split; [exact Hrun |]. split; [exact Hinit |].
  split; [reflexivity |].
  refine (@TFBatchNormalization_initial_inference_scales
            Binary32.float32 _ K root_scope root_scope [3%Z]
            [0%Z] empty_graph g1 _ sample_dense (float_lit 1 1000) env
            2 3 Hrun Hinit eq_refl _).
  repeat constructor.
Defined.


(** Witness of X14: logits filled with -2 and labels filled with 1, where
    the comparison and the selections hold the value of their kernels, with
    the right operand of the sum evaluated first. *)
Lemma SigmoidCrossEntropyWithLogits_witness :
  let env := logistic_env (F := Binary32.float32) (-2) 1 in
  let zeros := OpZerosLike (sample_x (F := Binary32.float32)) in
  let cond := OpGreaterEqual sample_x zeros in
  greater_equal_kernel env cond
  /\ select_kernel env (OpSelectV2 cond sample_x zeros)
  /\ select_kernel env (OpSelectV2 cond (OpNegate sample_x) sample_x)
  /\ dims (eval env sample_labels) = dims (eval env sample_x)
  /\ exists g',
      SigmoidCrossEntropyWithLogits ExpLog1pMultiplySub root_scope sample_labels
        (sample_x (F := Binary32.float32)) empty_graph
      = Ok (sigmoid_cross_entropy_form sample_labels sample_x, g')
      /\ forall i, valid_index [2; 3]%nat i ->
           elem (eval env (sigmoid_cross_entropy_form sample_labels sample_x)) i
           = logistic_loss (-2) 1.
Proof.
  intros env zeros cond.
  split; [reflexivity |]. split; [reflexivity |]. split; [reflexivity |].
  split; [reflexivity |].
  destruct (@SigmoidCrossEntropyWithLogits_is_logistic_loss Binary32.float32 _
              ExpLog1pMultiplySub root_scope sample_labels sample_x empty_graph
              env
              eq_refl eq_refl eq_refl eq_refl)
    as [g' [Hrun [_ [_ Hloss]]]].
  exists g'. split; [exact Hrun |].
  intros i Hi. exact (proj1 (Hloss i Hi)).
Defined.


(** Witness of X18: the momentum [0.8f] in binary32. *)
Lemma moving_statistics_stay_between_witness :
  let K := sample_constants in
  let env := row_env (F := Binary32.float32) 5 2 in
  (0 <= toR (fsub (of_int 1) MOMENTUM : Binary32.float32) <= 1)%R
  /\ exists out g' update_mean update_variance,
      TFBatchNormalization.Build sample_layer root_scope
        (sample_x (F := Binary32.float32)) [0%Z]
        (OpConstF [1%Z] [float_lit 1 1000]) true empty_graph
      = Ok (out, g')
      /\ update_ops g' = [update_mean; update_variance]
      /\ stays_between env update_mean
           (TFBatchNormalization.moving_mean sample_layer)
           (mean (moments_form sample_x [0%Z] false))
      /\ stays_between env update_variance
           (TFBatchNormalization.moving_variance sample_layer)
           (variance (moments_form sample_x [0%Z] false)).
Proof.
  intros K env.
  assert (0 <= toR (fsub (of_int 1) MOMENTUM : Binary32.float32) <= 1)%R
    as Hd by (vm_compute; lra).
  split; [exact Hd |].
  exact (proj1 (@moving_statistics_stay_between Binary32.float32 _ K
                  sample_layer sample_fused root_scope sample_x [0%Z]
                  (OpConstF [1%Z] [float_lit 1 1000]) (float_lit 1 1000)
                  empty_graph env Hd)).
Defined.

(** Witness of X19: the shape [[2, 3]], where every node holds the 2-by-3
    tensor of zeros. *)
Lemma GlorotUniform_limit_closed_form_witness :
  let env := sample_env (F := R) 0 in
  glorot_fans (F := R) [2; 3]%Z = Some (2%R, 3%R)
  /\ (2 <= 2 + 3)%R
  /\ uniform_draw env
       (OpRandomUniform 1 (OpConstI DT_INT64 [2%Z] [2; 3]%Z) DT_FLOAT)
  /\ exists out g',
      GlorotUniform root_scope [2; 3]%Z empty_graph = Ok (out, g')
      /\ dims (eval env out) = [2; 3]%nat
      /\ forall i, valid_index (dims (eval env out)) i ->
           (- sqrt (6 / (2 + 3)) <= elem (eval env out) i
            <= sqrt (6 / (2 + 3)))%R.
Proof.
  intros env.
  assert (2 <= 2 + 3)%R as Hsum by lra.
  split; [reflexivity |]. split; [exact Hsum |].
  split; [apply sample_uniform_draw_const |].
  destruct (@GlorotUniform_limit_closed_form root_scope [2; 3]%Z 2%R 3%R
              empty_graph env eq_refl Hsum (sample_uniform_draw_const 1))
    as [out [g' [Hrun [Hd [Hrange _]]]]].
  exists out, g'. split; [exact Hrun |]. split; [exact Hd | exact Hrange].
Defined.
